(** * compare-aggregators-monad: the on-chain swap simulation subsystem

    A shallow embedding of the retry executor ([utils/retry.ts]), the
    fork helpers ([utils/client.ts]) and the balance injection, swap
    execution and gas accounting of [compare.ts].

    Conventions of the embedding.
    - An [async] function is a state-passing computation over a [World]:
      the forked node, the process-wide [BALANCE_SLOT_CACHE] and a ghost
      log of the requests sent and the pauses taken.  A rejected promise
      is [Throw], a fulfilled one [Return].
    - [bigint] is [Z]; addresses, storage keys and 32-byte words are [Z];
      JavaScript numbers that hold prices are binary64 floats
      ([PrimFloat.float]); millisecond delays and slot numbers are [Z].
    - Strings are [String.string] and hold ASCII text, on which
      [toLowerCase] is what is modelled here.
    - A thrown value is an object with optional [message], [details]
      and [cause.reason], or [undefined]/[null]; reading [.message] of
      the latter without [?.] throws a [TypeError].
    - [console.log], [console.warn] and [console.error] have no effect
      besides the evaluation of their arguments. *)

From Stdlib Require Import ZArith List String Ascii Bool Lia.
From Stdlib Require Import PrimFloat SpecFloat FloatOps.
From Stdlib Require Import DecimalString.
From stdpp Require Import base gmap.

Local Open Scope string_scope.
Local Open Scope Z_scope.

(** ** JavaScript strings and thrown values *)

Module Js.

(** [c.toLowerCase()] on one ASCII code unit. *)
Definition lower_ascii (c : ascii) : ascii :=
  let n := nat_of_ascii c in
  if (Nat.leb 65 n && Nat.leb n 90)%bool then ascii_of_nat (n + 32) else c.

Fixpoint toLowerCase (s : string) : string :=
  match s with
  | EmptyString => EmptyString
  | String c s' => String (lower_ascii c) (toLowerCase s')
  end.

(** [s.includes(pat)]. *)
Fixpoint includes (pat s : string) : bool :=
  String.prefix pat s
  || match s with
     | EmptyString => false
     | String _ s' => includes pat s'
     end.

(** Decimal rendering of an integer inside a template literal. *)
Definition show (z : Z) : string := NilZero.string_of_int (Z.to_int z).

(** A thrown value: an [Error] with its [message], the [details] field
    RPC libraries attach, and [cause.reason].  A field that is absent
    is [None].  The record with all three absent is the value
    [undefined] (or [null]): every [Error] has a [message], and so has
    every rejection of the RPC library. *)
Record JsError : Type := mkJsError {
  message : option string;
  details : option string;
  cause_reason : option string
}.

(** [new Error(msg)] *)
Definition Error (msg : string) : JsError := mkJsError (Some msg) None None.
Definition undefined : JsError := mkJsError None None None.

(** [x === undefined || x === null] on a thrown value. *)
Definition nullish (e : JsError) : bool :=
  match message e, details e, cause_reason e with
  | None, None, None => true
  | _, _, _ => false
  end.

(** The [TypeError] of a property read on [undefined], with the
    message Node gives it. *)
Definition TypeError_message : JsError :=
  Error "Cannot read properties of undefined (reading 'message')".

(** [x || dflt] on an optional string: absent and empty are falsy. *)
Definition or_else (x : option string) (dflt : string) : string :=
  match x with
  | Some (String c s) => String c s
  | _ => dflt
  end.

(** [x?.includes(pat)] used as a condition. *)
Definition opt_includes (pat : string) (x : option string) : bool :=
  match x with
  | Some s => includes pat s
  | None => false
  end.

(** Outcome of awaiting a promise. *)
Inductive Res (A : Type) : Type :=
| Return (a : A)
| Throw (e : JsError).
Arguments Return {A} a.
Arguments Throw {A} e.

End Js.
Export Js.

(** ** The forked node seen as a request/reply machine *)

Module Node.

Inductive ReceiptStatus := TxSuccess | TxReverted.

Record Receipt : Type := mkReceipt {
  rc_status : ReceiptStatus;
  rc_gasUsed : Z;
  rc_blockNumber : Z
}.

(** The requests [compare.ts] and [utils/client.ts] send through the
    viem client.  [client.request({method: "anvil_setStorageAt"})] and
    [client.setStorageAt] are the same request; so are
    ["eth_getStorageAt"] and [client.getStorageAt]. *)
Inductive Rpc : Type :=
| GetStorageAt (address key : Z)
| SetStorageAt (address key value : Z)
| BalanceOf (token holder : Z)
| Allowance (token owner spender : Z)
| HardhatSetBalance (address value : Z)
| SetBalance (address value : Z)
| GetBalance (address : Z)
| ImpersonateAccount (address : Z)
| StopImpersonatingAccount (address : Z)
| Deal (token account amount sender : Z)
| Approve (token spender amount account : Z)
| WaitForTransactionReceipt (hash : Z)
| GetBytecode (address : Z)
| SendTransaction (account to : Z) (data : string) (value gas : Z)
| Call (account to : Z) (data : string) (value blockNumber : Z)
| Reset (blockNumber : Z)
| GetBlockNumber.

Inductive Reply : Type :=
| RUnit
| RWord (z : Z)
| RReceipt (r : Receipt)
| RCode (deployed : bool)
| RFail (e : JsError).

(** A node of state [N]: how it answers a request, and whether the
    answer arrives before a deadline the caller races it against
    ([Promise.race] with a [setTimeout] rejection). *)
Record Client (N : Type) : Type := mkClient {
  handle : Rpc -> N -> Reply * N;
  in_time : Rpc -> N -> Z -> bool
}.
Arguments mkClient {N} _ _.
Arguments handle {N} _ _ _.
Arguments in_time {N} _ _ _ _.

Inductive Event : Type :=
| EvSleep (ms : Z)
| EvRpc (request : Rpc) (reply : Reply)
| EvLate (request : Rpc) (deadline : Z).

(** The process: node, [BALANCE_SLOT_CACHE] (token address to slot),
    and the ghost log, oldest event first. *)
Record World (N : Type) : Type := mkWorld {
  node : N;
  cache : gmap Z Z;
  log : list Event
}.
Arguments mkWorld {N} _ _ _.
Arguments node {N} _.
Arguments cache {N} _.
Arguments log {N} _.

End Node.
Export Node.

(** ** Promises as a state and exception monad *)

Module Async.

Definition M (N A : Type) : Type := World N -> Res A * World N.

Definition ret {N A} (a : A) : M N A := fun w => (Return a, w).
Definition throw {N A} (e : JsError) : M N A := fun w => (Throw e, w).

Definition bind {N A B} (m : M N A) (k : A -> M N B) : M N B :=
  fun w =>
    match m w with
    | (Return a, w') => k a w'
    | (Throw e, w') => (Throw e, w')
    end.

(** [try { m } catch (e) { h e }] *)
Definition try_catch {N A} (m : M N A) (h : JsError -> M N A) : M N A :=
  fun w =>
    match m w with
    | (Return a, w') => (Return a, w')
    | (Throw e, w') => h e w'
    end.

Definition emit {N} (ev : Event) : M N unit :=
  fun w => (Return tt, mkWorld (node w) (cache w) (log w ++ [ev])).

(** [await sleep(ms)] and [await new Promise(r => setTimeout(r, ms))]. *)
Definition sleep {N} (ms : Z) : M N unit := emit (EvSleep ms).

Definition get_cache {N} (token : Z) : M N (option Z) :=
  fun w => (Return (cache w !! token), w).

Definition set_cache {N} (token slot : Z) : M N unit :=
  fun w => (Return tt, mkWorld (node w) (<[token := slot]> (cache w)) (log w)).

(** Send a request and await its reply. *)
Definition request {N} (c : Client N) (r : Rpc) : M N Reply :=
  fun w =>
    let '(rep, n') := handle c r (node w) in
    (Return rep, mkWorld n' (cache w) (log w ++ [EvRpc r rep])).

(** [Promise.race([request, timeoutPromise])]: the request is sent
    either way; when the reply is late the race rejects with
    [Error(msg)]. *)
Definition raced {N} (c : Client N) (r : Rpc) (deadline : Z) (msg : string)
  : M N Reply :=
  fun w =>
    if in_time c r (node w) deadline then request c r w
    else
      let '(_, n') := handle c r (node w) in
      (Throw (Error msg),
       mkWorld n' (cache w) (log w ++ [EvLate r deadline])).

(** [error.message], read without [?.]. *)
Definition read_message {N} (error : JsError) : M N (option string) :=
  if nullish error then throw TypeError_message else ret (message error).

(** A reply of a shape the caller cannot use counts as a rejection. *)
Definition bad_reply : JsError := Error "unexpected reply".

Definition as_unit {N} (rep : Reply) : M N unit :=
  match rep with
  | RFail e => throw e
  | _ => ret tt
  end.

Definition as_word {N} (rep : Reply) : M N Z :=
  match rep with
  | RWord z => ret z
  | RFail e => throw e
  | _ => throw bad_reply
  end.

Definition as_receipt {N} (rep : Reply) : M N Receipt :=
  match rep with
  | RReceipt r => ret r
  | RFail e => throw e
  | _ => throw bad_reply
  end.

Definition as_code {N} (rep : Reply) : M N bool :=
  match rep with
  | RCode b => ret b
  | RFail e => throw e
  | _ => throw bad_reply
  end.

End Async.
Export Async.

Declare Scope async_scope.
Delimit Scope async_scope with async.
Notation "x <- m ;; k" := (bind m (fun x => k))
  (at level 100, m at next level, right associativity) : async_scope.
Notation "m ;;; k" := (bind m (fun _ => k))
  (at level 100, right associativity) : async_scope.
Local Open Scope async_scope.

(** ** utils/retry.ts *)

Module Retry.

Record RetryOptions (N : Type) : Type := mkRetryOptions {
  maxAttempts : option Z;
  initialDelay : option Z;
  maxDelay : option Z;
  backoffMultiplier : option Z;
  shouldRetry : option (JsError -> bool);
  onRetry : option (Z -> JsError -> M N unit)
}.
Arguments mkRetryOptions {N} _ _ _ _ _ _.
Arguments maxAttempts {N} _.
Arguments initialDelay {N} _.
Arguments maxDelay {N} _.
Arguments backoffMultiplier {N} _.
Arguments shouldRetry {N} _.
Arguments onRetry {N} _.

(** [options = {}] *)
Definition no_options {N} : RetryOptions N :=
  mkRetryOptions None None None None None None.

(** [DEFAULT_RETRY_OPTIONS] *)
Definition DEFAULT_maxAttempts : Z := 3.
Definition DEFAULT_initialDelay : Z := 1000.
Definition DEFAULT_maxDelay : Z := 30000.
Definition DEFAULT_backoffMultiplier : Z := 2.

Definition defaultShouldRetry (error : JsError) : bool :=
  let errorMessage := toLowerCase (or_else (message error) "") in
  let errorDetails := toLowerCase (or_else (details error) "") in
  if includes "timeout" errorMessage || includes "timeout" errorDetails
  then true
  else if includes "econnrefused" errorMessage
          || includes "econnreset" errorMessage
  then true
  else if includes "rate limit" errorMessage
          || includes "too many requests" errorMessage
  then true
  else if includes "network" errorMessage
          || includes "fetch failed" errorMessage
  then true
  else if includes "block requested not found" errorMessage
          || includes "block requested not found" errorDetails
  then true
  else if includes "revert" errorMessage
          && negb (includes "timeout" errorMessage)
  then false
  else false.

Section Loop.
Context {N T : Type}.
Variable fn : M N T.
Variable opts_maxAttempts opts_maxDelay opts_backoffMultiplier : Z.
Variable opts_shouldRetry : JsError -> bool.
Variable opts_onRetry : option (Z -> JsError -> M N unit).

(** The [for] loop of [retryWithBackoff]; [fuel] bounds the number
    of iterations still possible. *)
Fixpoint attempts (fuel : nat) (attempt delay : Z) (lastError : JsError)
  : M N T :=
  if attempt <=? opts_maxAttempts then
    match fuel with
    | O => throw lastError
    | S fuel' =>
        try_catch fn (fun error =>
          if (attempt =? opts_maxAttempts) || negb (opts_shouldRetry error)
          then throw error
          else
            match opts_onRetry with
            | Some cb => cb attempt error
            | None => ret tt
            end ;;;
            sleep delay ;;;
            attempts fuel' (attempt + 1)
              (Z.min (delay * opts_backoffMultiplier) opts_maxDelay)
              error)
    end
  else throw lastError.
End Loop.

Definition retryWithBackoff {N T} (fn : M N T) (options : RetryOptions N)
  : M N T :=
  let opts_maxAttempts := default DEFAULT_maxAttempts (maxAttempts options) in
  let opts_initialDelay := default DEFAULT_initialDelay (initialDelay options) in
  let opts_maxDelay := default DEFAULT_maxDelay (maxDelay options) in
  let opts_backoffMultiplier :=
    default DEFAULT_backoffMultiplier (backoffMultiplier options) in
  let opts_shouldRetry := default defaultShouldRetry (shouldRetry options) in
  attempts fn opts_maxAttempts opts_maxDelay opts_backoffMultiplier
    opts_shouldRetry (onRetry options)
    (Z.to_nat opts_maxAttempts) 1 opts_initialDelay undefined.

End Retry.
Export Retry.

(** ** compare.ts: gas accounting *)

Module Gas.

(** [Number(z)] for a [bigint]: the nearest binary64, ties to even. *)
Definition Number (z : Z) : float :=
  SF2Prim (binary_normalize prec emax z 0 false).

(** [10 ** d].  For [0 <= d <= 22] the power is a binary64 value, so
    every implementation returns it; token decimals stay in that
    range.  Outside it the embedding takes the nearest binary64. *)
Definition pow10 (d : Z) : float := Number (10 ^ d).

(** [BigInt(Math.floor(x))]: the integer below a finite [x]; [None]
    stands for the [RangeError] on NaN and the infinities. *)
Definition BigInt_floor (x : float) : option Z :=
  match Prim2SF x with
  | S754_zero _ => Some 0
  | S754_finite s m e =>
      let n := if s then Z.neg m else Z.pos m in
      Some (if 0 <=? e then n * 2 ^ e else n / 2 ^ (- e))
  | S754_infinity _ => None
  | S754_nan => None
  end.

(** [!x] on a number: zero and NaN are falsy. *)
Definition falsy (x : float) : bool := is_zero x || is_nan x.

Definition gasPrice : Z := 1000000000.

(** [gasUsed] is the decimal string of a [bigint]; the price is the
    entry of [TOKEN_PRICES_IN_NATIVE_TOKEN] for the output token,
    [None] when there is none.  The result is the decimal string of
    the returned [bigint]. *)
Definition calculateGasCostInTokenOut
    (gasUsed : Z) (monPriceInToken : option float) (tokenOutDecimals : Z)
  : Z :=
  let gasCostInWei := gasUsed * gasPrice in
  let gasCostInMON := PrimFloat.div (Number gasCostInWei) (pow10 18) in
  match monPriceInToken with
  | None => 0
  | Some price =>
      if falsy price then 0
      else
        let gasCostInTokenOut := PrimFloat.mul gasCostInMON price in
        match BigInt_floor
                (PrimFloat.mul gasCostInTokenOut (pow10 tokenOutDecimals))
        with
        | Some gasCostInTokenOutWei => gasCostInTokenOutWei
        | None => 0
        end
  end.

Definition calculateNetAmount (amountOut gasCostInTokenOut : Z) : Z :=
  let netAmount := amountOut - gasCostInTokenOut in
  if netAmount <? 0 then 0 else netAmount.

(** The formula of the specification, read in binary64 arithmetic in
    the order it is written:
    [floor(gasUsed * assumedGasPrice / 1e18 * price * 10^decimals)]. *)
Definition assumedGasPrice : Z := 10 ^ 9.

Definition spec_gasCostInOutputToken
    (gasUsed : Z) (nativeToOutputPrice : float) (outputDecimals : Z)
  : option Z :=
  BigInt_floor
    (PrimFloat.mul
       (PrimFloat.mul
          (PrimFloat.div (Number (gasUsed * assumedGasPrice)) (Number (10 ^ 18)))
          nativeToOutputPrice)
       (Number (10 ^ outputDecimals))).

(** The same formula over the rationals, with the price a ratio
    [num / den] of integers. *)
Definition exact_gasCostInOutputToken
    (gasUsed num den outputDecimals : Z) : Z :=
  (gasUsed * assumedGasPrice * num * 10 ^ outputDecimals) / (10 ^ 18 * den).

End Gas.
Export Gas.

(** ** consts.ts and the constants of compare.ts *)

Module Consts.

Definition COMMON_SLOTS_FOR_BALANCE_SET : list Z :=
  [0; 1; 2; 3; 4; 5; 6; 7; 8; 9; 10;
   11; 12; 13; 14; 15; 16; 17; 18; 19; 20;
   51; 52; 101; 102; 103; 104; 105;
   50; 100; 150; 200; 255].

Definition NATIVE_TOKEN_ADDRESS : Z := 0.

Definition PROXY_SLOTS : list Z :=
  [0x360894a13ba1a3210667c828492db98dca3e2076cc3735a920a3ca505d382bbc;
   0x5f3b5dfeb7b28cdbd7faba78963ee202a494e2a2cc8c9978b5e1354f480f6e77;
   0x7050c9e0f4ca769c69bd3a8ef740bc37934f8e2c036e5a723fd8ee048ed3f8c3].

Definition ERC20_NAMESPACE_ID : Z :=
  0x52c63247e1f47db19d5ce0460030c497f067ca4cebf71ba98eeadabe20bace00.

Definition MAX_UINT256 : Z :=
  0xffffffffffffffffffffffffffffffffffffffffffffffffffffffffffffffff.

Definition testAmount : Z := 123456789123456789123456789.

Definition totalSupplySlots : list Z := [2; 3; 4; 5; 6; 7; 8].
Definition knownBalanceSlots : list Z := [0; 1; 2; 3; 4; 5].
Definition proxySlots : list Z :=
  [0; 1; 2; 3; 4; 5; 6; 7; 8; 9; 10; 51; 52; 100; 101; 102].

(** utils/client.ts *)
Definition DEFAULT_TIMEOUT : Z := 120000.
Definition LONG_TIMEOUT : Z := 300000.

(** The candidate list as the specification gives it:
    0-20, 51, 52, 100-105, 150, 200, 255. *)
Definition spec_candidate_slots : list Z :=
  [0; 1; 2; 3; 4; 5; 6; 7; 8; 9; 10;
   11; 12; 13; 14; 15; 16; 17; 18; 19; 20;
   51; 52; 100; 101; 102; 103; 104; 105; 150; 200; 255].

End Consts.
Export Consts.

(** ** compare.ts and utils/client.ts over a client *)

Module Compare.

Inductive Status := success | reverted | error | skipped.

Record SimulationResult : Type := mkSimulationResult {
  status : Status;
  amountOut : Z;
  sim_error : option string;
  gasUsed : option Z
}.

Record SwapTransaction : Type := mkSwapTransaction {
  to : Z;
  data : string;
  value : option Z
}.

(** What a run is given besides the node: the hash of the RPC library,
    the test account, and the price and token tables filled before
    the samples run. *)
Record Env (N : Type) : Type := mkEnv {
  client : Client N;
  keccak256 : list Byte.byte -> Z;
  TEST_ACCOUNT : Z;
  TOKEN_PRICES_IN_NATIVE_TOKEN : Z -> option float;
  TOKEN_DATABASE_decimals : Z -> option Z
}.
Arguments mkEnv {N} _ _ _ _ _.
Arguments client {N} _.
Arguments keccak256 {N} _ _.
Arguments TEST_ACCOUNT {N} _.
Arguments TOKEN_PRICES_IN_NATIVE_TOKEN {N} _ _.
Arguments TOKEN_DATABASE_decimals {N} _ _.

(** [pad(x, {size: 32})]: the 32 bytes of a number, big end first. *)
Definition byte_of_Z (z : Z) : Byte.byte :=
  default Byte.x00 (Byte.of_N (Z.to_N (z mod 256))).

Fixpoint be_bytes (len : nat) (z : Z) : list Byte.byte :=
  match len with
  | O => []
  | S len' => be_bytes len' (z / 256) ++ [byte_of_Z z]
  end.

Definition pad32 (z : Z) : list Byte.byte := be_bytes 32 z.

(** [pad(toHex(v), {size: 32})] for a [bigint]: rejected below zero
    and beyond 32 bytes. *)
Definition encode_uint256 {N} (v : Z) : M N Z :=
  if (0 <=? v) && (v <? 2 ^ 256) then ret v
  else throw (Error "integer out of range").

(** [toHex(v)] for a [bigint]. *)
Definition toHex {N} (v : Z) : M N Z :=
  if 0 <=? v then ret v else throw (Error "integer out of range").

(** Run [body] on each element in turn until one returns [true]
    (a [return true] inside a [for ... of] loop). *)
Fixpoint first_success {N} (body : Z -> M N bool) (l : list Z) : M N bool :=
  match l with
  | [] => ret false
  | x :: rest =>
      ok <- body x ;;
      if ok then ret true else first_success body rest
  end.

Section WithEnv.
Context {N : Type} (env : Env N).

Definition send (r : Rpc) : M N Reply := request (client env) r.

(** [keccak256(concat([pad(key), pad(slot)]))] *)
Definition mapping_key (key slot : Z) : Z :=
  keccak256 env (pad32 key ++ pad32 slot).

Definition readBalanceOf (token holder : Z) : M N Z :=
  rep <- send (BalanceOf token holder) ;; as_word rep.

Definition setStorageAt (address index v : Z) : M N unit :=
  rep <- send (SetStorageAt address index v) ;; as_unit rep.

Definition getStorageAt (address index : Z) : M N Z :=
  rep <- send (GetStorageAt address index) ;; as_word rep.

Definition isNativeToken (tokenAddress : Z) : bool :=
  tokenAddress =? NATIVE_TOKEN_ADDRESS.

Definition getTokenDecimals (tokenAddress : Z) : Z :=
  default 18 (TOKEN_DATABASE_decimals env tokenAddress).

(** *** findBalanceSlot *)

Definition findBalanceSlot_probe (tokenAddress holderAddress slot : Z)
  : M N (option Z) :=
  try_catch
    (let balanceSlot := mapping_key holderAddress slot in
     setStorageAt tokenAddress balanceSlot testAmount ;;;
     sleep 100 ;;;
     balance <- readBalanceOf tokenAddress holderAddress ;;
     if balance =? testAmount then
       set_cache tokenAddress slot ;;;
       setStorageAt tokenAddress balanceSlot 0 ;;;
       ret (Some slot)
     else ret None)
    (fun _ => ret None).

Fixpoint findBalanceSlot_search (tokenAddress holderAddress : Z)
    (slots : list Z) : M N (option Z) :=
  match slots with
  | [] => ret None
  | slot :: rest =>
      found <- findBalanceSlot_probe tokenAddress holderAddress slot ;;
      match found with
      | Some s => ret (Some s)
      | None => findBalanceSlot_search tokenAddress holderAddress rest
      end
  end.

Definition findBalanceSlot (tokenAddress holderAddress : Z)
  : M N (option Z) :=
  cached <- get_cache tokenAddress ;;
  match cached with
  | Some slot => ret (Some slot)
  | None =>
      findBalanceSlot_search tokenAddress holderAddress
        COMMON_SLOTS_FOR_BALANCE_SET
  end.

(** *** detectProxyImplementation *)

Fixpoint detectProxy_search (address : Z) (slots : list Z)
  : M N (option Z) :=
  match slots with
  | [] => ret None
  | slot :: rest =>
      found <- try_catch
                 (implAddress <- getStorageAt address slot ;;
                  if implAddress =? 0 then ret None
                  else ret (Some (implAddress mod 2 ^ 160)))
                 (fun _ => ret None) ;;
      match found with
      | Some impl => ret (Some impl)
      | None => detectProxy_search address rest
      end
  end.

Definition detectProxyImplementation (address : Z) : M N (option Z) :=
  detectProxy_search address PROXY_SLOTS.

(** *** setERC20Balance, method by method *)

Section Inject.
Variables tokenAddress holderAddress amount : Z.

Definition balance_reached : M N bool :=
  balance <- readBalanceOf tokenAddress holderAddress ;;
  ret (amount <=? balance).

(** Method 1, one candidate slot. *)
Definition direct_probe (slot : Z) : M N bool :=
  try_catch
    (let storageSlot := mapping_key holderAddress slot in
     originalValue <- getStorageAt tokenAddress storageSlot ;;
     v <- encode_uint256 amount ;;
     setStorageAt tokenAddress storageSlot v ;;;
     sleep 1000 ;;;
     balance <- readBalanceOf tokenAddress holderAddress ;;
     if amount <=? balance then
       set_cache tokenAddress slot ;;; ret true
     else
       setStorageAt tokenAddress storageSlot originalValue ;;;
       ret false)
    (fun _ => ret false).

Definition method1 : M N bool :=
  try_catch (first_success direct_probe COMMON_SLOTS_FOR_BALANCE_SET)
    (fun _ => ret false).

Definition method2 : M N bool :=
  try_catch
    (v <- toHex (amount * 10 ^ 18) ;;
     (rep <- send (HardhatSetBalance holderAddress v) ;; as_unit rep) ;;;
     balance_reached)
    (fun _ => ret false).

Definition method3 : M N bool :=
  try_catch
    ((rep <- send (ImpersonateAccount holderAddress) ;; as_unit rep) ;;;
     dealt <- try_catch
                (v <- encode_uint256 amount ;;
                 (rep <- send (Deal tokenAddress holderAddress v
                                 holderAddress) ;;
                  as_word rep) ;;;
                 balance <- readBalanceOf tokenAddress holderAddress ;;
                 if amount <=? balance then
                   (rep <- send (StopImpersonatingAccount holderAddress) ;;
                    as_unit rep) ;;;
                   ret true
                 else ret false)
                (fun _ => ret false) ;;
     if dealt then ret true
     else
       (rep <- send (StopImpersonatingAccount holderAddress) ;;
        as_unit rep) ;;;
       ret false)
    (fun _ => ret false).

Definition method4 : M N bool :=
  try_catch
    (let balanceStorageSlot :=
       mapping_key holderAddress ERC20_NAMESPACE_ID in
     v <- encode_uint256 amount ;;
     setStorageAt tokenAddress balanceStorageSlot v ;;;
     sleep 1000 ;;;
     balance_reached)
    (fun _ => ret false).

Definition method5 : M N bool :=
  try_catch
    (slot <- findBalanceSlot tokenAddress holderAddress ;;
     match slot with
     | Some slot =>
         let balanceSlot := mapping_key holderAddress slot in
         originalValue <- getStorageAt tokenAddress balanceSlot ;;
         v <- encode_uint256 amount ;;
         setStorageAt tokenAddress balanceSlot v ;;;
         sleep 1000 ;;;
         actualBalance <- readBalanceOf tokenAddress holderAddress ;;
         if amount <=? actualBalance then ret true
         else
           setStorageAt tokenAddress balanceSlot originalValue ;;;
           ret false
     | None => ret false
     end)
    (fun _ => ret false).

Definition supply_probe (balSlot : Z) : M N bool :=
  let balanceSlot := mapping_key holderAddress balSlot in
  v <- encode_uint256 amount ;;
  setStorageAt tokenAddress balanceSlot v ;;;
  balance <- readBalanceOf tokenAddress holderAddress ;;
  if amount <=? balance then
    set_cache tokenAddress balSlot ;;; ret true
  else ret false.

Definition method6 : M N bool :=
  try_catch
    (first_success
       (fun supplySlot =>
          try_catch
            (let largeTotalSupply := amount * 1000 in
             v <- encode_uint256 largeTotalSupply ;;
             setStorageAt tokenAddress supplySlot v ;;;
             first_success supply_probe knownBalanceSlots)
            (fun _ => ret false))
       totalSupplySlots)
    (fun _ => ret false).

Definition reverse_probe (slot : Z) : M N bool :=
  try_catch
    (let balanceSlotReverse :=
       keccak256 env (pad32 slot ++ pad32 holderAddress) in
     originalValue <- getStorageAt tokenAddress balanceSlotReverse ;;
     v <- encode_uint256 amount ;;
     setStorageAt tokenAddress balanceSlotReverse v ;;;
     balance <- readBalanceOf tokenAddress holderAddress ;;
     if amount <=? balance then
       set_cache tokenAddress slot ;;; ret true
     else
       setStorageAt tokenAddress balanceSlotReverse originalValue ;;;
       ret false)
    (fun _ => ret false).

Definition method7 (implementationAddress : option Z) : M N bool :=
  match implementationAddress with
  | Some _ =>
      try_catch (first_success reverse_probe proxySlots)
        (fun _ => ret false)
  | None => ret false
  end.

(** The methods in the order they are tried; the first that
    returns [true] ends the call. *)
Fixpoint first_method (methods : list (M N bool)) : M N bool :=
  match methods with
  | [] => ret false
  | m :: rest =>
      ok <- m ;;
      if ok then ret true else first_method rest
  end.

Definition setERC20Balance : M N bool :=
  implementationAddress <- detectProxyImplementation tokenAddress ;;
  first_method
    [method1; method2; method3; method4; method5; method6;
     method7 implementationAddress].

End Inject.

(** *** Funding, approval and balances *)

Definition setNativeBalance (address amount : Z) : M N unit :=
  try_catch
    (rep <- send (SetBalance address amount) ;; as_unit rep)
    (fun error => throw error).

(** The [amount] parameter is not used: the approval is for
    [MAX_UINT256]. *)
Definition approveERC20 (tokenAddress spenderAddress amount : Z)
  : M N unit :=
  try_catch
    (hash <- (rep <- send (Approve tokenAddress spenderAddress MAX_UINT256
                             (TEST_ACCOUNT env)) ;;
              as_word rep) ;;
     (rep <- send (WaitForTransactionReceipt hash) ;; as_receipt rep) ;;;
     ret tt)
    (fun error => throw error).

Definition getTokenBalance (tokenAddress holderAddress : Z)
    (isNative : bool) : M N Z :=
  if isNative then
    rep <- send (GetBalance holderAddress) ;; as_word rep
  else readBalanceOf tokenAddress holderAddress.

(** *** utils/client.ts *)

(** [options.maxAttempts || dflt] *)
Definition or_attempts (x : option Z) (dflt : Z) : Z :=
  match x with
  | Some 0 => dflt
  | Some n => n
  | None => dflt
  end.

Definition resetShouldRetry (error : JsError) : bool :=
  let message := toLowerCase (or_else (message error) "") in
  negb (includes "invalid block" message)
  && negb (includes "not found" message).

Definition resetForkWithRetry (blockNumber : Z) (maxAttempts : option Z)
  : M N unit :=
  let maxAttempts := or_attempts maxAttempts 5 in
  retryWithBackoff
    (rep <- raced (client env) (Reset blockNumber) LONG_TIMEOUT
              "Fork reset timed out after 5 minutes" ;;
     as_unit rep)
    (mkRetryOptions (Some maxAttempts) (Some 2000) (Some 60000) None
       (Some resetShouldRetry)
       (Some (fun _ error => read_message error ;;; ret tt))).

Definition executeTransactionWithRetry
    (account to : Z) (data : string) (value gas : Z)
    (maxAttempts timeout : option Z) : M N Receipt :=
  let maxAttempts := or_attempts maxAttempts 3 in
  let timeout := or_attempts timeout DEFAULT_TIMEOUT in
  retryWithBackoff
    (hash <- (rep <- raced (client env)
                       (SendTransaction account to data value gas) timeout
                       ("Transaction timed out after " ++ show timeout
                          ++ "ms") ;;
              as_word rep) ;;
     rep <- raced (client env) (WaitForTransactionReceipt hash) timeout
              ("Receipt wait timed out after " ++ show timeout ++ "ms") ;;
     as_receipt rep)
    (mkRetryOptions (Some maxAttempts) (Some 2000) (Some 30000) None
       None (Some (fun _ error => read_message error ;;; ret tt))).

(** *** forkToBlock *)

Definition forkToBlock (blockNumber : Z) : M N unit :=
  try_catch
    (resetForkWithRetry blockNumber (Some 5) ;;;
     sleep 1000 ;;;
     (rep <- send GetBlockNumber ;; as_word rep) ;;;
     ret tt)
    (fun error => read_message error ;;; throw error).

(** *** simulateTransaction *)

Definition is_timeout (error : JsError) : bool :=
  opt_includes "timeout" (message error)
  || opt_includes "timed out" (message error).

(** Balance set-up; [Some r] is an early [return r]. *)
Definition setupBalances (tokenIn amountIn : Z) (swapData : SwapTransaction)
  : M N (option SimulationResult) :=
  if isNativeToken tokenIn then
    let minBalance := 1000 * 10 ^ 18 in
    let calculatedBalance := amountIn * 1000000 in
    let balance :=
      if minBalance <? calculatedBalance then calculatedBalance
      else minBalance in
    setNativeBalance (TEST_ACCOUNT env) balance ;;;
    (rep <- send (GetBalance (TEST_ACCOUNT env)) ;; as_word rep) ;;;
    ret None
  else
    let bufferMultiplier := 10 in
    let bufferedAmount := amountIn * bufferMultiplier in
    balanceSetSuccess <-
      setERC20Balance tokenIn (TEST_ACCOUNT env) bufferedAmount ;;
    actualBalance <- readBalanceOf tokenIn (TEST_ACCOUNT env) ;;
    if negb balanceSetSuccess || (actualBalance <? amountIn) then
      ret (Some (mkSimulationResult error 0
                   (Some "Failed to set token balance for simulation")
                   None))
    else
      approveERC20 tokenIn (to swapData) bufferedAmount ;;;
      (rep <- send (Allowance tokenIn (TEST_ACCOUNT env) (to swapData)) ;;
       as_word rep) ;;;
      ret None.

(** The swap submission; [inr r] is an early [return r]. *)
Definition submitSwap (swapData : SwapTransaction)
  : M N (Receipt + SimulationResult) :=
  try_catch
    (receipt <- executeTransactionWithRetry (TEST_ACCOUNT env)
                  (to swapData) (data swapData)
                  (default 0 (value swapData)) 30000000
                  (Some 3) (Some 600000) ;;
     ret (inl receipt))
    (fun txError =>
       read_message txError ;;;
       if is_timeout txError then throw txError
       else
         ret (inr (mkSimulationResult error 0
                     (Some (or_else (cause_reason txError)
                              (or_else (message txError) "Unknown error")))
                     None))).

Definition simulateTransaction (tokenIn tokenOut amountIn : Z)
    (swapData : SwapTransaction) : M N SimulationResult :=
  try_catch
    (early <- setupBalances tokenIn amountIn swapData ;;
     match early with
     | Some result => ret result
     | None =>
         sleep 1000 ;;;
         let isNativeOut := isNativeToken tokenOut in
         initialBalance <-
           getTokenBalance tokenOut (TEST_ACCOUNT env) isNativeOut ;;
         sleep 1000 ;;;
         targetCode <- (rep <- send (GetBytecode (to swapData)) ;;
                        as_code rep) ;;
         if negb targetCode then
           throw (Error ("Target contract " ++ show (to swapData)
                           ++ " does not exist"))
         else
           submitted <- submitSwap swapData ;;
           match submitted with
           | inr result => ret result
           | inl receipt =>
               match rc_status receipt with
               | TxSuccess =>
                   sleep 1000 ;;;
                   finalBalance <-
                     getTokenBalance tokenOut (TEST_ACCOUNT env)
                       isNativeOut ;;
                   let amountOut := finalBalance - initialBalance in
                   ret (mkSimulationResult success amountOut None
                          (Some (rc_gasUsed receipt)))
               | TxReverted =>
                   try_catch
                     (send (Call (TEST_ACCOUNT env) (to swapData)
                              (data swapData)
                              (default 0 (value swapData))
                              (rc_blockNumber receipt)) ;;;
                      ret tt)
                     (fun callError =>
                        read_message callError ;;; ret tt) ;;;
                   ret (mkSimulationResult reverted 0
                          (Some "Transaction reverted")
                          (Some (rc_gasUsed receipt)))
               end
           end
     end)
    (fun error =>
       msg <- read_message error ;;
       ret (mkSimulationResult Compare.error 0
              (Some (or_else msg "Unknown error")) None)).

(** *** runComparison: the simulation of one quote *)

Record Quote : Type := mkQuote {
  q_status : Z;
  q_blockNumber : option Z;
  q_txData : option SwapTransaction;
  q_amountIn : option Z
}.

Record SampleResult : Type := mkSampleResult {
  simulationStatus : Status;
  simulationOutput : Z;
  simulationError : option string;
  sample_gasUsed : option Z;
  gasCostInTokenOut : Z;
  netAmount : Z
}.

Definition refork (quoteResult : Quote) : M N unit :=
  match q_blockNumber quoteResult with
  | Some blockNumber => forkToBlock blockNumber
  | None => ret tt
  end.

(** The operation handed to the outer [retryWithBackoff]. *)
Definition simulationAttempt (quoteResult : Quote) (tokenIn tokenOut : Z)
    (swapData : SwapTransaction) : M N SimulationResult :=
  try_catch
    (simulateTransaction tokenIn tokenOut
       (default 0 (q_amountIn quoteResult)) swapData)
    (fun error =>
       read_message error ;;;
       if is_timeout error then refork quoteResult ;;; throw error
       else throw error).

Definition simulateQuote (quoteResult : Quote) (tokenIn tokenOut : Z)
  : M N SampleResult :=
  refork quoteResult ;;;
  sleep 1000 ;;;
  simulationResult <-
    match q_txData quoteResult with
    | Some swapData =>
        if q_status quoteResult =? 200 then
          try_catch
            (retryWithBackoff
               (simulationAttempt quoteResult tokenIn tokenOut swapData)
               (mkRetryOptions (Some 3) (Some 5000) (Some 30000) None None
                  (Some (fun _ error => read_message error ;;; ret tt))))
            (fun simError =>
               msg <- read_message simError ;;
               ret (mkSimulationResult error 0 msg None))
        else
          ret (mkSimulationResult skipped 0 (Some "Simulation skipped")
                 None)
    | None =>
        ret (mkSimulationResult error 0 (Some "No transaction data") None)
    end ;;
  let '(cost, net) :=
    match gasUsed simulationResult with
    | Some used =>
        let tokenOutDecimals := getTokenDecimals tokenOut in
        let cost :=
          calculateGasCostInTokenOut used
            (TOKEN_PRICES_IN_NATIVE_TOKEN env tokenOut) tokenOutDecimals in
        (cost, calculateNetAmount (amountOut simulationResult) cost)
    | None => (0, amountOut simulationResult)
    end in
  ret (mkSampleResult (status simulationResult)
         (amountOut simulationResult) (sim_error simulationResult)
         (gasUsed simulationResult) cost net).

End WithEnv.
End Compare.
Export Compare.

(** ** A reference node

    A small deterministic fork used to run the embedding on concrete
    samples: contract storage, native balances, allowances, and a
    script of what each swap submission meets. *)

Module Anvil.

Record Fork : Type := mkFork {
  storage : gmap (Z * Z) Z;
  native : gmap Z Z;
  allowances : gmap (Z * Z * Z) Z;
  blockNumber : Z;
  submitted : nat
}.

(** What one [sendTransaction] meets: the reply, whether it arrives
    before the caller's deadline, and what the transaction does. *)
Record Submission : Type := mkSubmission {
  sub_reply : Reply;
  sub_in_time : bool;
  sub_effect : Fork -> Fork
}.

(** The chain behind the fork: the [balanceOf] view of each token as
    a function of the token's storage, which addresses hold code, the
    submissions in order, and the receipt of each hash. *)
Record Chain : Type := mkChain {
  balanceOf_code : Z -> (Z -> Z) -> Z -> Reply;
  deployed : Z -> bool;
  submissions : list Submission;
  receipt_of : Z -> Reply
}.

Definition word_at (f : Fork) (address key : Z) : Z :=
  default 0 (storage f !! (address, key)).

Definition pristine (blockNumber : Z) (submitted : nat) : Fork :=
  mkFork ∅ ∅ ∅ blockNumber submitted.

Definition handle (ch : Chain) (r : Rpc) (f : Fork) : Reply * Fork :=
  match r with
  | GetStorageAt a k => (RWord (word_at f a k), f)
  | SetStorageAt a k v =>
      (RUnit,
       mkFork (<[(a, k) := v]> (storage f)) (native f) (allowances f)
         (blockNumber f) (submitted f))
  | BalanceOf t h => (balanceOf_code ch t (word_at f t) h, f)
  | Allowance t o s => (RWord (default 0 (allowances f !! (t, o, s))), f)
  | HardhatSetBalance a v | SetBalance a v =>
      (RUnit,
       mkFork (storage f) (<[a := v]> (native f)) (allowances f)
         (blockNumber f) (submitted f))
  | GetBalance a => (RWord (default 0 (native f !! a)), f)
  | ImpersonateAccount _ | StopImpersonatingAccount _ => (RUnit, f)
  | Deal _ _ _ _ => (RWord 0, f)
  | Approve t s v o =>
      (RWord 0,
       mkFork (storage f) (native f) (<[(t, o, s) := v]> (allowances f))
         (blockNumber f) (submitted f))
  | WaitForTransactionReceipt h => (receipt_of ch h, f)
  | GetBytecode a => (RCode (deployed ch a), f)
  | SendTransaction _ _ _ _ _ =>
      match nth_error (submissions ch) (submitted f) with
      | Some sub =>
          let f' := sub_effect sub f in
          (sub_reply sub,
           mkFork (storage f') (native f') (allowances f') (blockNumber f')
             (S (submitted f)))
      | None => (RFail (Error "nonce too low"), f)
      end
  | Call _ _ _ _ _ => (RWord 0, f)
  | Reset b => (RUnit, pristine b (submitted f))
  | GetBlockNumber => (RWord (blockNumber f), f)
  end.

Definition in_time (ch : Chain) (r : Rpc) (f : Fork) (deadline : Z) : bool :=
  match r with
  | SendTransaction _ _ _ _ _ =>
      match nth_error (submissions ch) (submitted f) with
      | Some sub => sub_in_time sub
      | None => true
      end
  | _ => true
  end.

Definition anvil (ch : Chain) : Client Fork :=
  mkClient (handle ch) (in_time ch).

(** A stand-in for the hash of the RPC library on concrete samples:
    the bytes read as a number, reduced modulo the prime 2^255 - 19. *)
Definition sample_keccak256 (bs : list Byte.byte) : Z :=
  fold_left (fun acc b => acc * 256 + Z.of_N (Byte.to_N b)) bs 0
    mod (2 ^ 255 - 19).

Definition sample_env (ch : Chain) (prices : Z -> option float) : Env Fork :=
  mkEnv (anvil ch) sample_keccak256
    0xf39Fd6e51aad88F6F4ce6aB8827279cffFb92266 prices (fun _ => None).

Definition start (f : Fork) : World Fork := mkWorld f ∅ [].

(** Token code: an ERC20 whose balances mapping sits at [slot]. *)
Definition erc20_at (slot : Z) (token : Z) (st : Z -> Z) (holder : Z)
  : Reply :=
  RWord (st (sample_keccak256 (pad32 holder ++ pad32 slot))).

(** Token code: balances live outside the contract's own storage;
    the view answers a fixed amount. *)
Definition fixed_balance (b : Z) (token : Z) (st : Z -> Z) (holder : Z)
  : Reply := RWord b.

(** Token code: no [balanceOf]; the call reverts. *)
Definition no_balanceOf (token : Z) (st : Z -> Z) (holder : Z) : Reply :=
  RFail (Error "execution reverted").

Definition quiet_chain (code : Z -> (Z -> Z) -> Z -> Reply) : Chain :=
  mkChain code (fun _ => true) [] (fun _ => RFail (Error "unknown hash")).

End Anvil.

(** ** Test doubles and observations on the log *)

Module Observe.

(** A scripted operation: the node state is the list of outcomes the
    operation still has to produce, one per invocation. *)
Definition scripted {T : Type} : M (list (Res T)) T :=
  fun w =>
    match node w with
    | [] => (Throw (Error "script exhausted"), w)
    | outcome :: rest => (outcome, mkWorld rest (cache w) (log w))
    end.

(** Invocations of a scripted operation between two worlds. *)
Definition invocations {T : Type} (w w' : World (list (Res T))) : nat :=
  (length (node w) - length (node w'))%nat.

(** The patterns the default classifier looks for. *)
Definition recognized_patterns : list string :=
  ["timeout"; "econnrefused"; "econnreset"; "rate limit";
   "too many requests"; "network"; "fetch failed";
   "block requested not found"; "revert"].

(** The options after the defaults are merged in. *)
Definition effective_shouldRetry {N} (options : RetryOptions N)
  : JsError -> bool :=
  default defaultShouldRetry (shouldRetry options).
Definition effective_initialDelay {N} (options : RetryOptions N) : Z :=
  default DEFAULT_initialDelay (initialDelay options).
Definition effective_secondDelay {N} (options : RetryOptions N) : Z :=
  Z.min
    (effective_initialDelay options
     * default DEFAULT_backoffMultiplier (backoffMultiplier options))
    (default DEFAULT_maxDelay (maxDelay options)).

(** A callback that only prints. *)
Definition silent {N} (cb : Z -> JsError -> M N unit) : Prop :=
  forall attempt e w, cb attempt e w = (Return tt, w).

(** Requests in the log, answered or late, oldest first. *)
Definition request_of (ev : Event) : option Rpc :=
  match ev with
  | EvRpc r _ => Some r
  | EvLate r _ => Some r
  | EvSleep _ => None
  end.

Definition requests (l : list Event) : list Rpc :=
  omap request_of l.

Definition is_storage_write (r : Rpc) : bool :=
  match r with SetStorageAt _ _ _ => true | _ => false end.

Definition is_approval (r : Rpc) : bool :=
  match r with Approve _ _ _ _ => true | _ => false end.

Definition is_submission (r : Rpc) : bool :=
  match r with SendTransaction _ _ _ _ _ => true | _ => false end.

Definition is_reset (r : Rpc) : bool :=
  match r with Reset _ => true | _ => false end.

Definition storage_writes (l : list Event) : list Rpc :=
  List.filter is_storage_write (requests l).

Definition approvals (l : list Event) : list Rpc :=
  List.filter is_approval (requests l).

Definition submissions_sent (l : list Event) : list Rpc :=
  List.filter is_submission (requests l).

Definition resets_and_submissions (l : list Event) : list Rpc :=
  List.filter (fun r => is_reset r || is_submission r) (requests l).

(** The request that reads the test account's balance of a token. *)
Definition balance_request {N} (env : Env N) (token : Z) : Rpc :=
  if isNativeToken token then GetBalance (TEST_ACCOUNT env)
  else BalanceOf token (TEST_ACCOUNT env).

(** Events of the swap submission: the transaction, the wait for its
    receipt, and the pauses between retries. *)
Definition submission_event (ev : Event) : Prop :=
  match ev with
  | EvSleep _ => True
  | EvRpc r _ | EvLate r _ =>
      match r with
      | SendTransaction _ _ _ _ _ | WaitForTransactionReceipt _ => True
      | _ => False
      end
  end.

(** Events that neither approve nor submit a transaction. *)
Definition no_transaction_event (ev : Event) : Prop :=
  match request_of ev with
  | Some r => is_approval r = false /\ is_submission r = false
  | None => True
  end.

End Observe.
Export Observe.

(** ** Samples *)

Module Samples.
Import Anvil.

Definition account : Z := 0xf39Fd6e51aad88F6F4ce6aB8827279cffFb92266.
Definition tokenA : Z := 0xAAAA.
Definition usdc : Z := 0xf817257fed379853cDe0fa4F97AB987181B1E5Ea.
Definition router : Z := 0xBBBB.

Definition swap : SwapTransaction := mkSwapTransaction router "0x38ed1739" None.

Definition fresh : World Fork := start (pristine 100 0).

Definition no_prices : Z -> option float := fun _ => None.

(** [tokenA] keeps its balances outside its own storage: [balanceOf]
    answers 0 whatever is written. *)
Definition exotic_env : Env Fork :=
  sample_env (quiet_chain (fixed_balance 0)) no_prices.

(** [tokenA] keeps its balances in mapping slot 50. *)
Definition slot50_env : Env Fork :=
  sample_env (quiet_chain (erc20_at 50)) no_prices.

(** [tokenA] has no [balanceOf] at all. *)
Definition broken_env : Env Fork :=
  sample_env (quiet_chain no_balanceOf) no_prices.

(** Every hash has a successful receipt using 150000 gas. *)
Definition mined (h : Z) : Reply := RReceipt (mkReceipt TxSuccess 150000 101).

(** Both tokens keep their balances in mapping slot [slot_of token];
    a swap that executes adds 99500000 units of [usdc] to the test
    account. *)
Definition slot_of (token : Z) : Z := if token =? usdc then 0 else 1.

Definition standard_code (token : Z) (st : Z -> Z) (holder : Z) : Reply :=
  erc20_at (slot_of token) token st holder.

Definition pay_out (f : Fork) : Fork :=
  let key := sample_keccak256 (pad32 account ++ pad32 0) in
  mkFork
    (<[(usdc, key) := word_at f usdc key + 99500000]> (storage f))
    (native f) (allowances f) (blockNumber f) (submitted f).

Definition accepted : Submission := mkSubmission (RWord 1) true pay_out.
Definition rejected_timeout : Submission :=
  mkSubmission (RFail (Error "request timeout")) true (fun f => f).
Definition never_answered : Submission :=
  mkSubmission (RWord 1) false pay_out.
Definition lost_reply : Submission :=
  mkSubmission (RFail (Error "request timeout")) true pay_out.

Definition prices (token : Z) : option float :=
  if token =? usdc then Some (Number 2500) else None.

Definition decimals (token : Z) : option Z :=
  if token =? usdc then Some 6 else None.

Definition market (subs : list Submission) : Env Fork :=
  mkEnv (anvil (mkChain standard_code (fun _ => true) subs mined))
    sample_keccak256 account prices decimals.

(** A quote for [tokenA] against [usdc] taken at block 100. *)
Definition quote : Quote :=
  mkQuote 200 (Some 100) (Some swap) (Some 1000).

(** The world a second sample starts from: the fork is reset, the
    cache is kept. *)
Definition next_sample (w : World Fork) : World Fork :=
  mkWorld (pristine 100 (submitted (node w))) (cache w) [].

Definition three_attempts : RetryOptions (list (Res Z)) :=
  mkRetryOptions (Some 3) None None None None None.

Definition flaky_twice : World (list (Res Z)) :=
  mkWorld [Throw (Error "socket timeout"); Throw (Error "network down");
           Return 42] ∅ [].

Definition boom : JsError := Error "Boom: invalid opcode".

Definition failing_once : World (list (Res Z)) :=
  mkWorld [Throw boom; Return 42] ∅ [].

End Samples.

(** ** Predicates on computations *)

(** The world after [await sleep(ms)]. *)
Definition after_sleep {N} (ms : Z) (w : World N) : World N :=
  mkWorld (node w) (cache w) (log w ++ [EvSleep ms]).

(** A computation that never throws. *)
Definition returns {N A} (m : M N A) : Prop :=
  forall w, exists a w', m w = (Return a, w').

(** A computation that only appends events satisfying [P] to the log. *)
Definition emits {N A} (P : Event -> Prop) (m : M N A) : Prop :=
  forall w, exists l, log (snd (m w)) = (log w ++ l)%list /\ Forall P l.

(** The last [balanceOf] read of [holder] in the log answered at least
    [amount]. *)
Definition balance_confirmed (token holder amount : Z) (l : list Event)
  : Prop :=
  exists l1 b l2,
    l = (l1 ++ EvRpc (BalanceOf token holder) (RWord b) :: l2)%list
    /\ amount <= b
    /\ Forall (fun ev => forall rep, ev <> EvRpc (BalanceOf token holder) rep)
         l2.

(** Worlds that differ by more log only: same cache. *)
Definition same_cache {N} (w w' : World N) : Prop :=
  cache w' = cache w /\ exists l, log w' = (log w ++ l)%list.

(** ** utils/retry.ts: the backoff schedule and batchWithRateLimit *)

Module Schedule.

(** The pauses of [retryWithBackoff]: the first is the initial delay,
    each next one is [min (delay * multiplier) maxDelay]. *)
Fixpoint backoff_delays (delay mult maxd : Z) (k : nat) : list Z :=
  match k with
  | O => []
  | S k' => delay :: backoff_delays (Z.min (delay * mult) maxd) mult maxd k'
  end.

Definition effective_maxAttempts {N} (options : RetryOptions N) : Z :=
  default DEFAULT_maxAttempts (maxAttempts options).
Definition effective_maxDelay {N} (options : RetryOptions N) : Z :=
  default DEFAULT_maxDelay (maxDelay options).
Definition effective_multiplier {N} (options : RetryOptions N) : Z :=
  default DEFAULT_backoffMultiplier (backoffMultiplier options).

(** The pauses [retryWithBackoff] takes before its [k+1]-th attempt. *)
Definition pauses {N} (options : RetryOptions N) (k : nat) : list Event :=
  EvSleep
    <$> backoff_delays (effective_initialDelay options)
          (effective_multiplier options) (effective_maxDelay options) k.

(** [options] whose callback, if any, only prints. *)
Definition quiet_options {N} (options : RetryOptions N) : Prop :=
  forall cb, onRetry options = Some cb -> silent cb.

(** [l.slice(start, stop)], negative indices counting from the end. *)
Definition js_slice {A} (start stop : Z) (l : list A) : list A :=
  let len := Z.of_nat (length l) in
  let relative x := if x <? 0 then Z.max (len + x) 0 else Z.min x len in
  let k := relative start in
  let final := relative stop in
  take (Z.to_nat (final - k)) (drop (Z.to_nat k) l).

Record BatchOptions : Type := mkBatchOptions {
  batchSize : option Z;
  delayBetweenBatches : option Z;
  delayBetweenItems : option Z
}.

Section Batch.
Context {N T R : Type}.
Variable operation : T -> M N R.
Variables opt_batchSize opt_delayBetweenBatches opt_delayBetweenItems : Z.
Variable items : list T.

(** The inner [for ... of batch] loop. *)
Fixpoint batch_items (batch : list T) (results : list R) : M N (list R) :=
  match batch with
  | [] => ret results
  | item :: rest =>
      result <- try_catch
                  (result <- operation item ;;
                   (if 0 <? opt_delayBetweenItems
                    then sleep opt_delayBetweenItems else ret tt) ;;;
                   ret result)
                  (fun error => throw error) ;;
      batch_items rest (results ++ [result])
  end.

(** The outer loop; [None] is returned when [fuel] iterations were not
    enough for it to finish. *)
Fixpoint batch_loop (fuel : nat) (i : Z) (results : list R)
  : M N (option (list R)) :=
  if i <? Z.of_nat (length items) then
    match fuel with
    | O => ret None
    | S fuel' =>
        results <- batch_items (js_slice i (i + opt_batchSize) items) results ;;
        (if (i + opt_batchSize <? Z.of_nat (length items))
            && (0 <? opt_delayBetweenBatches)
         then sleep opt_delayBetweenBatches else ret tt) ;;;
        batch_loop fuel' (i + opt_batchSize) results
    end
  else ret (Some results).
End Batch.

Definition batchWithRateLimit {N T R} (fuel : nat) (items : list T)
    (operation : T -> M N R) (options : BatchOptions)
  : M N (option (list R)) :=
  batch_loop operation (default 5 (batchSize options))
    (default 1000 (delayBetweenBatches options))
    (default 100 (delayBetweenItems options)) items fuel 0 [].

End Schedule.
Export Schedule.

(** ** utils.ts: getAmountInTokenDecimals *)

Module Utils.

(** [BigInt(x)] for a number: the integer [x] is; [None] stands for the
    [RangeError] on a fraction, NaN and the infinities. *)
Definition BigInt_of_number (x : float) : option Z :=
  match Prim2SF x with
  | S754_zero _ => Some 0
  | S754_finite s m e =>
      let n := if s then Z.neg m else Z.pos m in
      if 0 <=? e then Some (n * 2 ^ e)
      else if n mod 2 ^ (- e) =? 0 then Some (n / 2 ^ (- e))
      else None
  | S754_infinity _ => None
  | S754_nan => None
  end.

(** [amountIn] is the decimal string of a [bigint], and so is the
    result; [None] stands for a [RangeError].  The division of two
    [bigint]s rounds toward zero. *)
Definition getAmountInTokenDecimals (amountIn tokenInDecimals : Z)
  : option Z :=
  match BigInt_of_number (pow10 tokenInDecimals) with
  | Some divisor =>
      if divisor =? 0 then None else Some (Z.quot amountIn divisor)
  | None => None
  end.

End Utils.
Export Utils.

(** ** compare.ts: token tiers and pair weights *)

Module Weights.

Definition TIER_1_TOKENS : list string :=
  ["MON"; "WETH"; "WBTC"; "USDC"; "USDT"].
Definition TIER_2_TOKENS : list string :=
  ["gMON"; "sMON"; "aprMON"; "shMON"; "CHOG"].

(** [set.has(x)] on a [Set] of strings. *)
Definition has (set : list string) (x : string) : bool :=
  existsb (String.eqb x) set.

Definition getTokenTier (tokenSymbol : string) : Z :=
  if has TIER_1_TOKENS tokenSymbol then 1
  else if has TIER_2_TOKENS tokenSymbol then 2
  else 3.

(** [[tier1, tier2].sort()] compares the decimal renderings, which
    for the one-digit tiers is the order of the numbers; [sort] keeps
    the order of two equal elements. *)
Definition sort_tiers (tier1 tier2 : Z) : Z * Z :=
  if tier2 <? tier1 then (tier2, tier1) else (tier1, tier2).

Definition getPairWeight (tokenFromSymbol tokenToSymbol : string) : Z :=
  let tier1 := getTokenTier tokenFromSymbol in
  let tier2 := getTokenTier tokenToSymbol in
  let '(minTier, maxTier) := sort_tiers tier1 tier2 in
  if (minTier =? 1) && (maxTier =? 1) then 10
  else if (minTier =? 1) && (maxTier =? 2) then 5
  else if (minTier =? 1) && (maxTier =? 3) then 2
  else if (minTier =? 2) && (maxTier =? 2) then 3
  else if (minTier =? 2) && (maxTier =? 3) then 1
  else 1.

End Weights.
Export Weights.

(** ** utils/error-recovery.ts *)

Module Recovery.

Definition unrecoverablePatterns : list string :=
  ["insufficient funds"; "invalid signature"; "unauthorized"; "forbidden";
   "invalid api key"; "malformed"; "syntaxerror"; "typeerror";
   "referenceerror"].

Definition recoverablePatterns : list string :=
  ["timeout"; "network"; "econnrefused"; "econnreset"; "rate limit";
   "too many requests"; "temporary"; "service unavailable"; "bad gateway";
   "gateway timeout"].

(** Each [for] loop returns at the first pattern the message holds. *)
Definition isRecoverableError (error : JsError) : bool :=
  let errorMessage := toLowerCase (or_else (message error) "") in
  if existsb (fun pattern => includes pattern errorMessage)
       unrecoverablePatterns
  then false
  else if existsb (fun pattern => includes pattern errorMessage)
            recoverablePatterns
  then true
  else true.

Record ErrorRecoveryOptions (N : Type) : Type := mkErrorRecoveryOptions {
  maxGlobalRetries : option Z;
  onError : option (JsError -> string -> M N unit);
  onRecovery : option (string -> M N unit);
  continueOnError : option bool
}.
Arguments mkErrorRecoveryOptions {N} _ _ _ _.
Arguments maxGlobalRetries {N} _.
Arguments onError {N} _.
Arguments onRecovery {N} _.
Arguments continueOnError {N} _.

Section RecoveryLoop.
Context {N T : Type}.
Variable operation : M N T.
Variable context : string.
Variable opt_maxGlobalRetries : Z.
Variable opt_onError : JsError -> string -> M N unit.
Variable opt_onRecovery : string -> M N unit.
Variable opt_continueOnError : bool.

(** The [for] loop of [withErrorRecovery] and what follows it; the
    result [None] is [null], and [fuel] bounds the iterations still
    possible.  [1000 * Math.pow(2, attempt)] is exact in binary64 while
    it matters: from attempt 5 on the pause is the cap of 30000. *)
Fixpoint recovery_attempts (fuel : nat) (attempt : Z) (lastError : JsError)
  : M N (option T) :=
  let after_loop :=
    if opt_continueOnError then ret None else throw lastError in
  if attempt <=? opt_maxGlobalRetries then
    match fuel with
    | O => after_loop
    | S fuel' =>
        try_catch (v <- operation ;; ret (Some v))
          (fun error =>
             opt_onError error context ;;;
             if negb (isRecoverableError error) then
               if opt_continueOnError then ret None else throw error
             else
               (if attempt <? opt_maxGlobalRetries then
                  opt_onRecovery context ;;;
                  sleep (Z.min (1000 * 2 ^ attempt) 30000)
                else ret tt) ;;;
               recovery_attempts fuel' (attempt + 1) error)
    end
  else after_loop.
End RecoveryLoop.

(** The default [onError] prints [error.message]; the default
    [onRecovery] prints the context. *)
Definition withErrorRecovery {N T} (operation : M N T) (context : string)
    (options : ErrorRecoveryOptions N) : M N (option T) :=
  let opt_maxGlobalRetries := default 3 (maxGlobalRetries options) in
  recovery_attempts operation context opt_maxGlobalRetries
    (default (fun error _ => read_message error ;;; ret tt)
       (onError options))
    (default (fun _ => ret tt) (onRecovery options))
    (default true (continueOnError options))
    (Z.to_nat opt_maxGlobalRetries) 1 undefined.

(** The pauses of [withErrorRecovery] after attempts [a], [a+1], ... *)
Fixpoint recovery_delays (a : Z) (k : nat) : list Z :=
  match k with
  | O => []
  | S k' => Z.min (1000 * 2 ^ a) 30000 :: recovery_delays (a + 1) k'
  end.

(** An error the [onError] in force can report: the default one reads
    [error.message], which [undefined] does not have. *)
Definition printable {N} (options : ErrorRecoveryOptions N) (e : JsError)
  : Prop :=
  onError options = None -> nullish e = false.

(** Options whose callbacks, if any, only print what they are given. *)
Definition quiet_recovery {N} (options : ErrorRecoveryOptions N) : Prop :=
  (forall cb, onError options = Some cb ->
     forall e c w, cb e c w = (Return tt, w))
  /\ (forall cb, onRecovery options = Some cb ->
       forall c w, cb c w = (Return tt, w)).

End Recovery.
Export Recovery.

(** ** More observations on strings and on the log *)

Module Traces.

(** [c] occurs in [s]. *)
Fixpoint occurs (c : ascii) (s : string) : bool :=
  match s with
  | EmptyString => false
  | String x s' => Ascii.eqb c x || occurs c s'
  end.

(** Strings made of decimal digits and the minus sign, as the decimal
    rendering of an integer is. *)
Fixpoint numeric (s : string) : bool :=
  match s with
  | EmptyString => true
  | String c s' => occurs c "0123456789-" && numeric s'
  end.

(** One storage read of [address] at [slot] that did not show a
    non-zero word: it answered zero or was rejected. *)
Definition blank_read (address slot : Z) (ev : Event) : Prop :=
  exists rep,
    ev = EvRpc (GetStorageAt address slot) rep
    /\ forall word, rep = RWord word -> word = 0.

(** The events of the direct probe of one candidate [slot], and what the
    probe answers: [true] when it has funded the holder.  The key is
    hash(holder || slot).  The probe reads the original word at the key,
    writes the amount there, pauses for a second and reads [balanceOf];
    a balance below the amount makes it write the original word back.
    Any step that is rejected ends the probe of this candidate, with
    nothing written back. *)
Inductive probe_trace {N} (env : Env N) (token holder amount : Z)
  : bool -> Z -> list Event -> Prop :=
| probe_unread slot rep :
    (forall word, rep <> RWord word) ->
    probe_trace env token holder amount false slot
      [EvRpc (GetStorageAt token (mapping_key env holder slot)) rep]
| probe_unencodable slot original :
    ~ (0 <= amount < 2 ^ 256) ->
    probe_trace env token holder amount false slot
      [EvRpc (GetStorageAt token (mapping_key env holder slot))
         (RWord original)]
| probe_unwritten slot original e :
    0 <= amount < 2 ^ 256 ->
    probe_trace env token holder amount false slot
      [EvRpc (GetStorageAt token (mapping_key env holder slot))
         (RWord original);
       EvRpc (SetStorageAt token (mapping_key env holder slot) amount)
         (RFail e)]
| probe_unverified slot original written rep :
    0 <= amount < 2 ^ 256 ->
    (forall e, written <> RFail e) ->
    (forall balance, rep <> RWord balance) ->
    probe_trace env token holder amount false slot
      [EvRpc (GetStorageAt token (mapping_key env holder slot))
         (RWord original);
       EvRpc (SetStorageAt token (mapping_key env holder slot) amount)
         written;
       EvSleep 1000;
       EvRpc (BalanceOf token holder) rep]
| probe_restored slot original written balance restored :
    0 <= amount < 2 ^ 256 ->
    (forall e, written <> RFail e) ->
    balance < amount ->
    probe_trace env token holder amount false slot
      [EvRpc (GetStorageAt token (mapping_key env holder slot))
         (RWord original);
       EvRpc (SetStorageAt token (mapping_key env holder slot) amount)
         written;
       EvSleep 1000;
       EvRpc (BalanceOf token holder) (RWord balance);
       EvRpc (SetStorageAt token (mapping_key env holder slot) original)
         restored]
| probe_matched slot original written balance :
    0 <= amount < 2 ^ 256 ->
    (forall e, written <> RFail e) ->
    amount <= balance ->
    probe_trace env token holder amount true slot
      [EvRpc (GetStorageAt token (mapping_key env holder slot))
         (RWord original);
       EvRpc (SetStorageAt token (mapping_key env holder slot) amount)
         written;
       EvSleep 1000;
       EvRpc (BalanceOf token holder) (RWord balance)].

(** An event that is not a request selected by [p]. *)
Definition avoids (p : Rpc -> bool) (ev : Event) : Prop :=
  match request_of ev with
  | Some r => p r = false
  | None => True
  end.

(** A computation that sends at most [n] requests selected by [p]. *)
Definition sends_at_most {N A} (p : Rpc -> bool) (n : nat) (m : M N A)
  : Prop :=
  forall w, exists l,
    log (snd (m w)) = (log w ++ l)%list
    /\ (length (List.filter p (requests l)) <= n)%nat.

(** The events of [simulateTransaction] once the balances are set
    up: pauses, balance reads, the code check, the submission with its
    receipt wait, and the replay of a reverted call. *)
Definition execution_event (ev : Event) : Prop :=
  match request_of ev with
  | Some r =>
      match r with
      | GetBalance _ | BalanceOf _ _ | GetBytecode _
      | SendTransaction _ _ _ _ _ | WaitForTransactionReceipt _
      | Call _ _ _ _ _ => True
      | _ => False
      end
  | None => True
  end.

(** The events of [forkToBlock]. *)
Definition fork_event (ev : Event) : Prop :=
  match request_of ev with
  | Some r =>
      match r with
      | Reset _ | GetBlockNumber => True
      | _ => False
      end
  | None => True
  end.

(** In [l] the swap transaction ([sendTransaction]) is not submitted
    at all, or only after the event [gate], and then no approval is
    sent after [gate]. *)
Definition gated (gate : Event) (l : list Event) : Prop :=
  submissions_sent l = []
  \/ exists l1 l2,
       l = (l1 ++ gate :: l2)%list
       /\ submissions_sent l1 = [] /\ approvals l2 = [].

(** A node whose rejections are error objects, never [undefined]. *)
Definition rejects_with_objects {N} (c : Client N) : Prop :=
  forall r n e n', handle c r n = (RFail e, n') -> nullish e = false.

(** A computation that throws error objects only. *)
Definition throws_objects {N A} (m : M N A) : Prop :=
  forall w e w', m w = (Throw e, w') -> nullish e = false.

(** What each status of a simulation result comes with. *)
Definition result_shape (r : SimulationResult) : Prop :=
  match status r with
  | success => sim_error r = None /\ exists used, gasUsed r = Some used
  | reverted =>
      amountOut r = 0
      /\ sim_error r = Some "Transaction reverted"
      /\ exists used, gasUsed r = Some used
  | error =>
      amountOut r = 0
      /\ (exists msg, sim_error r = Some msg)
      /\ gasUsed r = None
  | skipped => False
  end.

End Traces.
Export Traces.

(** ** More samples *)

Module MoreSamples.

Definition always_failing : World (list (Res Z)) :=
  mkWorld [Throw (Error "socket timeout"); Throw (Error "network down");
           Throw (Error "Boom: invalid opcode"); Return 42] ∅ [].

Definition capped : RetryOptions (list (Res Z)) :=
  mkRetryOptions (Some 5) (Some 50000) (Some 30000) (Some 2) None None.

(** A node that is not used, for operations that do not touch it. *)
Definition blank : World unit := mkWorld tt ∅ [].

Definition doubling (x : Z) : M unit Z := ret (2 * x).

Definition default_batches : BatchOptions := mkBatchOptions None None None.
Definition stuck_batches : BatchOptions := mkBatchOptions (Some 0) None None.

Definition fails_third : World (list (Res Z)) :=
  mkWorld [Return 10; Return 20; Throw Samples.boom; Return 40] ∅ [].

(** A node on which a fork reset never answers in time. *)
Definition stalled : Client nat :=
  mkClient (fun _ n => (RUnit, S n)) (fun r _ _ => negb (is_reset r)).

(** A node whose fork reset is rejected, and whose block number is 7
    whatever block is asked for. *)
Definition desynced : Client nat :=
  mkClient
    (fun r n =>
       match r with
       | Reset _ => (RFail (Error "Block requested not found"), S n)
       | GetBlockNumber => (RWord 7, n)
       | _ => (RUnit, n)
       end)
    (fun _ _ _ => true).

(** A node that accepts every reset and stays at block 7. *)
Definition lagging : Client nat :=
  mkClient
    (fun r n =>
       match r with
       | GetBlockNumber => (RWord 7, n)
       | _ => (RUnit, S n)
       end)
    (fun _ _ _ => true).

(** A node on which no transaction is answered in time. *)
Definition congested : Client nat :=
  mkClient (fun _ n => (RWord 1, S n)) (fun r _ _ => negb (is_submission r)).

Definition env_of (c : Client nat) : Env nat :=
  mkEnv c Anvil.sample_keccak256 Samples.account Samples.no_prices
    (fun _ => None).

Definition idle : World nat := mkWorld O ∅ [].

(** [tokenA] rejects [balanceOf] with [undefined]. *)
Definition void_env : Env Anvil.Fork :=
  Anvil.sample_env (Anvil.quiet_chain (fun _ _ _ => RFail undefined))
    Samples.no_prices.

(** The market of the samples, with no code at any address. *)
Definition codeless_market : Env Anvil.Fork :=
  mkEnv
    (Anvil.anvil
       (Anvil.mkChain Samples.standard_code (fun _ => false)
          [Samples.accepted] Samples.mined))
    Anvil.sample_keccak256 Samples.account Samples.prices Samples.decimals.

(** A quote the aggregator answered with an error status. *)
Definition failed_quote : Quote :=
  mkQuote 500 (Some 100) (Some Samples.swap) (Some 1000).

End MoreSamples.

(** * Theorems *)

Local Open Scope async_scope.

(** * Facts about the retry loop *)

Section AttemptsFacts.
Context {N T : Type}.
Variable fn : M N T.
Variables max maxd mult : Z.
Variable sr : JsError -> bool.
Variable cb : option (Z -> JsError -> M N unit).
Hypothesis cb_silent : forall f, cb = Some f -> silent f.

Lemma attempts_return fuel a d le w v w1 :
  a <= max -> fn w = (Return v, w1) ->
  attempts fn max maxd mult sr cb (S fuel) a d le w = (Return v, w1).
Proof.
  intros Ha Hfn. cbn [attempts].
  destruct (Z.leb_spec a max); [|lia].
  unfold try_catch. now rewrite Hfn.
Qed.

Lemma attempts_give_up fuel a d le w e w1 :
  a <= max -> fn w = (Throw e, w1) ->
  (a =? max) || negb (sr e) = true ->
  attempts fn max maxd mult sr cb (S fuel) a d le w = (Throw e, w1).
Proof.
  intros Ha Hfn Hstop. cbn [attempts].
  destruct (Z.leb_spec a max); [|lia].
  unfold try_catch. rewrite Hfn, Hstop. reflexivity.
Qed.

Lemma attempts_again fuel a d le w e w1 :
  a < max -> fn w = (Throw e, w1) -> sr e = true ->
  attempts fn max maxd mult sr cb (S fuel) a d le w
  = attempts fn max maxd mult sr cb fuel (a + 1) (Z.min (d * mult) maxd) e
      (after_sleep d w1).
Proof using cb_silent.
  intros Ha Hfn Hsr. cbn [attempts].
  destruct (Z.leb_spec a max); [|lia].
  unfold try_catch. rewrite Hfn, Hsr.
  destruct (Z.eqb_spec a max); [lia|]. cbn [orb negb].
  unfold bind at 1.
  assert (Hcb : match cb with
                | Some f => f a e
                | None => ret tt
                end w1 = (Return tt, w1)).
  { destruct cb as [f|] eqn:E; [now apply cb_silent | reflexivity]. }
  rewrite Hcb. reflexivity.
Qed.
End AttemptsFacts.

Section ScriptFacts.
Context {T : Type}.
Implicit Types (w : World (list (Res T))).

Lemma scripted_cons w outcome rest :
  node w = outcome :: rest ->
  scripted w = (outcome, mkWorld rest (cache w) (log w)).
Proof. intros H. unfold scripted. now rewrite H. Qed.

Lemma invocations_prefix w (pre : list (Res T)) rest c l :
  node w = (pre ++ rest)%list ->
  invocations w (mkWorld rest c l) = length pre.
Proof.
  intros H. unfold invocations. simpl. rewrite H, length_app. lia.
Qed.
End ScriptFacts.

(** C9: under [retryWithBackoff] with [maxAttempts = 3], an operation
    that fails twice with errors the classifier accepts and then
    succeeds is invoked exactly three times and its value is returned,
    after the two backoff pauses; an operation whose first error the
    classifier refuses is invoked exactly once and the error is
    rethrown with no pause. *)
Theorem retryWithBackoff_three_attempts :
  forall (T : Type) (options : RetryOptions (list (Res T)))
         (w : World (list (Res T))),
    maxAttempts options = Some 3 ->
    (forall cb, onRetry options = Some cb -> silent cb) ->
    (forall e1 e2 v rest,
        node w = Throw e1 :: Throw e2 :: Return v :: rest ->
        effective_shouldRetry options e1 = true ->
        effective_shouldRetry options e2 = true ->
        let w' := mkWorld rest (cache w)
                    (log w ++ [EvSleep (effective_initialDelay options);
                               EvSleep (effective_secondDelay options)]) in
        retryWithBackoff scripted options w = (Return v, w')
        /\ invocations w w' = 3%nat)
    /\ (forall e rest,
           node w = Throw e :: rest ->
           effective_shouldRetry options e = false ->
           let w' := mkWorld rest (cache w) (log w) in
           retryWithBackoff scripted options w = (Throw e, w')
           /\ invocations w w' = 1%nat).
Proof.
  intros T options w Hmax Hcb. split.
  - intros e1 e2 v rest Hnode R1 R2 w'. split.
    + unfold retryWithBackoff. rewrite Hmax. cbv zeta.
      change (default DEFAULT_maxAttempts (Some 3)) with 3.
      change (Z.to_nat 3) with 3%nat.
      erewrite attempts_again;
        [ | exact Hcb | lia | apply scripted_cons, Hnode | exact R1 ].
      erewrite attempts_again;
        [ | exact Hcb | lia | apply scripted_cons; reflexivity | exact R2 ].
      erewrite attempts_return;
        [ | lia | apply scripted_cons; reflexivity ].
      unfold w', after_sleep, effective_initialDelay, effective_secondDelay.
      cbn [node cache log]. now rewrite <- app_assoc.
    + apply (invocations_prefix w [Throw e1; Throw e2; Return v]), Hnode.
  - intros e rest Hnode R w'. split.
    + unfold retryWithBackoff. rewrite Hmax. cbv zeta.
      change (default DEFAULT_maxAttempts (Some 3)) with 3.
      change (Z.to_nat 3) with 3%nat.
      erewrite attempts_give_up;
        [ reflexivity | lia | apply scripted_cons, Hnode | ].
      unfold effective_shouldRetry in R. rewrite R. apply orb_true_r.
    + apply (invocations_prefix w [Throw e]), Hnode.
Qed.

Lemma retryWithBackoff_three_attempts_witness :
  (retryWithBackoff scripted Samples.three_attempts Samples.flaky_twice
   = (Return 42, mkWorld [] ∅ [EvSleep 1000; EvSleep 2000])
   /\ invocations Samples.flaky_twice (mkWorld [] ∅ [EvSleep 1000; EvSleep 2000]) = 3%nat).
Proof.
  refine (proj1 (retryWithBackoff_three_attempts Z Samples.three_attempts
            Samples.flaky_twice eq_refl _) _ _ 42 [] eq_refl eq_refl eq_refl).
  intros cb H. discriminate H.
Defined.

(** C10: an error whose lower-cased message and details contain none
    of the recognized patterns is refused by the default classifier, so
    [retryWithBackoff] with default options invokes the operation once
    and rethrows that error, with no pause. *)
Theorem unrecognized_error_is_not_retried :
  forall e : JsError,
    (forall pat, In pat recognized_patterns ->
        includes pat (toLowerCase (or_else (message e) "")) = false
        /\ includes pat (toLowerCase (or_else (details e) "")) = false) ->
    defaultShouldRetry e = false
    /\ forall (T : Type) (rest : list (Res T)) (w : World (list (Res T))),
         node w = Throw e :: rest ->
         let w' := mkWorld rest (cache w) (log w) in
         retryWithBackoff scripted no_options w = (Throw e, w')
         /\ invocations w w' = 1%nat.
Proof.
  intros e Hnone.
  assert (Hdefault : defaultShouldRetry e = false).
  { unfold defaultShouldRetry.
    destruct (Hnone "timeout") as [-> ->]; [cbn; tauto|].
    destruct (Hnone "econnrefused") as [-> _]; [cbn; tauto|].
    destruct (Hnone "econnreset") as [-> _]; [cbn; tauto|].
    destruct (Hnone "rate limit") as [-> _]; [cbn; tauto|].
    destruct (Hnone "too many requests") as [-> _]; [cbn; tauto|].
    destruct (Hnone "network") as [-> _]; [cbn; tauto|].
    destruct (Hnone "fetch failed") as [-> _]; [cbn; tauto|].
    destruct (Hnone "block requested not found") as [-> ->]; [cbn; tauto|].
    destruct (Hnone "revert") as [-> _]; [cbn; tauto|].
    reflexivity. }
  split; [exact Hdefault|].
  intros T rest w Hnode w'. split.
  - unfold retryWithBackoff, no_options. cbv zeta.
    cbn [maxAttempts initialDelay maxDelay backoffMultiplier shouldRetry
         onRetry].
    change (default DEFAULT_maxAttempts None) with 3.
    change (default defaultShouldRetry None) with defaultShouldRetry.
    change (Z.to_nat 3) with 3%nat.
    erewrite attempts_give_up;
      [ reflexivity | lia
      | apply scripted_cons, Hnode | ].
    rewrite Hdefault. apply orb_true_r.
  - apply (invocations_prefix w [Throw e]), Hnode.
Qed.

Lemma unrecognized_error_is_not_retried_witness :
  defaultShouldRetry Samples.boom = false
  /\ retryWithBackoff scripted no_options Samples.failing_once
     = (Throw Samples.boom, mkWorld [Return 42] ∅ [])
  /\ invocations Samples.failing_once (mkWorld [Return 42] ∅ []) = 1%nat.
Proof.
  assert (H : forall pat, In pat recognized_patterns ->
            includes pat (toLowerCase (or_else (message Samples.boom) "")) = false
            /\ includes pat (toLowerCase (or_else (details Samples.boom) "")) = false).
  { intros pat Hin. cbn in Hin.
    repeat (destruct Hin as [<- | Hin]; [vm_compute; split; reflexivity|]).
    destruct Hin. }
  destruct (unrecognized_error_is_not_retried Samples.boom H) as [H1 H2].
  split; [exact H1|].
  exact (H2 Z [Return 42] Samples.failing_once eq_refl).
Defined.

(** * Computations that never throw *)

Lemma returns_ret {N A} (a : A) : returns (@ret N A a).
Proof. intros w. now exists a, w. Qed.

Lemma returns_bind {N A B} (m : M N A) (k : A -> M N B) :
  returns m -> (forall a, returns (k a)) -> returns (bind m k).
Proof.
  intros Hm Hk w. destruct (Hm w) as (a & w1 & E).
  destruct (Hk a w1) as (b & w2 & E2).
  exists b, w2. unfold bind. now rewrite E.
Qed.

Lemma returns_try_catch {N A} (m : M N A) (h : JsError -> M N A) :
  (forall e, returns (h e)) -> returns (try_catch m h).
Proof.
  intros Hh w. unfold try_catch.
  destruct (m w) as [[a|e] w1].
  - now exists a, w1.
  - apply Hh.
Qed.

Lemma returns_guarded {N A} (m : M N A) (a : A) :
  returns (try_catch m (fun _ => ret a)).
Proof. apply returns_try_catch. intros _. apply returns_ret. Qed.

Lemma returns_first_method {N} (methods : list (M N bool)) :
  Forall returns methods -> returns (first_method methods).
Proof.
  induction 1 as [|m rest Hm _ IH]; cbn [first_method].
  - apply returns_ret.
  - apply returns_bind; [exact Hm|].
    intros [|]; [apply returns_ret | exact IH].
Qed.

Lemma detectProxy_search_returns {N} (env : Env N) address slots :
  returns (detectProxy_search env address slots).
Proof.
  induction slots as [|slot rest IH]; cbn [detectProxy_search].
  - apply returns_ret.
  - apply returns_bind; [apply returns_guarded|].
    intros [impl|]; [apply returns_ret | exact IH].
Qed.

Lemma setERC20Balance_returns {N} (env : Env N) token holder amount :
  returns (setERC20Balance env token holder amount).
Proof.
  unfold setERC20Balance. apply returns_bind.
  - apply detectProxy_search_returns.
  - intros impl. apply returns_first_method.
    repeat constructor; try apply returns_guarded.
    destruct impl; [apply returns_guarded | apply returns_ret].
Qed.

Lemma nullish_TypeError : nullish TypeError_message = false.
Proof. reflexivity. Qed.

Lemma read_message_object {N} (e : JsError) (w : World N) :
  nullish e = false -> read_message e w = (Return (message e), w).
Proof. intros H. unfold read_message. now rewrite H. Qed.

Lemma read_message_nullish {N} (e : JsError) (w : World N) :
  nullish e = true -> read_message e w = (Throw TypeError_message, w).
Proof. intros H. unfold read_message. now rewrite H. Qed.

(** [simulateTransaction] returns a result, unless its catch-all meets
    a thrown [undefined] and throws the [TypeError] of the read. *)
Lemma simulateTransaction_outcome {N} (env : Env N) tokenIn tokenOut amountIn
    swapData (w : World N) :
  exists w',
    (exists r, simulateTransaction env tokenIn tokenOut amountIn swapData w
               = (Return r, w'))
    \/ simulateTransaction env tokenIn tokenOut amountIn swapData w
       = (Throw TypeError_message, w').
Proof.
  unfold simulateTransaction, try_catch.
  match goal with
  | |- context [match ?body w with _ => _ end] =>
      destruct (body w) as [[r|e] w1]
  end.
  - exists w1. left. now exists r.
  - exists w1. unfold bind, read_message.
    destruct (nullish e); [now right | left; eexists; reflexivity].
Qed.

(** * What a computation adds to the log *)

Section Emits.
Context {N : Type} (P : Event -> Prop).

Lemma emits_ret {A} (a : A) : emits P (@ret N A a).
Proof. intros w. exists []. cbn. now rewrite app_nil_r. Qed.

Lemma emits_throw {A} e : emits P (@throw N A e).
Proof. intros w. exists []. cbn. now rewrite app_nil_r. Qed.

Lemma emits_bind {A B} (m : M N A) (k : A -> M N B) :
  emits P m -> (forall a, emits P (k a)) -> emits P (bind m k).
Proof.
  intros Hm Hk w. destruct (Hm w) as (l1 & E1 & F1).
  unfold bind. destruct (m w) as [[a|e] w1]; cbn [snd] in *.
  - destruct (Hk a w1) as (l2 & E2 & F2).
    exists (l1 ++ l2)%list. rewrite E2, E1, app_assoc.
    split; [reflexivity | now apply Forall_app].
  - now exists l1.
Qed.

Lemma emits_try_catch {A} (m : M N A) (h : JsError -> M N A) :
  emits P m -> (forall e, emits P (h e)) -> emits P (try_catch m h).
Proof.
  intros Hm Hh w. destruct (Hm w) as (l1 & E1 & F1).
  unfold try_catch. destruct (m w) as [[a|e] w1]; cbn [snd] in *.
  - now exists l1.
  - destruct (Hh e w1) as (l2 & E2 & F2).
    exists (l1 ++ l2)%list. rewrite E2, E1, app_assoc.
    split; [reflexivity | now apply Forall_app].
Qed.

Lemma emits_sleep ms : P (EvSleep ms) -> emits P (@sleep N ms).
Proof. intros H w. exists [EvSleep ms]. cbn. auto. Qed.

Lemma emits_get_cache token : emits P (@get_cache N token).
Proof. intros w. exists []. cbn. now rewrite app_nil_r. Qed.

Lemma emits_set_cache token slot : emits P (@set_cache N token slot).
Proof. intros w. exists []. cbn. now rewrite app_nil_r. Qed.

Lemma emits_request (c : Client N) r :
  (forall rep, P (EvRpc r rep)) -> emits P (request c r).
Proof.
  intros H w. unfold request.
  destruct (handle c r (node w)) as [rep n1].
  exists [EvRpc r rep]. cbn. auto.
Qed.

Lemma emits_raced (c : Client N) r deadline msg :
  (forall rep, P (EvRpc r rep)) -> P (EvLate r deadline) ->
  emits P (raced c r deadline msg).
Proof.
  intros H HL w. unfold raced.
  destruct (in_time c r (node w) deadline).
  - now apply emits_request.
  - destruct (handle c r (node w)) as [rep n1].
    exists [EvLate r deadline]. cbn. auto.
Qed.

Lemma emits_read_message e : emits P (@read_message N e).
Proof.
  intros w. exists []. unfold read_message.
  destruct (nullish e); cbn; now rewrite app_nil_r.
Qed.

Lemma emits_as_unit rep : emits P (@as_unit N rep).
Proof. destruct rep; first [apply emits_ret | apply emits_throw]. Qed.

Lemma emits_as_word rep : emits P (@as_word N rep).
Proof. destruct rep; first [apply emits_ret | apply emits_throw]. Qed.

Lemma emits_as_receipt rep : emits P (@as_receipt N rep).
Proof. destruct rep; first [apply emits_ret | apply emits_throw]. Qed.

Lemma emits_as_code rep : emits P (@as_code N rep).
Proof. destruct rep; first [apply emits_ret | apply emits_throw]. Qed.

Lemma emits_encode_uint256 v : emits P (@encode_uint256 N v).
Proof.
  unfold encode_uint256.
  destruct ((0 <=? v) && (v <? 2 ^ 256));
    first [apply emits_ret | apply emits_throw].
Qed.

Lemma emits_toHex v : emits P (@toHex N v).
Proof.
  unfold toHex. destruct (0 <=? v);
    first [apply emits_ret | apply emits_throw].
Qed.

Lemma emits_first_success (body : Z -> M N bool) l :
  (forall x, emits P (body x)) -> emits P (first_success body l).
Proof.
  intros Hb. induction l as [|x rest IH]; cbn [first_success].
  - apply emits_ret.
  - apply emits_bind; [apply Hb|].
    intros [|]; [apply emits_ret | exact IH].
Qed.

Lemma emits_first_method (methods : list (M N bool)) :
  Forall (emits P) methods -> emits P (first_method methods).
Proof.
  induction 1 as [|m rest Hm _ IH]; cbn [first_method].
  - apply emits_ret.
  - apply emits_bind; [exact Hm|].
    intros [|]; [apply emits_ret | exact IH].
Qed.

Lemma emits_attempts {T} (fn : M N T) max maxd mult sr cb :
  emits P fn ->
  (forall f a e, cb = Some f -> emits P (f a e)) ->
  (forall ms, P (EvSleep ms)) ->
  forall fuel a d le, emits P (attempts fn max maxd mult sr cb fuel a d le).
Proof.
  intros Hfn Hcb Hsl. induction fuel as [|fuel IH]; intros a d le;
    cbn [attempts]; destruct (a <=? max); try apply emits_throw.
  apply emits_try_catch; [exact Hfn|].
  intros e. destruct ((a =? max) || negb (sr e)); [apply emits_throw|].
  apply emits_bind.
  - destruct cb as [f|] eqn:E; [now apply Hcb | apply emits_ret].
  - intros _. apply emits_bind; [now apply emits_sleep|].
    intros _. apply IH.
Qed.

Lemma emits_retryWithBackoff {T} (fn : M N T) options :
  emits P fn ->
  (forall f a e, onRetry options = Some f -> emits P (f a e)) ->
  (forall ms, P (EvSleep ms)) ->
  emits P (retryWithBackoff fn options).
Proof. intros. unfold retryWithBackoff. now apply emits_attempts. Qed.
End Emits.

Lemma emits_log {N A} (P : Event -> Prop) (m : M N A) w r w' :
  emits P m -> m w = (r, w') ->
  exists l, log w' = (log w ++ l)%list /\ Forall P l.
Proof. intros H E. specialize (H w). now rewrite E in H. Qed.

Ltac emits_step :=
  lazymatch goal with
  | |- emits _ (bind _ _) => apply emits_bind
  | |- emits _ (try_catch _ _) => apply emits_try_catch
  | |- emits _ (ret _) => apply emits_ret
  | |- emits _ (throw _) => apply emits_throw
  | |- emits _ (sleep _) => apply emits_sleep
  | |- emits _ (set_cache _ _) => apply emits_set_cache
  | |- emits _ (get_cache _) => apply emits_get_cache
  | |- emits _ (request _ _) => apply emits_request
  | |- emits _ (send _ _) => apply emits_request
  | |- emits _ (raced _ _ _ _) => apply emits_raced
  | |- emits _ (read_message _) => apply emits_read_message
  | |- emits _ (as_unit _) => apply emits_as_unit
  | |- emits _ (as_word _) => apply emits_as_word
  | |- emits _ (as_receipt _) => apply emits_as_receipt
  | |- emits _ (as_code _) => apply emits_as_code
  | |- emits _ (encode_uint256 _) => apply emits_encode_uint256
  | |- emits _ (toHex _) => apply emits_toHex
  | |- emits _ (first_success _ _) => apply emits_first_success
  | |- emits _ (if ?b then _ else _) => destruct b
  | |- emits _ (match ?x with _ => _ end) => destruct x
  | |- forall _, _ => intro
  end.

(** * The injection sends no approval and no swap *)

Ltac quiet_event :=
  lazymatch goal with
  | |- no_transaction_event _ => cbn; auto
  | |- submission_event _ => exact I
  end.

Section Quiet.
Context {N : Type} (env : Env N).
Variables token holder amount : Z.

Ltac quiet := repeat first [emits_step | quiet_event].

Lemma findBalanceSlot_quiet :
  emits no_transaction_event (findBalanceSlot env token holder).
Proof.
  unfold findBalanceSlot. apply emits_bind; [apply emits_get_cache|].
  intros [slot|]; [apply emits_ret|].
  induction COMMON_SLOTS_FOR_BALANCE_SET as [|slot rest IH];
    cbn [findBalanceSlot_search]; [apply emits_ret|].
  apply emits_bind.
  - unfold findBalanceSlot_probe, setStorageAt, readBalanceOf. quiet.
  - intros [s|]; [apply emits_ret | exact IH].
Qed.

Lemma detectProxyImplementation_quiet :
  emits no_transaction_event (detectProxyImplementation env token).
Proof.
  unfold detectProxyImplementation.
  induction PROXY_SLOTS as [|slot rest IH];
    cbn [detectProxy_search]; [apply emits_ret|].
  apply emits_bind.
  - unfold getStorageAt. quiet.
  - intros [s|]; [apply emits_ret | exact IH].
Qed.

Lemma setERC20Balance_quiet :
  emits no_transaction_event (setERC20Balance env token holder amount).
Proof.
  unfold setERC20Balance.
  apply emits_bind; [apply detectProxyImplementation_quiet|].
  intros impl. apply emits_first_method.
  repeat constructor.
  - unfold method1, direct_probe, setStorageAt, getStorageAt, readBalanceOf.
    quiet.
  - unfold method2, balance_reached, readBalanceOf. quiet.
  - unfold method3, readBalanceOf. quiet.
  - unfold method4, balance_reached, setStorageAt, readBalanceOf. quiet.
  - unfold method5. apply emits_try_catch; [|quiet].
    apply emits_bind; [apply findBalanceSlot_quiet|].
    unfold setStorageAt, getStorageAt, readBalanceOf. quiet.
  - unfold method6, supply_probe, setStorageAt, readBalanceOf. quiet.
  - unfold method7, reverse_probe, setStorageAt, getStorageAt, readBalanceOf.
    quiet.
Qed.
End Quiet.

(** * Gas accounting *)

Lemma calculateNetAmount_max (amountOut gasCost : Z) :
  calculateNetAmount amountOut gasCost = Z.max 0 (amountOut - gasCost).
Proof.
  unfold calculateNetAmount. cbv zeta.
  destruct (Z.ltb_spec (amountOut - gasCost) 0); lia.
Qed.

(** C6, as stated: at the example of the specification the code does
    not return a gas cost of 375000 and a net amount of 99125000; the
    binary64 product is 374999.99999999994, whose floor is 374999,
    while the formula over the rationals gives 375000. *)
Lemma gas_example_is_not_375000 :
  exact_gasCostInOutputToken 150000 2500 1 6 = 375000
  /\ ~ (calculateGasCostInTokenOut 150000 (Some (Number 2500)) 6 = 375000
        /\ calculateNetAmount 99500000
             (calculateGasCostInTokenOut 150000 (Some (Number 2500)) 6)
           = 99125000).
Proof.
  split; [vm_compute; reflexivity|].
  intros [H _]. vm_compute in H. discriminate H.
Qed.

(** C6, amended: for a known, non-zero price and up to 22 decimals the
    gas cost is the floor of the formula evaluated in binary64
    arithmetic in the order it is written, and 0 when that value is not
    finite; it is 0 when no price is known; the net amount is
    [max 0 (amountOut - gasCost)]; at the example the gas cost is 374999
    and the net amount 99125001. *)
Theorem gas_cost_in_binary64 :
  forall (gasUsed : Z) (price : float) (decimals : Z),
    falsy price = false ->
    0 <= decimals <= 22 ->
    calculateGasCostInTokenOut gasUsed (Some price) decimals
    = default 0 (spec_gasCostInOutputToken gasUsed price decimals)
    /\ calculateGasCostInTokenOut gasUsed None decimals = 0
    /\ (forall amountOut gasCost,
           calculateNetAmount amountOut gasCost
           = Z.max 0 (amountOut - gasCost))
    /\ calculateGasCostInTokenOut 150000 (Some (Number 2500)) 6 = 374999
    /\ calculateNetAmount 99500000 374999 = 99125001.
Proof.
  intros gasUsed price decimals Hprice _.
  split; [|split; [|split; [|split]]].
  - unfold calculateGasCostInTokenOut, spec_gasCostInOutputToken. cbv zeta.
    rewrite Hprice.
    change (gasUsed * gasPrice) with (gasUsed * assumedGasPrice).
    unfold pow10.
    destruct (BigInt_floor _); reflexivity.
  - reflexivity.
  - intros amountOut gasCost. apply calculateNetAmount_max.
  - vm_compute. reflexivity.
  - vm_compute. reflexivity.
Qed.

Lemma gas_cost_in_binary64_witness :
  calculateGasCostInTokenOut 21000 (Some (Number 3)) 18
  = default 0 (spec_gasCostInOutputToken 21000 (Number 3) 18)
  /\ calculateGasCostInTokenOut 21000 None 18 = 0
  /\ (forall amountOut gasCost,
         calculateNetAmount amountOut gasCost = Z.max 0 (amountOut - gasCost))
  /\ calculateGasCostInTokenOut 150000 (Some (Number 2500)) 6 = 374999
  /\ calculateNetAmount 99500000 374999 = 99125001.
Proof.
  apply (gas_cost_in_binary64 21000 (Number 3) 18).
  - vm_compute. reflexivity.
  - lia.
Defined.

(** * Observations distribute over the log *)

Lemma requests_app (l1 l2 : list Event) :
  requests (l1 ++ l2) = (requests l1 ++ requests l2)%list.
Proof. unfold requests. apply omap_app. Qed.

Lemma approvals_app (l1 l2 : list Event) :
  approvals (l1 ++ l2) = (approvals l1 ++ approvals l2)%list.
Proof. unfold approvals. now rewrite requests_app, List.filter_app. Qed.

Lemma submissions_sent_app (l1 l2 : list Event) :
  submissions_sent (l1 ++ l2)
  = (submissions_sent l1 ++ submissions_sent l2)%list.
Proof. unfold submissions_sent. now rewrite requests_app, List.filter_app. Qed.

Lemma quiet_log (l : list Event) :
  Forall no_transaction_event l ->
  approvals l = [] /\ submissions_sent l = [].
Proof.
  induction 1 as [|ev l Hev _ [IHa IHs]]; [split; reflexivity|].
  change (ev :: l) with ([ev] ++ l)%list.
  rewrite approvals_app, submissions_sent_app, IHa, IHs, !app_nil_r.
  unfold no_transaction_event in Hev.
  unfold approvals, submissions_sent, requests. cbn [omap].
  change (mbind _ (request_of ev :: nil)) with (omap request_of [ev]).
  destruct ev as [ms|r rep|r d]; cbn in *; try (split; reflexivity);
    destruct Hev as [-> ->]; split; reflexivity.
Qed.

(** * Failed injection inside simulateTransaction *)

Section Setup.
Context {N : Type} (env : Env N).
Variables tokenIn tokenOut amountIn : Z.
Variable swapData : SwapTransaction.

Lemma readBalanceOf_run token holder (w : World N) rep n1 :
  handle (client env) (BalanceOf token holder) (node w) = (rep, n1) ->
  readBalanceOf env token holder w
  = as_word rep
      (mkWorld n1 (cache w) (log w ++ [EvRpc (BalanceOf token holder) rep])).
Proof.
  intros H. unfold readBalanceOf, send, request, bind. now rewrite H.
Qed.

Lemma setupBalances_failed (w w1 : World N) rep n1 :
  isNativeToken tokenIn = false ->
  setERC20Balance env tokenIn (TEST_ACCOUNT env) (amountIn * 10) w
  = (Return false, w1) ->
  handle (client env) (BalanceOf tokenIn (TEST_ACCOUNT env)) (node w1)
  = (rep, n1) ->
  let w2 := mkWorld n1 (cache w1)
              (log w1 ++ [EvRpc (BalanceOf tokenIn (TEST_ACCOUNT env)) rep]) in
  setupBalances env tokenIn amountIn swapData w
  = match rep with
    | RWord _ =>
        (Return (Some (mkSimulationResult error 0
                         (Some "Failed to set token balance for simulation")
                         None)), w2)
    | RFail e => (Throw e, w2)
    | _ => (Throw bad_reply, w2)
    end.
Proof.
  intros Hnative Hinj Hrep w2. unfold setupBalances. rewrite Hnative.
  cbv zeta. unfold bind at 1. rewrite Hinj.
  unfold bind at 1. rewrite (readBalanceOf_run _ _ _ _ _ Hrep).
  destruct rep; reflexivity.
Qed.
End Setup.

(** C8, as stated: a token whose [balanceOf] reverts makes every
    strategy fail, yet the recorded error is the revert message, not
    "Failed to set token balance for simulation". *)
Lemma failed_injection_other_message :
  fst (setERC20Balance Samples.broken_env Samples.tokenA Samples.account
         (1000 * 10) Samples.fresh) = Return false
  /\ fst (simulateTransaction Samples.broken_env Samples.tokenA Samples.usdc
            1000 Samples.swap Samples.fresh)
     = Return (mkSimulationResult error 0 (Some "execution reverted") None)
  /\ "execution reverted" <> "Failed to set token balance for simulation".
Proof.
  split; [vm_compute; reflexivity|].
  split; [vm_compute; reflexivity|].
  discriminate.
Qed.

(** C8, amended: the injection never throws; when it returns false for
    an ERC20 input, no approval and no swap transaction is sent, and
    the balance read that follows the injection decides the outcome:
    when it answers, the result has status "error", amount 0 and the
    error "Failed to set token balance for simulation"; when it is
    rejected with an error object, the result has status "error",
    amount 0 and that object's message ("Unknown error" when it has
    none); when it is rejected with [undefined], the catch-all of
    [simulateTransaction] reads [error.message] and itself throws a
    [TypeError], so no result is returned. *)
Theorem failed_injection_reports_error :
  forall (N : Type) (env : Env N) (tokenIn tokenOut amountIn : Z)
         (swapData : SwapTransaction) (w w1 : World N),
    isNativeToken tokenIn = false ->
    setERC20Balance env tokenIn (TEST_ACCOUNT env) (amountIn * 10) w
    = (Return false, w1) ->
    returns (setERC20Balance env tokenIn (TEST_ACCOUNT env) (amountIn * 10))
    /\ exists rep n1,
        handle (client env) (BalanceOf tokenIn (TEST_ACCOUNT env)) (node w1)
        = (rep, n1)
        /\ let w2 :=
             mkWorld n1 (cache w1)
               (log w1 ++ [EvRpc (BalanceOf tokenIn (TEST_ACCOUNT env)) rep])
           in
           simulateTransaction env tokenIn tokenOut amountIn swapData w
           = (match rep with
              | RWord _ =>
                  Return (mkSimulationResult error 0
                            (Some "Failed to set token balance for simulation")
                            None)
              | RFail e =>
                  if nullish e then Throw TypeError_message
                  else Return (mkSimulationResult error 0
                                 (Some (or_else (message e) "Unknown error"))
                                 None)
              | _ =>
                  Return (mkSimulationResult error 0
                            (Some (or_else (message bad_reply)
                                     "Unknown error")) None)
              end, w2)
           /\ approvals (log w2) = approvals (log w)
           /\ submissions_sent (log w2) = submissions_sent (log w).
Proof.
  intros N env tokenIn tokenOut amountIn swapData w w1 Hnative Hinj.
  split; [apply setERC20Balance_returns|].
  destruct (handle (client env) (BalanceOf tokenIn (TEST_ACCOUNT env)) (node w1))
    as [rep n1] eqn:Hrep.
  pose proof (setupBalances_failed env tokenIn amountIn swapData w w1 rep n1
                Hnative Hinj Hrep) as Hsetup.
  cbv zeta in Hsetup.
  destruct (emits_log _ _ _ _ _
              (setERC20Balance_quiet env tokenIn (TEST_ACCOUNT env)
                 (amountIn * 10)) Hinj) as (l & Hlog & Hquiet).
  destruct (quiet_log l Hquiet) as [Ha Hs].
  exists rep, n1. split; [reflexivity|]. cbv zeta. split; [|split].
  - unfold simulateTransaction, try_catch. unfold bind at 1. rewrite Hsetup.
    destruct rep as [| | | |e]; try reflexivity.
    unfold bind, read_message. now destruct (nullish e).
  - cbn [log]. rewrite Hlog, !approvals_app, Ha. cbn. now rewrite !app_nil_r.
  - cbn [log]. rewrite Hlog, !submissions_sent_app, Hs. cbn.
    now rewrite !app_nil_r.
Qed.

Lemma failed_injection_reports_error_witness :
  let injected :=
    snd (setERC20Balance Samples.exotic_env Samples.tokenA
           (TEST_ACCOUNT Samples.exotic_env) (1000 * 10) Samples.fresh) in
  returns (setERC20Balance Samples.exotic_env Samples.tokenA
             (TEST_ACCOUNT Samples.exotic_env) (1000 * 10))
  /\ exists rep n1,
      handle (client Samples.exotic_env)
        (BalanceOf Samples.tokenA (TEST_ACCOUNT Samples.exotic_env))
        (node injected)
      = (rep, n1)
      /\ let w2 :=
           mkWorld n1 (cache injected)
             (log injected
              ++ [EvRpc (BalanceOf Samples.tokenA
                           (TEST_ACCOUNT Samples.exotic_env)) rep])
         in
         simulateTransaction Samples.exotic_env Samples.tokenA Samples.usdc
           1000 Samples.swap Samples.fresh
         = (match rep with
            | RWord _ =>
                Return (mkSimulationResult error 0
                          (Some "Failed to set token balance for simulation")
                          None)
            | RFail e =>
                if nullish e then Throw TypeError_message
                else Return (mkSimulationResult error 0
                               (Some (or_else (message e) "Unknown error"))
                               None)
            | _ =>
                Return (mkSimulationResult error 0
                          (Some (or_else (message bad_reply)
                                   "Unknown error")) None)
            end, w2)
         /\ approvals (log w2) = approvals (log Samples.fresh)
         /\ submissions_sent (log w2) = submissions_sent (log Samples.fresh).
Proof.
  apply (failed_injection_reports_error _ Samples.exotic_env Samples.tokenA
           Samples.usdc 1000 Samples.swap Samples.fresh).
  - vm_compute. reflexivity.
  - vm_compute. reflexivity.
Defined.

(** * The direct slot probe *)

Lemma same_cache_refl {N} (w : World N) : same_cache w w.
Proof. split; [reflexivity|]. exists []. now rewrite app_nil_r. Qed.

Lemma same_cache_trans {N} (w1 w2 w3 : World N) :
  same_cache w1 w2 -> same_cache w2 w3 -> same_cache w1 w3.
Proof.
  intros [C1 (l1 & L1)] [C2 (l2 & L2)]. split; [congruence|].
  exists (l1 ++ l2)%list. now rewrite L2, L1, app_assoc.
Qed.

Lemma first_success_true {N} (body : Z -> M N bool) (l : list Z) :
  (forall x w w', body x w = (Return false, w') -> same_cache w w') ->
  forall w w',
    first_success body l w = (Return true, w') ->
    exists x w1, In x l /\ same_cache w w1 /\ body x w1 = (Return true, w').
Proof.
  intros Hfalse. induction l as [|x rest IH]; intros w w' H;
    cbn [first_success] in H.
  - discriminate H.
  - unfold bind in H. destruct (body x w) as [[[|]|e] w1] eqn:E.
    + injection H as <-. exists x, w.
      split; [now left|]. split; [apply same_cache_refl | exact E].
    + destruct (IH _ _ H) as (y & w2 & Hin & Hsame & Hy).
      exists y, w2. split; [now right|]. split; [|exact Hy].
      apply (same_cache_trans w w1 w2); [now apply Hfalse in E | exact Hsame].
    + discriminate H.
Qed.

(** Run a hypothesis about a probe through its requests, one reply at
    a time. *)
Ltac probe_step H :=
  match type of H with
  | context [handle ?c ?r ?n] =>
      let rep := fresh "rep" in
      let n1 := fresh "n" in
      let E := fresh "Hrep" in
      destruct (handle c r n) as [rep n1] eqn:E;
      destruct rep;
      cbn [as_unit as_word ret throw fst snd node cache log] in H;
      cbv beta in H;
      cbn [as_unit as_word ret throw fst snd node cache log] in H;
      try discriminate H
  | context [encode_uint256 ?v] =>
      let E := fresh "Hrange" in
      unfold encode_uint256 in H;
      destruct ((0 <=? v) && (v <? 2 ^ 256)) eqn:E;
      cbn [ret throw fst snd node cache log] in H;
      try discriminate H
  | context [if ?a <=? ?b then _ else _] =>
      destruct (Z.leb_spec a b);
      cbn [ret throw fst snd node cache log] in H;
      try discriminate H
  end.

(** A finished run: name its result, its world and its events. *)
Ltac probe_done :=
  eexists _, _, _; (split; [reflexivity|]);
  (split; [cbn [log]; rewrite <- ?app_assoc; reflexivity|]);
  (split; [|reflexivity]).

Section DirectProbe.
Context {N : Type} (env : Env N).
Variables token holder amount : Z.

Lemma direct_probe_true slot (w w' : World N) :
  direct_probe env token holder amount slot w = (Return true, w') ->
  exists original rep b,
    log w'
    = (log w
       ++ [EvRpc (GetStorageAt token (mapping_key env holder slot))
             (RWord original);
           EvRpc (SetStorageAt token (mapping_key env holder slot) amount)
             rep;
           EvSleep 1000;
           EvRpc (BalanceOf token holder) (RWord b)])%list
    /\ amount <= b
    /\ cache w' = <[token := slot]> (cache w).
Proof.
  intros H.
  cbv beta iota zeta delta
    [direct_probe try_catch bind getStorageAt setStorageAt readBalanceOf
     send request sleep emit set_cache] in H.
  repeat probe_step H.
  all: injection H as <-; cbn [log cache];
    eexists _, _, _; rewrite <- !app_assoc; cbn [app];
    repeat split; try reflexivity; assumption.
Qed.

Lemma direct_probe_false slot (w w' : World N) :
  direct_probe env token holder amount slot w = (Return false, w') ->
  same_cache w w'.
Proof.
  intros H.
  cbv beta iota zeta delta
    [direct_probe try_catch bind getStorageAt setStorageAt readBalanceOf
     send request sleep emit set_cache] in H.
  repeat probe_step H.
  all: injection H as <-; split; [reflexivity|]; cbn [log];
    rewrite <- ?app_assoc; eexists; reflexivity.
Qed.

(** Every run of the probe of one candidate. *)
Lemma direct_probe_trace slot (w : World N) :
  exists ok w' tr,
    direct_probe env token holder amount slot w = (Return ok, w')
    /\ log w' = (log w ++ tr)%list
    /\ probe_trace env token holder amount ok slot tr
    /\ cache w' = if ok then <[token := slot]> (cache w) else cache w.
Proof.
  cbv beta iota zeta delta
    [direct_probe try_catch bind getStorageAt setStorageAt readBalanceOf
     send request sleep emit set_cache].
  destruct (handle (client env)
              (GetStorageAt token (mapping_key env holder slot)) (node w))
    as [read n1].
  destruct read as [| original | | |e0]; cbn [as_word ret throw];
    try (probe_done; apply probe_unread; congruence).
  cbv beta. cbn [node cache log]. unfold encode_uint256.
  destruct ((0 <=? amount) && (amount <? 2 ^ 256)) eqn:Hrange;
    cbn [ret throw]; cbv beta;
    [|probe_done; apply probe_unencodable; lia].
  assert (Hamount : 0 <= amount < 2 ^ 256) by lia.
  cbn [node cache log].
  destruct (handle (client env)
              (SetStorageAt token (mapping_key env holder slot) amount) n1)
    as [written n2].
  destruct written as [| ? | ? | ? |e1];
    cbn [as_unit ret throw]; cbv beta; cbn [node cache log];
    try (probe_done; now apply probe_unwritten).
  all: destruct (handle (client env) (BalanceOf token holder) n2)
         as [seen n3];
    destruct seen as [| balance | | |e2]; cbn [as_word ret throw]; cbv beta;
    cbn [node cache log];
    try (probe_done; apply probe_unverified; [exact Hamount | | ];
         congruence).
  all: destruct (Z.leb_spec amount balance) as [Hb|Hb];
    cbn [ret]; cbv beta; cbn [node cache log];
    try (probe_done; apply probe_matched; [exact Hamount | | exact Hb];
         congruence).
  all: destruct (handle (client env)
                   (SetStorageAt token (mapping_key env holder slot)
                      original) n3) as [restored n4];
    destruct restored; cbn [as_unit ret throw]; cbv beta;
    probe_done;
    (apply probe_restored; [exact Hamount | congruence | exact Hb]).
Qed.
End DirectProbe.

Section FirstSuccess.
Context {N : Type} (body : Z -> M N bool) (token : Z).
Variable trace : bool -> Z -> list Event -> Prop.
Hypothesis body_trace :
  forall x (w : World N),
    exists ok w' tr,
      body x w = (Return ok, w')
      /\ log w' = (log w ++ tr)%list
      /\ trace ok x tr
      /\ cache w' = if ok then <[token := x]> (cache w) else cache w.

(** The loop tries the candidates in the order of the list, each once,
    and stops at the first success. *)
Lemma first_success_traces (l : list Z) :
  forall w : World N,
    exists ok w' tried failed,
      first_success body l w = (Return ok, w')
      /\ Forall2 (trace false) tried failed
      /\ if ok then
           exists x later last,
             l = (tried ++ x :: later)%list
             /\ trace true x last
             /\ log w' = (log w ++ concat failed ++ last)%list
             /\ cache w' = <[token := x]> (cache w)
         else
           l = tried
           /\ log w' = (log w ++ concat failed)%list
           /\ cache w' = cache w.
Proof using body_trace.
  induction l as [|x rest IH]; intros w; cbn [first_success].
  - exists false, w, [], []. split; [reflexivity|]. split; [constructor|].
    cbn. now rewrite app_nil_r.
  - destruct (body_trace x w) as (ok & w1 & tr & E & Hl & Ht & Hc).
    unfold bind. rewrite E. destruct ok.
    + exists true, w1, [], []. split; [reflexivity|]. split; [constructor|].
      exists x, rest, tr. cbn [concat app]. now repeat split.
    + destruct (IH w1) as (ok & w' & tried & failed & E' & Hf & Hrest).
      exists ok, w', (x :: tried), (tr :: failed).
      split; [exact E'|]. split; [now constructor|].
      destruct ok.
      * destruct Hrest as (y & later & last & -> & Hy & Hl' & Hc').
        exists y, later, last. split; [reflexivity|]. split; [exact Hy|].
        split.
        -- rewrite Hl', Hl. cbn [concat]. now rewrite <- !app_assoc.
        -- now rewrite Hc', Hc.
      * destruct Hrest as (-> & Hl' & Hc'). split; [reflexivity|]. split.
        -- rewrite Hl', Hl. cbn [concat]. now rewrite <- !app_assoc.
        -- now rewrite Hc', Hc.
Qed.
End FirstSuccess.

(** C4, as stated: slot 50 is a candidate of the code, and a token
    whose balances sit in mapping slot 50 is funded by the direct probe,
    but 50 is not in the list 0-20, 51, 52, 100-105, 150, 200, 255. *)
Lemma candidate_50_is_probed :
  In 50 COMMON_SLOTS_FOR_BALANCE_SET
  /\ ~ In 50 spec_candidate_slots
  /\ (let run := method1 Samples.slot50_env Samples.tokenA Samples.account 7
                   Samples.fresh in
      fst run = Return true /\ cache (snd run) !! Samples.tokenA = Some 50).
Proof.
  split; [cbn; tauto|]. split.
  - cbn. intros H. repeat (destruct H as [H|H]; [discriminate H|]). exact H.
  - vm_compute. split; reflexivity.
Qed.

(** C4, amended: the candidates of the direct probe are, in order,
    0-20, 51, 52, 101-105, 50, 100, 150, 200, 255: the list of the
    specification and slot 50.  The strategy never throws.  It probes
    the candidates in the order of the list, each at most once, and
    stops at the first one whose probe succeeds: the events of a run
    are the events of the failed probes of the candidates before that
    one, in order, followed by the events of the successful probe; when
    no probe succeeds every candidate has been probed, the strategy
    answers false and the cache is unchanged.  The probe of a candidate
    [slot] reads the original word at key = hash(holder || slot),
    writes the amount at that key, pauses for a second and reads
    [balanceOf]: an answer of at least the amount is a success, and the
    slot is then cached for the token; a smaller one makes the probe
    write the original word back; a rejected step ends the probe of
    that candidate with nothing written back.  In particular the last
    four events of a successful run are that read, that write, the
    pause and a [balanceOf] read that answers at least the amount. *)
Theorem direct_slot_probe :
  COMMON_SLOTS_FOR_BALANCE_SET
  = ((Z.of_nat <$> seq 0 21) ++ [51; 52] ++ (Z.of_nat <$> seq 101 5)
     ++ [50; 100; 150; 200; 255])%list
  /\ (forall slot,
         In slot COMMON_SLOTS_FOR_BALANCE_SET
         <-> In slot spec_candidate_slots \/ slot = 50)
  /\ (forall (N : Type) (env : Env N) (token holder amount : Z)
             (w w' : World N),
        method1 env token holder amount w = (Return true, w') ->
        exists slot l original rep b,
          In slot COMMON_SLOTS_FOR_BALANCE_SET
          /\ log w'
             = (log w ++ l
                ++ [EvRpc (GetStorageAt token (mapping_key env holder slot))
                      (RWord original);
                    EvRpc (SetStorageAt token (mapping_key env holder slot)
                             amount) rep;
                    EvSleep 1000;
                    EvRpc (BalanceOf token holder) (RWord b)])%list
          /\ amount <= b
          /\ cache w' = <[token := slot]> (cache w))
  /\ forall (N : Type) (env : Env N) (token holder amount : Z)
            (w : World N),
       exists ok w' tried failed,
         method1 env token holder amount w = (Return ok, w')
         /\ Forall2 (probe_trace env token holder amount false) tried failed
         /\ if ok then
              exists slot later last,
                COMMON_SLOTS_FOR_BALANCE_SET = (tried ++ slot :: later)%list
                /\ probe_trace env token holder amount true slot last
                /\ log w' = (log w ++ concat failed ++ last)%list
                /\ cache w' = <[token := slot]> (cache w)
            else
              COMMON_SLOTS_FOR_BALANCE_SET = tried
              /\ log w' = (log w ++ concat failed)%list
              /\ cache w' = cache w.
Proof.
  split; [reflexivity|]. split; [|split].
  - intros slot. unfold COMMON_SLOTS_FOR_BALANCE_SET, spec_candidate_slots.
    cbn [In]. lia.
  - intros N env token holder amount w w' H.
    unfold method1, try_catch in H.
    destruct (first_success (direct_probe env token holder amount)
                COMMON_SLOTS_FOR_BALANCE_SET w) as [[ok|e] w1] eqn:E;
      [|discriminate H].
    injection H as -> ->.
    apply first_success_true in E;
      [|intros x w0 w0'; apply direct_probe_false].
    destruct E as (slot & w1 & Hin & [Hcache (l & Hlog)] & Hprobe).
    apply direct_probe_true in Hprobe.
    destruct Hprobe as (original & rep & b & Hlog' & Hb & Hcache').
    exists slot, l, original, rep, b.
    split; [exact Hin|]. split; [|split; [exact Hb|]].
    + now rewrite Hlog', Hlog, <- app_assoc.
    + now rewrite Hcache', Hcache.
  - intros N env token holder amount w.
    destruct (first_success_traces (direct_probe env token holder amount)
                token (probe_trace env token holder amount)
                (direct_probe_trace env token holder amount)
                COMMON_SLOTS_FOR_BALANCE_SET w)
      as (ok & w' & tried & failed & E & Hf & Hrest).
    exists ok, w', tried, failed.
    split; [|split; [exact Hf | exact Hrest]].
    unfold method1, try_catch. now rewrite E.
Qed.

Lemma direct_slot_probe_witness :
  exists slot l original rep b,
    In slot COMMON_SLOTS_FOR_BALANCE_SET
    /\ log (snd (method1 Samples.slot50_env Samples.tokenA Samples.account 7
                   Samples.fresh))
       = (log Samples.fresh ++ l
          ++ [EvRpc (GetStorageAt Samples.tokenA
                       (mapping_key Samples.slot50_env Samples.account slot))
                (RWord original);
              EvRpc (SetStorageAt Samples.tokenA
                       (mapping_key Samples.slot50_env Samples.account slot)
                       7) rep;
              EvSleep 1000;
              EvRpc (BalanceOf Samples.tokenA Samples.account) (RWord b)])%list
    /\ 7 <= b
    /\ cache (snd (method1 Samples.slot50_env Samples.tokenA Samples.account 7
                     Samples.fresh))
       = <[Samples.tokenA := slot]> (cache Samples.fresh).
Proof.
  apply (proj1 (proj2 (proj2 direct_slot_probe)) _ Samples.slot50_env
           Samples.tokenA Samples.account 7 Samples.fresh).
  vm_compute. reflexivity.
Defined.

(** * A successful injection has seen the balance *)

Lemma first_success_found {N} (body : Z -> M N bool) (l : list Z)
    (w w' : World N) :
  first_success body l w = (Return true, w') ->
  exists x w1, In x l /\ body x w1 = (Return true, w').
Proof.
  revert w. induction l as [|x rest IH]; intros w H; cbn [first_success] in H.
  - discriminate H.
  - unfold bind in H. destruct (body x w) as [[[|]|e] w1] eqn:E.
    + injection H as <-. exists x, w. split; [now left | exact E].
    + destruct (IH _ H) as (y & w2 & Hin & Hy).
      exists y, w2. split; [now right | exact Hy].
    + discriminate H.
Qed.

Lemma first_method_found {N} (methods : list (M N bool)) (w w' : World N) :
  first_method methods w = (Return true, w') ->
  exists m w1, In m methods /\ m w1 = (Return true, w').
Proof.
  revert w. induction methods as [|m rest IH]; intros w H;
    cbn [first_method] in H.
  - discriminate H.
  - unfold bind in H. destruct (m w) as [[[|]|e] w1] eqn:E.
    + injection H as <-. exists m, w. split; [now left | exact E].
    + destruct (IH _ H) as (m' & w2 & Hin & Hm').
      exists m', w2. split; [now right | exact Hm'].
    + discriminate H.
Qed.

Section Confirmed.
Context {N : Type} (env : Env N).
Variables token holder amount : Z.

Ltac confirm H :=
  unfold ret in H;
  lazymatch type of H with
  | (Return (_ <=? _), _) = _ =>
      let Hb := fresh "Hb" in
      injection H as Hb <-; apply Z.leb_le in Hb
  | _ => injection H as <-
  end;
  cbn [log];
  first
    [ eexists _, _, []; split; [reflexivity|]; split; [assumption|];
      constructor
    | rewrite <- app_assoc; cbn [app]; eexists _, _, [_];
      split; [reflexivity|]; split; [assumption|];
      repeat constructor; discriminate ].

Lemma guarded_true (m : M N bool) (w w' : World N) :
  try_catch m (fun _ => ret false) w = (Return true, w') ->
  m w = (Return true, w').
Proof.
  unfold try_catch. destruct (m w) as [[b|e] w1]; cbn; [auto|discriminate].
Qed.

Lemma direct_probe_confirmed slot (w w' : World N) :
  direct_probe env token holder amount slot w = (Return true, w') ->
  balance_confirmed token holder amount (log w').
Proof.
  intros H. apply direct_probe_true in H.
  destruct H as (original & rep & b & -> & Hb & _).
  exists (log w
          ++ [EvRpc (GetStorageAt token (mapping_key env holder slot))
                (RWord original);
              EvRpc (SetStorageAt token (mapping_key env holder slot) amount)
                rep;
              EvSleep 1000])%list, b, [].
  split; [now rewrite <- app_assoc|]. split; [exact Hb | constructor].
Qed.

Lemma method1_confirmed (w w' : World N) :
  method1 env token holder amount w = (Return true, w') ->
  balance_confirmed token holder amount (log w').
Proof.
  intros H. apply guarded_true, first_success_found in H.
  destruct H as (slot & w1 & _ & H). now apply direct_probe_confirmed in H.
Qed.

Lemma method2_confirmed (w w' : World N) :
  method2 env token holder amount w = (Return true, w') ->
  balance_confirmed token holder amount (log w').
Proof.
  intros H. apply guarded_true in H.
  cbv beta iota zeta delta
    [bind balance_reached readBalanceOf send request] in H.
  unfold toHex in H. destruct (0 <=? amount * 10 ^ 18);
    cbn [ret throw] in H; [|discriminate H].
  repeat probe_step H. all: confirm H.
Qed.

Lemma method3_confirmed (w w' : World N) :
  method3 env token holder amount w = (Return true, w') ->
  balance_confirmed token holder amount (log w').
Proof.
  intros H. apply guarded_true in H.
  cbv beta iota zeta delta
    [try_catch bind readBalanceOf send request] in H.
  repeat probe_step H. all: confirm H.
Qed.

Lemma method4_confirmed (w w' : World N) :
  method4 env token holder amount w = (Return true, w') ->
  balance_confirmed token holder amount (log w').
Proof.
  intros H. apply guarded_true in H.
  cbv beta iota zeta delta
    [bind balance_reached setStorageAt readBalanceOf send request sleep emit]
    in H.
  repeat probe_step H. all: confirm H.
Qed.

Lemma method5_confirmed (w w' : World N) :
  method5 env token holder amount w = (Return true, w') ->
  balance_confirmed token holder amount (log w').
Proof.
  intros H. apply guarded_true in H.
  unfold bind at 1 in H.
  destruct (findBalanceSlot env token holder w) as [[[slot|]|e] w1];
    try discriminate H.
  cbv beta iota zeta delta
    [bind getStorageAt setStorageAt readBalanceOf send request sleep emit]
    in H.
  repeat probe_step H. all: confirm H.
Qed.

Lemma supply_probe_confirmed balSlot (w w' : World N) :
  supply_probe env token holder amount balSlot w = (Return true, w') ->
  balance_confirmed token holder amount (log w').
Proof.
  intros H.
  cbv beta iota zeta delta
    [supply_probe bind setStorageAt readBalanceOf send request set_cache]
    in H.
  repeat probe_step H. all: confirm H.
Qed.

Lemma method6_confirmed (w w' : World N) :
  method6 env token holder amount w = (Return true, w') ->
  balance_confirmed token holder amount (log w').
Proof.
  intros H. apply guarded_true, first_success_found in H.
  destruct H as (supplySlot & w1 & _ & H). apply guarded_true in H.
  unfold bind at 1 in H.
  destruct (encode_uint256 (amount * 1000) w1) as [[v|e] w2];
    [|discriminate H].
  unfold bind at 1 in H.
  destruct (setStorageAt env token supplySlot v w2) as [[[]|e] w3];
    [|discriminate H].
  apply first_success_found in H.
  destruct H as (balSlot & w4 & _ & H).
  now apply supply_probe_confirmed in H.
Qed.

Lemma reverse_probe_confirmed slot (w w' : World N) :
  reverse_probe env token holder amount slot w = (Return true, w') ->
  balance_confirmed token holder amount (log w').
Proof.
  intros H. apply guarded_true in H.
  cbv beta iota zeta delta
    [bind getStorageAt setStorageAt readBalanceOf send request set_cache]
    in H.
  repeat probe_step H. all: confirm H.
Qed.

Lemma method7_confirmed impl (w w' : World N) :
  method7 env token holder amount impl w = (Return true, w') ->
  balance_confirmed token holder amount (log w').
Proof.
  destruct impl as [impl|]; cbn [method7]; intros H; [|discriminate H].
  apply guarded_true, first_success_found in H.
  destruct H as (slot & w1 & _ & H). now apply reverse_probe_confirmed in H.
Qed.

(** Every [return true] of [setERC20Balance] follows a [balanceOf]
    read that answered at least the amount. *)
Lemma setERC20Balance_confirmed (w w' : World N) :
  setERC20Balance env token holder amount w = (Return true, w') ->
  balance_confirmed token holder amount (log w').
Proof.
  unfold setERC20Balance. unfold bind at 1.
  destruct (detectProxyImplementation env token w) as [[impl|e] w1];
    [|discriminate].
  intros H. apply first_method_found in H.
  destruct H as (m & w2 & Hin & H). cbn [In] in Hin.
  repeat (destruct Hin as [<- | Hin];
          [ eauto using method1_confirmed, method2_confirmed,
              method3_confirmed, method4_confirmed, method5_confirmed,
              method6_confirmed, method7_confirmed | ]).
  destruct Hin.
Qed.
End Confirmed.


(** * The approval *)

Section Approval.
Context {N : Type} (env : Env N).

Lemma approveERC20_approvals token spender amount (w : World N) :
  approvals (log (snd (approveERC20 env token spender amount w)))
  = (approvals (log w)
     ++ [Approve token spender MAX_UINT256 (TEST_ACCOUNT env)])%list.
Proof.
  unfold approveERC20, try_catch, bind, send, request.
  destruct (handle (client env)
              (Approve token spender MAX_UINT256 (TEST_ACCOUNT env)) (node w))
    as [rep n1].
  destruct rep as [| hash | | |e]; cbn [as_word as_receipt ret throw snd log node cache];
    try (now rewrite approvals_app).
  destruct (handle (client env) (WaitForTransactionReceipt hash) n1)
    as [rep2 n2].
  destruct rep2; cbn [as_word as_receipt ret throw snd log node cache];
    cbv beta; cbn [throw snd log];
    rewrite !approvals_app; cbn; now rewrite app_nil_r.
Qed.

Lemma setupBalances_funded tokenIn amountIn swapData (w w1 w2 : World N)
    actual :
  isNativeToken tokenIn = false ->
  setERC20Balance env tokenIn (TEST_ACCOUNT env) (amountIn * 10) w
  = (Return true, w1) ->
  readBalanceOf env tokenIn (TEST_ACCOUNT env) w1 = (Return actual, w2) ->
  amountIn <= actual ->
  setupBalances env tokenIn amountIn swapData w
  = (approveERC20 env tokenIn (to swapData) (amountIn * 10) ;;;
     (rep <- send env (Allowance tokenIn (TEST_ACCOUNT env) (to swapData)) ;;
      as_word rep) ;;;
     ret None) w2.
Proof.
  intros Hnative Hinj Hread Hle. unfold setupBalances. rewrite Hnative.
  cbv zeta. unfold bind at 1. rewrite Hinj.
  unfold bind at 1. rewrite Hread.
  destruct (Z.ltb_spec actual amountIn); [lia|]. reflexivity.
Qed.
End Approval.

(** C5, as stated: with amountIn = 1000 and a successful injection of
    10000, the one approval sent is for 2^256 - 1, not for 10000. *)
Lemma approval_is_not_buffered_amount :
  fst (setERC20Balance (Samples.market []) Samples.tokenA Samples.account
         (1000 * 10) Samples.fresh) = Return true
  /\ approvals
       (log (snd (setupBalances (Samples.market []) Samples.tokenA 1000
                    Samples.swap Samples.fresh)))
     = [Approve Samples.tokenA Samples.router (2 ^ 256 - 1) Samples.account]
  /\ 2 ^ 256 - 1 <> 1000 * 10.
Proof.
  split; [vm_compute; reflexivity|].
  split; [vm_compute; reflexivity|].
  discriminate.
Qed.

(** C5, amended: for an ERC20 input whose injection, requested for
    10 x amountIn, succeeded (so a [balanceOf] read answered at least
    10 x amountIn) and whose balance read shows at least amountIn,
    exactly one approval is sent, to the swap target, for MAX_UINT256
    (the buffered amount is passed to [approveERC20] but not used). *)
Theorem funded_sample_approves_max_uint256 :
  forall (N : Type) (env : Env N) (tokenIn amountIn : Z)
         (swapData : SwapTransaction) (w w1 w2 : World N) (actual : Z),
    isNativeToken tokenIn = false ->
    setERC20Balance env tokenIn (TEST_ACCOUNT env) (amountIn * 10) w
    = (Return true, w1) ->
    readBalanceOf env tokenIn (TEST_ACCOUNT env) w1 = (Return actual, w2) ->
    amountIn <= actual ->
    balance_confirmed tokenIn (TEST_ACCOUNT env) (amountIn * 10) (log w1)
    /\ approvals (log (snd (setupBalances env tokenIn amountIn swapData w)))
       = (approvals (log w)
          ++ [Approve tokenIn (to swapData) MAX_UINT256 (TEST_ACCOUNT env)])%list.
Proof.
  intros N env tokenIn amountIn swapData w w1 w2 actual Hnative Hinj Hread Hle.
  split; [exact (setERC20Balance_confirmed env _ _ _ _ _ Hinj)|].
  rewrite (setupBalances_funded env tokenIn amountIn swapData w w1 w2 actual
             Hnative Hinj Hread Hle).
  assert (Hquiet : approvals (log w2) = approvals (log w)).
  { destruct (emits_log _ _ _ _ _
                (setERC20Balance_quiet env tokenIn (TEST_ACCOUNT env)
                   (amountIn * 10)) Hinj) as (l & Hlog & Hl).
    destruct (quiet_log l Hl) as [Ha _].
    unfold readBalanceOf, send, request, bind in Hread.
    destruct (handle (client env) (BalanceOf tokenIn (TEST_ACCOUNT env))
                (node w1)) as [rep n1].
    destruct rep; cbn in Hread; try discriminate Hread.
    injection Hread as _ <-. cbn [log].
    rewrite Hlog, !approvals_app, Ha. cbn. now rewrite !app_nil_r. }
  pose proof (approveERC20_approvals env tokenIn (to swapData) (amountIn * 10)
                w2) as Happ.
  unfold bind at 1.
  destruct (approveERC20 env tokenIn (to swapData) (amountIn * 10) w2)
    as [[[]|e] w3]; cbn [snd] in *; rewrite <- Hquiet, <- Happ.
  - unfold bind, send, request.
    destruct (handle (client env)
                (Allowance tokenIn (TEST_ACCOUNT env) (to swapData)) (node w3))
      as [rep n3].
    destruct rep; cbn [as_word ret throw snd log]; cbv beta;
      cbn [ret snd log]; rewrite approvals_app; cbn; now rewrite app_nil_r.
  - reflexivity.
Qed.

Lemma funded_sample_approves_max_uint256_witness :
  balance_confirmed Samples.tokenA (TEST_ACCOUNT (Samples.market []))
    (1000 * 10)
    (log (snd (setERC20Balance (Samples.market []) Samples.tokenA
                 Samples.account (1000 * 10) Samples.fresh)))
  /\ approvals
       (log (snd (setupBalances (Samples.market []) Samples.tokenA 1000
                    Samples.swap Samples.fresh)))
     = (approvals (log Samples.fresh)
        ++ [Approve Samples.tokenA (to Samples.swap) MAX_UINT256
              (TEST_ACCOUNT (Samples.market []))])%list.
Proof.
  apply (funded_sample_approves_max_uint256 _ (Samples.market [])
           Samples.tokenA 1000 Samples.swap Samples.fresh
           (snd (setERC20Balance (Samples.market []) Samples.tokenA
                   Samples.account (1000 * 10) Samples.fresh))
           (snd (readBalanceOf (Samples.market []) Samples.tokenA
                   Samples.account
                   (snd (setERC20Balance (Samples.market []) Samples.tokenA
                           Samples.account (1000 * 10) Samples.fresh))))
           10000).
  - vm_compute. reflexivity.
  - vm_compute. reflexivity.
  - vm_compute. reflexivity.
  - lia.
Defined.

(** * The swap execution *)

Section Swap.
Context {N : Type} (env : Env N).

Lemma getTokenBalance_log token (w w' : World N) b :
  getTokenBalance env token (TEST_ACCOUNT env) (isNativeToken token) w
  = (Return b, w') ->
  log w' = (log w ++ [EvRpc (balance_request env token) (RWord b)])%list.
Proof.
  unfold getTokenBalance, balance_request, readBalanceOf, bind, send, request.
  destruct (isNativeToken token); intros H;
    match type of H with
    | context [handle ?c ?r ?n] => destruct (handle c r n) as [rep n1]
    end;
    destruct rep; cbn in H; try discriminate H;
    injection H as <- <-; reflexivity.
Qed.

Lemma executeTransactionWithRetry_emits account target data value gas
    maxAttempts timeout :
  emits submission_event
    (executeTransactionWithRetry env account target data value gas
       maxAttempts timeout).
Proof.
  unfold executeTransactionWithRetry. cbv zeta.
  apply emits_retryWithBackoff.
  - repeat first [emits_step | quiet_event].
  - intros f a e [= <-]. repeat emits_step.
  - intros ms. exact I.
Qed.

Lemma submitSwap_emits swapData :
  emits submission_event (submitSwap env swapData).
Proof.
  unfold submitSwap. apply emits_try_catch.
  - apply emits_bind; [apply executeTransactionWithRetry_emits|].
    intros receipt. apply emits_ret.
  - intros e. apply emits_bind; [apply emits_read_message|]. intros _.
    destruct (is_timeout e); [apply emits_throw | apply emits_ret].
Qed.

Lemma submitSwap_early swapData (w w' : World N) r :
  submitSwap env swapData w = (Return (inr r), w') -> status r = error.
Proof.
  unfold submitSwap, try_catch, bind.
  destruct (executeTransactionWithRetry env _ _ _ _ _ _ _ w)
    as [[receipt|e] w1]; cbn; [discriminate|].
  unfold read_message. destruct (nullish e); cbn; [discriminate|].
  destruct (is_timeout e); cbn; [discriminate|].
  intros [= <- _]. reflexivity.
Qed.

Lemma setupBalances_early tokenIn amountIn swapData (w w' : World N) r :
  setupBalances env tokenIn amountIn swapData w = (Return (Some r), w') ->
  status r = error.
Proof.
  unfold setupBalances. cbv zeta. destruct (isNativeToken tokenIn).
  - unfold bind.
    destruct (setNativeBalance env _ _ w) as [[[]|e] w1]; [|discriminate].
    destruct (send env _ w1) as [[rep|e] w2]; [|discriminate].
    destruct (as_word rep w2) as [[z|e] w3]; cbn; discriminate.
  - unfold bind.
    destruct (setERC20Balance env _ _ _ w) as [[ok|e] w1]; [|discriminate].
    destruct (readBalanceOf env _ _ w1) as [[actual|e] w2]; [|discriminate].
    destruct (negb ok || (actual <? amountIn)); cbn.
    + intros [= <- _]. reflexivity.
    + destruct (approveERC20 env _ _ _ w2) as [[[]|e] w3]; [|discriminate].
      destruct (send env _ w3) as [[rep|e] w4]; [|discriminate].
      destruct (as_word rep w4) as [[z|e] w5]; cbn; discriminate.
Qed.

(** The outer retry wrapper runs [simulateTransaction] exactly once:
    the catch-all of [simulateTransaction] leaves nothing to retry but
    its own [TypeError], which is neither a timeout nor retryable. *)
Lemma simulationAttempt_is_simulateTransaction quoteResult tokenIn tokenOut
    swapData (w : World N) :
  retryWithBackoff
    (simulationAttempt env quoteResult tokenIn tokenOut swapData)
    (mkRetryOptions (Some 3) (Some 5000) (Some 30000) None None
       (Some (fun _ error => read_message error ;;; ret tt))) w
  = simulateTransaction env tokenIn tokenOut
      (default 0 (q_amountIn quoteResult)) swapData w.
Proof.
  destruct (simulateTransaction_outcome env tokenIn tokenOut
              (default 0 (q_amountIn quoteResult)) swapData w)
    as (w1 & [(r & E)|E]);
    rewrite E; unfold retryWithBackoff; cbv zeta;
    cbn [maxAttempts initialDelay maxDelay backoffMultiplier shouldRetry
         onRetry];
    change (default DEFAULT_maxAttempts (Some 3)) with 3;
    change (Z.to_nat 3) with 3%nat.
  - apply attempts_return; [lia|].
    unfold simulationAttempt, try_catch. now rewrite E.
  - apply attempts_give_up; [lia | | reflexivity].
    unfold simulationAttempt, try_catch. rewrite E. reflexivity.
Qed.

(** An error that reaches the catch-all does not end in a success. *)
Ltac caught H Hstatus :=
  cbn in H;
  repeat match type of H with
         | context [nullish ?e] => destruct (nullish e)
         end;
  cbn in H;
  first [discriminate H | injection H as <- <-; discriminate Hstatus].

Lemma simulateTransaction_success tokenIn tokenOut amountIn swapData
    (w w' : World N) r :
  simulateTransaction env tokenIn tokenOut amountIn swapData w
  = (Return r, w') ->
  status r = success ->
  exists l0 l_exec pre post used,
    log w'
    = (l0
       ++ [EvRpc (balance_request env tokenOut) (RWord pre);
           EvSleep 1000;
           EvRpc (GetBytecode (to swapData)) (RCode true)]
       ++ l_exec
       ++ [EvSleep 1000;
           EvRpc (balance_request env tokenOut) (RWord post)])%list
    /\ Forall submission_event l_exec
    /\ amountOut r = post - pre
    /\ gasUsed r = Some used.
Proof.
  intros H Hstatus.
  cbv beta iota zeta delta
    [simulateTransaction try_catch bind sleep emit send request
     read_message] in H.
  destruct (setupBalances env tokenIn amountIn swapData w)
    as [[[early|]|e] w1] eqn:Hsetup.
  - cbn in H. injection H as <- <-.
    apply setupBalances_early in Hsetup. congruence.
  - cbn [node cache log] in H.
    match type of H with
    | context [getTokenBalance env tokenOut ?a ?b ?w0] =>
        destruct (getTokenBalance env tokenOut a b w0)
          as [[pre|e] w2] eqn:Hpre
    end.
    2:{ caught H Hstatus. }
    apply getTokenBalance_log in Hpre. cbn [log] in Hpre.
    cbn [node cache log] in H.
    destruct (handle (client env) (GetBytecode (to swapData)) (node w2))
      as [rep n3] eqn:Hcode.
    destruct rep as [| | |[|]|]; cbn [as_code ret throw negb] in H;
      try (caught H Hstatus).
    match type of H with
    | context [submitSwap env swapData ?w0] =>
        destruct (submitSwap env swapData w0)
          as [[[receipt|result]|e] w4] eqn:Hsubmit
    end.
    + destruct (emits_log _ _ _ _ _ (submitSwap_emits swapData) Hsubmit)
        as (l_exec & Hlog4 & Hexec).
      cbn [log] in Hlog4.
      destruct (rc_status receipt).
      * cbn [node cache log] in H.
        match type of H with
        | context [getTokenBalance env tokenOut ?a ?b ?w0] =>
            destruct (getTokenBalance env tokenOut a b w0)
              as [[post|e] w5] eqn:Hpost
        end.
        2:{ caught H Hstatus. }
        apply getTokenBalance_log in Hpost. cbn [log] in Hpost.
        cbn in H. injection H as <- <-.
        exists (log w1 ++ [EvSleep 1000])%list, l_exec, pre, post,
          (rc_gasUsed receipt).
        split; [|split; [exact Hexec|split; reflexivity]].
        rewrite Hpost, Hlog4, Hpre. rewrite <- !app_assoc. reflexivity.
      * match type of H with
        | context [handle ?c ?r ?n] => destruct (handle c r n) as [rep n5]
        end.
        caught H Hstatus.
    + cbn in H. injection H as <- <-.
      apply submitSwap_early in Hsubmit. congruence.
    + caught H Hstatus.
  - caught H Hstatus.
Qed.
End Swap.

(** C7: for a sample whose simulation status is "success", the
    reported output is the test account's output-token balance read
    after the swap minus the balance read before it (the two reads
    bracket the code check and the submission), and the net amount is
    [max 0 (amountOut - gasCost)]. *)
Theorem success_reports_balance_difference :
  forall (N : Type) (env : Env N) (quoteResult : Quote) (tokenIn tokenOut : Z)
         (w w' : World N) (s : SampleResult),
    simulateQuote env quoteResult tokenIn tokenOut w = (Return s, w') ->
    simulationStatus s = success ->
    exists swapData l0 l_exec pre post,
      q_txData quoteResult = Some swapData
      /\ log w'
         = (l0
            ++ [EvRpc (balance_request env tokenOut) (RWord pre);
                EvSleep 1000;
                EvRpc (GetBytecode (to swapData)) (RCode true)]
            ++ l_exec
            ++ [EvSleep 1000;
                EvRpc (balance_request env tokenOut) (RWord post)])%list
      /\ Forall submission_event l_exec
      /\ simulationOutput s = post - pre
      /\ netAmount s = Z.max 0 (simulationOutput s - gasCostInTokenOut s).
Proof.
  intros N env quoteResult tokenIn tokenOut w w' s H Hstatus.
  unfold simulateQuote in H.
  unfold bind at 1 in H.
  destruct (refork env quoteResult w) as [[[]|e] w1]; [|discriminate H].
  unfold bind at 1 in H. cbn [sleep emit] in H.
  unfold bind at 1 in H.
  destruct (q_txData quoteResult) as [swapData|] eqn:Htx.
  2:{ cbn in H. injection H as <- <-. discriminate Hstatus. }
  destruct (q_status quoteResult =? 200).
  2:{ cbn in H. injection H as <- <-. discriminate Hstatus. }
  unfold try_catch at 1 in H.
  rewrite simulationAttempt_is_simulateTransaction in H.
  match type of H with
  | context [simulateTransaction env tokenIn tokenOut ?a swapData ?w0] =>
      destruct (simulateTransaction_outcome env tokenIn tokenOut a swapData w0)
        as (w2 & [(r & Hsim)|Hsim])
  end.
  2:{ rewrite Hsim in H. cbn in H. injection H as <- <-.
      discriminate Hstatus. }
  rewrite Hsim in H.
  destruct (gasUsed r) as [used|] eqn:Hused;
    cbn [ret] in H; injection H as <- <-;
    cbn [simulationStatus simulationOutput netAmount gasCostInTokenOut]
      in Hstatus |- *;
    destruct (simulateTransaction_success env _ _ _ _ _ _ _ Hsim Hstatus)
      as (l0 & l_exec & pre & post & used' & Hlog & Hexec & Hout & Hgas).
  - exists swapData, l0, l_exec, pre, post.
    repeat (split; [first [reflexivity | assumption]|]).
    apply calculateNetAmount_max.
  - congruence.
Qed.

Lemma success_reports_balance_difference_witness :
  exists swapData l0 l_exec pre post,
    q_txData Samples.quote = Some swapData
    /\ log (snd (simulateQuote (Samples.market [Samples.accepted])
                   Samples.quote Samples.tokenA Samples.usdc Samples.fresh))
       = (l0
          ++ [EvRpc (balance_request (Samples.market [Samples.accepted])
                       Samples.usdc) (RWord pre);
              EvSleep 1000;
              EvRpc (GetBytecode (to swapData)) (RCode true)]
          ++ l_exec
          ++ [EvSleep 1000;
              EvRpc (balance_request (Samples.market [Samples.accepted])
                       Samples.usdc) (RWord post)])%list
    /\ Forall submission_event l_exec
    /\ simulationOutput
         (mkSampleResult success 99500000 None (Some 150000) 374999 99125001)
       = post - pre
    /\ netAmount
         (mkSampleResult success 99500000 None (Some 150000) 374999 99125001)
       = Z.max 0
           (simulationOutput
              (mkSampleResult success 99500000 None (Some 150000) 374999
                 99125001)
            - gasCostInTokenOut
                (mkSampleResult success 99500000 None (Some 150000) 374999
                   99125001)).
Proof.
  apply (success_reports_balance_difference _
           (Samples.market [Samples.accepted]) Samples.quote Samples.tokenA
           Samples.usdc Samples.fresh).
  - vm_compute. reflexivity.
  - reflexivity.
Defined.

(** * Runs on the reference node *)

(** C1: whenever the injection returns true, a [balanceOf] read of the
    holder has answered at least the amount; but a false return does
    not leave the storage as it was.  A token whose [balanceOf] ignores
    its storage makes every strategy fail: the call returns false, and
    the fork's storage, empty before the call, keeps the words written
    by the namespaced-storage method, the total-supply method and the
    slot search, none of which restores what it wrote. *)
Theorem failed_injection_leaves_writes :
  (forall (N : Type) (env : Env N) (token holder amount : Z) (w : World N),
      exists (ok : bool) (w' : World N),
        setERC20Balance env token holder amount w = (Return ok, w')
        /\ (ok = true -> balance_confirmed token holder amount (log w')))
  /\ (let env := Samples.exotic_env in
      let run := setERC20Balance env Samples.tokenA Samples.account 1
                   Samples.fresh in
      let after := node (snd run) in
      fst run = Return false
      /\ Anvil.storage (node Samples.fresh) = ∅
      /\ Anvil.word_at after Samples.tokenA
           (mapping_key env Samples.account ERC20_NAMESPACE_ID) = 1
      /\ Anvil.word_at after Samples.tokenA 2 = 1000
      /\ Anvil.word_at after Samples.tokenA
           (mapping_key env Samples.account 0) = 1
      /\ Anvil.word_at after Samples.tokenA
           (mapping_key env Samples.account 255) = testAmount
      /\ size (Anvil.storage after) = 41%nat).
Proof.
  split.
  - intros N env token holder amount w.
    destruct (setERC20Balance_returns env token holder amount w)
      as (ok & w' & E).
    exists ok, w'. split; [exact E|].
    intros ->. exact (setERC20Balance_confirmed env _ _ _ _ _ E).
  - vm_compute. repeat split; reflexivity.
Qed.

(** C2: after a first injection has cached slot 1 for the token, the
    next sample's injection does not read the cache: it probes slot 0
    again (write and restore) before it writes slot 1, three storage
    writes instead of one. *)
Theorem repeated_injection_probes_again :
  let env := Samples.market [] in
  let first := setERC20Balance env Samples.tokenA Samples.account 10000
                 Samples.fresh in
  let again := setERC20Balance env Samples.tokenA Samples.account 10000
                 (Samples.next_sample (snd first)) in
  fst first = Return true
  /\ cache (snd first) !! Samples.tokenA = Some 1
  /\ cache (Samples.next_sample (snd first)) !! Samples.tokenA = Some 1
  /\ fst again = Return true
  /\ storage_writes (log (snd again))
     = [SetStorageAt Samples.tokenA (mapping_key env Samples.account 0) 10000;
        SetStorageAt Samples.tokenA (mapping_key env Samples.account 0) 0;
        SetStorageAt Samples.tokenA (mapping_key env Samples.account 1) 10000].
Proof. vm_compute. repeat split; reflexivity. Qed.

(** C3: a submission rejected with a timeout is resubmitted by the
    inner retry without any fork reset in between, and when the first
    submission had executed the recorded output counts both; a
    submission that outlives its deadline is not retried at all and the
    sample is recorded as an error.  The only reset of each run is the
    one before the simulation. *)
Theorem timeout_retry_does_not_reset_fork :
  let submit :=
    SendTransaction Samples.account Samples.router "0x38ed1739" 0 30000000 in
  let run subs :=
    simulateQuote (Samples.market subs) Samples.quote Samples.tokenA
      Samples.usdc Samples.fresh in
  (fst (run [Samples.rejected_timeout; Samples.accepted])
   = Return (mkSampleResult success 99500000 None (Some 150000) 374999
               99125001)
   /\ resets_and_submissions
        (log (snd (run [Samples.rejected_timeout; Samples.accepted])))
      = [Reset 100; submit; submit])
  /\ (fst (run [Samples.lost_reply; Samples.accepted])
      = Return (mkSampleResult success 199000000 None (Some 150000) 374999
                  198625001)
      /\ resets_and_submissions
           (log (snd (run [Samples.lost_reply; Samples.accepted])))
         = [Reset 100; submit; submit])
  /\ (fst (run [Samples.never_answered; Samples.accepted])
      = Return (mkSampleResult error 0
                  (Some "Transaction timed out after 600000ms") None 0 0)
      /\ resets_and_submissions
           (log (snd (run [Samples.never_answered; Samples.accepted])))
         = [Reset 100; submit]).
Proof. vm_compute. repeat split; reflexivity. Qed.

(** * More on the retry loop *)

Section RetrySchedule.
Context {T : Type}.
Variables max maxd mult : Z.
Variable sr : JsError -> bool.
Variable cb : option (Z -> JsError -> M (list (Res T)) unit).
Hypothesis cb_silent : forall f, cb = Some f -> silent f.

Lemma attempts_script_success (es : list JsError) (v : T) (rest : list (Res T)) :
  forall (fuel : nat) (a d : Z) (le : JsError) (w : World (list (Res T))),
    node w = ((Throw <$> es) ++ Return v :: rest)%list ->
    a + Z.of_nat (length es) <= max ->
    (length es < fuel)%nat ->
    Forall (fun e => sr e = true) es ->
    attempts scripted max maxd mult sr cb fuel a d le w
    = (Return v,
       mkWorld rest (cache w)
         (log w ++ (EvSleep <$> backoff_delays d mult maxd (length es)))).
Proof using cb_silent.
  induction es as [|e es IH]; intros fuel a d le w Hnode Ha Hfuel Hsr.
  - destruct fuel as [|fuel]; [cbn in Hfuel; lia|].
    cbn in Ha. erewrite attempts_return;
      [ | lia | apply scripted_cons; exact Hnode ].
    cbn. now rewrite app_nil_r.
  - destruct fuel as [|fuel]; [cbn in Hfuel; lia|].
    cbn [length] in *. inversion Hsr as [|? ? He Hes]; subst.
    erewrite attempts_again;
      [ | exact cb_silent | lia | apply scripted_cons; exact Hnode | exact He ].
    rewrite IH; [ | reflexivity | cbn [node after_sleep]; lia | lia | exact Hes ].
    cbn [after_sleep node cache log backoff_delays fmap list_fmap].
    now rewrite <- app_assoc.
Qed.

Lemma attempts_script_exhausted (es : list JsError) (e_last : JsError)
    (rest : list (Res T)) :
  forall (fuel : nat) (a d : Z) (le : JsError) (w : World (list (Res T))),
    node w = ((Throw <$> es) ++ Throw e_last :: rest)%list ->
    a + Z.of_nat (length es) = max ->
    (length es < fuel)%nat ->
    Forall (fun e => sr e = true) es ->
    attempts scripted max maxd mult sr cb fuel a d le w
    = (Throw e_last,
       mkWorld rest (cache w)
         (log w ++ (EvSleep <$> backoff_delays d mult maxd (length es)))).
Proof using cb_silent.
  induction es as [|e es IH]; intros fuel a d le w Hnode Ha Hfuel Hsr.
  - destruct fuel as [|fuel]; [cbn in Hfuel; lia|].
    cbn in Ha. erewrite attempts_give_up;
      [ | lia | apply scripted_cons; exact Hnode | ].
    + cbn. now rewrite app_nil_r.
    + destruct (Z.eqb_spec a max); [reflexivity | lia].
  - destruct fuel as [|fuel]; [cbn in Hfuel; lia|].
    cbn [length] in *. inversion Hsr as [|? ? He Hes]; subst.
    erewrite attempts_again;
      [ | exact cb_silent | lia | apply scripted_cons; exact Hnode | exact He ].
    rewrite IH; [ | reflexivity | cbn [node after_sleep]; lia | lia | exact Hes ].
    cbn [after_sleep node cache log backoff_delays fmap list_fmap].
    now rewrite <- app_assoc.
Qed.

Lemma scripted_nil (w : World (list (Res T))) :
  node w = [] -> scripted w = (Throw (Error "script exhausted"), w).
Proof. intros H. unfold scripted. now rewrite H. Qed.

Lemma attempts_script_bounded :
  forall (fuel : nat) (a d : Z) (le : JsError) (w : World (list (Res T))),
    a + Z.of_nat fuel = max + 1 ->
    let w' := snd (attempts scripted max maxd mult sr cb fuel a d le w) in
    (invocations w w' <= fuel)%nat
    /\ cache w' = cache w
    /\ exists k, (k <= fuel - 1)%nat
         /\ log w' = (log w ++ (EvSleep <$> backoff_delays d mult maxd k))%list.
Proof using cb_silent.
  assert (Hcb : forall a e w0, match cb with
                | Some f => f a e
                | None => ret tt
                end w0 = (Return tt, w0)).
  { intros a e w0. destruct cb as [f|] eqn:E;
      [now apply cb_silent | reflexivity]. }
  assert (Hgo : forall a e d (k : M (list (Res T)) T) w0,
             (match cb with
              | Some f => f a e
              | None => ret tt
              end ;;; sleep d ;;; k) w0 = k (after_sleep d w0)).
  { intros a e d k w0. unfold bind. now rewrite Hcb. }
  assert (Hstay : forall (w : World (list (Res T))) d0 n,
             (invocations w w <= n)%nat
             /\ cache w = cache w
             /\ exists k, (k <= n - 1)%nat
                  /\ log w
                     = (log w ++ (EvSleep <$> backoff_delays d0 mult maxd k))%list).
  { intros w d0 n. unfold invocations. split; [lia|]. split; [reflexivity|].
    exists 0%nat. split; [lia|]. cbn. now rewrite app_nil_r. }
  induction fuel as [|fuel IH]; intros a d le w Hinv; cbn [attempts];
    destruct (a <=? max); cbn [throw snd]; cbv zeta;
    try apply Hstay.
  unfold try_catch.
  destruct (node w) as [|[v|e] rest] eqn:Hnode.
  - rewrite (scripted_nil w Hnode).
    destruct ((a =? max) || negb (sr (Error "script exhausted"))) eqn:Hstop;
      cbn [throw snd]; [apply Hstay|].
    rewrite Hgo. unfold after_sleep.
    match goal with
    | |- context [attempts _ _ _ _ _ _ fuel ?a' ?d' ?le' ?w'] =>
        destruct (IH a' d' le' w' ltac:(lia)) as (IHn & IHc & k & Hk & IHl)
    end.
    cbn [node cache log] in *.
    split; [unfold invocations in *; cbn [node] in *; lia|].
    split; [exact IHc|].
    destruct fuel as [|fuel'].
    + exfalso. apply orb_false_iff in Hstop. destruct Hstop as [Hne _].
      apply Z.eqb_neq in Hne. cbn in Hinv. lia.
    + exists (S k). split; [lia|].
      rewrite IHl. cbn [backoff_delays fmap list_fmap].
      now rewrite <- app_assoc.
  - rewrite (scripted_cons w _ _ Hnode). cbn [snd cache log].
    split; [unfold invocations; cbn [node]; rewrite Hnode; cbn [length]; lia|].
    split; [reflexivity|].
    exists 0%nat. split; [lia|]. cbn. now rewrite app_nil_r.
  - rewrite (scripted_cons w _ _ Hnode).
    destruct ((a =? max) || negb (sr e)) eqn:Hstop; cbn [throw snd cache log].
    + split; [unfold invocations; cbn [node]; rewrite Hnode; cbn [length]; lia|].
      split; [reflexivity|].
      exists 0%nat. split; [lia|]. cbn. now rewrite app_nil_r.
    + rewrite Hgo. unfold after_sleep.
      match goal with
      | |- context [attempts _ _ _ _ _ _ fuel ?a' ?d' ?le' ?w'] =>
          destruct (IH a' d' le' w' ltac:(lia)) as (IHn & IHc & k & Hk & IHl)
      end.
      cbn [node cache log] in *.
      split; [unfold invocations in *; cbn [node] in *; rewrite Hnode;
              cbn [length]; lia|].
      split; [exact IHc|].
      destruct fuel as [|fuel'].
      * exfalso. apply orb_false_iff in Hstop. destruct Hstop as [Hne _].
        apply Z.eqb_neq in Hne. cbn in Hinv. lia.
      * exists (S k). split; [lia|].
        rewrite IHl. cbn [backoff_delays fmap list_fmap].
        now rewrite <- app_assoc.
Qed.
End RetrySchedule.

(** X1: an operation that fails [k] times with errors the classifier
    accepts and then succeeds, with [k] below [maxAttempts], is invoked
    exactly [k + 1] times; its value is returned after exactly the [k]
    pauses of the backoff schedule. *)
Theorem retry_succeeds_after_failures :
  forall (T : Type) (options : RetryOptions (list (Res T)))
         (w : World (list (Res T))) (es : list JsError) (v : T)
         (rest : list (Res T)),
    quiet_options options ->
    node w = ((Throw <$> es) ++ Return v :: rest)%list ->
    Z.of_nat (length es) < effective_maxAttempts options ->
    Forall (fun e => effective_shouldRetry options e = true) es ->
    let w' := mkWorld rest (cache w) (log w ++ pauses options (length es)) in
    retryWithBackoff scripted options w = (Return v, w')
    /\ invocations w w' = S (length es).
Proof.
  intros T options w es v rest Hq Hnode Hlen Hsr w'. split.
  - unfold retryWithBackoff. cbv zeta.
    apply attempts_script_success; try assumption.
    + unfold effective_maxAttempts in Hlen. lia.
    + unfold effective_maxAttempts in Hlen. lia.
  - unfold invocations, w'. cbn [node]. rewrite Hnode, length_app, length_fmap.
    cbn [length]. lia.
Qed.

Lemma retry_succeeds_after_failures_witness :
  retryWithBackoff scripted Samples.three_attempts Samples.flaky_twice
  = (Return 42,
     mkWorld [] (cache Samples.flaky_twice)
       (log Samples.flaky_twice ++ pauses Samples.three_attempts 2))
  /\ invocations Samples.flaky_twice
       (mkWorld [] (cache Samples.flaky_twice)
          (log Samples.flaky_twice ++ pauses Samples.three_attempts 2))
     = 3%nat.
Proof.
  apply (retry_succeeds_after_failures Z Samples.three_attempts
           Samples.flaky_twice
           [Error "socket timeout"; Error "network down"] 42 []).
  - intros cb H. discriminate H.
  - reflexivity.
  - vm_compute. reflexivity.
  - repeat constructor.
Defined.

(** X2: when [maxAttempts] is at least 1 and the first [maxAttempts]
    invocations all fail, the errors before the last being accepted by
    the classifier, the operation is invoked exactly [maxAttempts] times
    and the error of the last invocation is rethrown, whatever the
    classifier says of it, after [maxAttempts - 1] pauses and with no
    pause after the last failure. *)
Theorem retry_exhausted_rethrows_last :
  forall (T : Type) (options : RetryOptions (list (Res T)))
         (w : World (list (Res T))) (es : list JsError) (e_last : JsError)
         (rest : list (Res T)),
    quiet_options options ->
    node w = ((Throw <$> es) ++ Throw e_last :: rest)%list ->
    Z.of_nat (length es) + 1 = effective_maxAttempts options ->
    Forall (fun e => effective_shouldRetry options e = true) es ->
    let w' := mkWorld rest (cache w) (log w ++ pauses options (length es)) in
    retryWithBackoff scripted options w = (Throw e_last, w')
    /\ Z.of_nat (invocations w w') = effective_maxAttempts options.
Proof.
  intros T options w es e_last rest Hq Hnode Hlen Hsr w'. split.
  - unfold retryWithBackoff. cbv zeta.
    apply attempts_script_exhausted; try assumption.
    + unfold effective_maxAttempts in Hlen. lia.
    + unfold effective_maxAttempts in Hlen. lia.
  - unfold invocations, w'. cbn [node]. rewrite Hnode, length_app, length_fmap.
    cbn [length]. lia.
Qed.

Lemma retry_exhausted_rethrows_last_witness :
  retryWithBackoff scripted Samples.three_attempts MoreSamples.always_failing
  = (Throw (Error "Boom: invalid opcode"),
     mkWorld [Return 42] (cache MoreSamples.always_failing)
       (log MoreSamples.always_failing ++ pauses Samples.three_attempts 2))
  /\ Z.of_nat
       (invocations MoreSamples.always_failing
          (mkWorld [Return 42] (cache MoreSamples.always_failing)
             (log MoreSamples.always_failing
              ++ pauses Samples.three_attempts 2)))
     = effective_maxAttempts Samples.three_attempts.
Proof.
  apply (retry_exhausted_rethrows_last Z Samples.three_attempts
           MoreSamples.always_failing
           [Error "socket timeout"; Error "network down"]
           (Error "Boom: invalid opcode") [Return 42]).
  - intros cb H. discriminate H.
  - reflexivity.
  - vm_compute. reflexivity.
  - repeat constructor.
Defined.

(** X3: whatever the operation does, [retryWithBackoff] invokes it at
    most [maxAttempts] times, pauses at most [maxAttempts - 1] times and
    only along the backoff schedule, and leaves the slot cache alone;
    with [maxAttempts <= 0] the operation is never invoked and the
    value thrown is [undefined]. *)
Theorem retry_is_bounded :
  forall (T : Type) (options : RetryOptions (list (Res T)))
         (w : World (list (Res T))),
    quiet_options options ->
    let run := retryWithBackoff scripted options w in
    (invocations w (snd run) <= Z.to_nat (effective_maxAttempts options))%nat
    /\ cache (snd run) = cache w
    /\ (exists k,
           (k <= Z.to_nat (effective_maxAttempts options) - 1)%nat
           /\ log (snd run) = (log w ++ pauses options k)%list)
    /\ (effective_maxAttempts options <= 0 -> run = (Throw undefined, w)).
Proof.
  intros T options w Hq run.
  assert (Hzero : effective_maxAttempts options <= 0 ->
                  run = (Throw undefined, w)).
  { intros Hle. unfold run, retryWithBackoff. cbv zeta.
    unfold effective_maxAttempts in Hle.
    replace (Z.to_nat (default DEFAULT_maxAttempts (maxAttempts options)))
      with 0%nat by lia.
    cbn [attempts].
    destruct (Z.leb_spec 1 (default DEFAULT_maxAttempts (maxAttempts options)));
      [lia | reflexivity]. }
  destruct (Z.le_gt_cases (effective_maxAttempts options) 0) as [Hle|Hgt].
  - rewrite (Hzero Hle). cbn [snd]. unfold invocations.
    split; [lia|]. split; [reflexivity|]. split; [|auto].
    exists 0%nat. split; [lia|]. cbn. now rewrite app_nil_r.
  - unfold run, retryWithBackoff. cbv zeta.
    unfold effective_maxAttempts in Hgt |- *.
    match goal with
    | |- context [attempts ?fn ?mx ?md ?mu ?s ?c ?fuel ?a ?d ?le w] =>
        destruct (attempts_script_bounded mx md mu s c Hq fuel a d le w
                    ltac:(lia)) as (Hn & Hc & k & Hk & Hl)
    end.
    split; [exact Hn|]. split; [exact Hc|]. split; [|lia].
    exists k. split; [exact Hk | exact Hl].
Qed.

Lemma retry_is_bounded_witness :
  let run := retryWithBackoff scripted Samples.three_attempts
               MoreSamples.always_failing in
  (invocations MoreSamples.always_failing (snd run)
   <= Z.to_nat (effective_maxAttempts Samples.three_attempts))%nat
  /\ cache (snd run) = cache MoreSamples.always_failing
  /\ (exists k,
         (k <= Z.to_nat (effective_maxAttempts Samples.three_attempts) - 1)%nat
         /\ log (snd run)
            = (log MoreSamples.always_failing
               ++ pauses Samples.three_attempts k)%list)
  /\ (effective_maxAttempts Samples.three_attempts <= 0 ->
      run = (Throw undefined, MoreSamples.always_failing)).
Proof.
  apply (retry_is_bounded Z Samples.three_attempts MoreSamples.always_failing).
  intros cb H. discriminate H.
Defined.

Lemma backoff_delays_capped (x mult maxd : Z) (k : nat) :
  Forall (fun ms => ms <= maxd) (backoff_delays (Z.min x maxd) mult maxd k).
Proof.
  revert x. induction k as [|k IH]; intros x; cbn [backoff_delays];
    constructor; [lia | apply IH].
Qed.

(** X4: whatever the operation does, the pauses of a run are the
    initial delay first, even when it exceeds [maxDelay], and then
    pauses that are each at most [maxDelay]. *)
Theorem retry_pauses_are_capped :
  forall (T : Type) (options : RetryOptions (list (Res T)))
         (w : World (list (Res T))),
    quiet_options options ->
    let run := retryWithBackoff scripted options w in
    log (snd run) = log w
    \/ exists later,
         log (snd run)
         = (log w ++ EvSleep (effective_initialDelay options)
                     :: (EvSleep <$> later))%list
         /\ Forall (fun ms => ms <= effective_maxDelay options) later.
Proof.
  intros T options w Hq run.
  destruct (Z.le_gt_cases (effective_maxAttempts options) 0) as [Hle|Hgt].
  - left. unfold run, retryWithBackoff. cbv zeta.
    unfold effective_maxAttempts in Hle.
    replace (Z.to_nat (default DEFAULT_maxAttempts (maxAttempts options)))
      with 0%nat by lia.
    cbn [attempts].
    destruct (Z.leb_spec 1 (default DEFAULT_maxAttempts (maxAttempts options)));
      [lia | reflexivity].
  - unfold run, retryWithBackoff. cbv zeta.
    unfold effective_maxAttempts in Hgt.
    match goal with
    | |- context [attempts ?fn ?mx ?md ?mu ?s ?c ?fuel ?a ?d ?le w] =>
        destruct (attempts_script_bounded mx md mu s c Hq fuel a d le w
                    ltac:(lia)) as (_ & _ & k & _ & Hl)
    end.
    destruct k as [|k].
    + left. rewrite Hl. cbn. now rewrite app_nil_r.
    + right. eexists. split; [rewrite Hl; reflexivity|].
      apply backoff_delays_capped.
Qed.

Lemma retry_pauses_are_capped_witness :
  let run := retryWithBackoff scripted MoreSamples.capped
               MoreSamples.always_failing in
  log (snd run) = log MoreSamples.always_failing
  \/ exists later,
       log (snd run)
       = (log MoreSamples.always_failing
          ++ EvSleep (effective_initialDelay MoreSamples.capped)
             :: (EvSleep <$> later))%list
       /\ Forall (fun ms => ms <= effective_maxDelay MoreSamples.capped) later.
Proof.
  apply (retry_pauses_are_capped Z MoreSamples.capped
           MoreSamples.always_failing).
  intros cb H. discriminate H.
Defined.

(** * Batches *)

Lemma js_slice_window {A} (l : list A) (i size : Z) :
  0 <= i -> 0 < size ->
  js_slice i (i + size) l
  = take (Z.to_nat (Z.min (i + size) (Z.of_nat (length l)) - Z.min i (Z.of_nat (length l))))
      (drop (Z.to_nat (Z.min i (Z.of_nat (length l)))) l).
Proof.
  intros Hi Hs. unfold js_slice. cbv zeta.
  destruct (Z.ltb_spec i 0); [lia|].
  destruct (Z.ltb_spec (i + size) 0); [lia|]. reflexivity.
Qed.

Lemma js_slice_empty {A} (l : list A) (i : Z) : js_slice i i l = [].
Proof.
  unfold js_slice. cbv zeta. now rewrite Z.sub_diag.
Qed.

Section BatchFacts.
Context {N T R : Type}.
Variable operation : T -> M N R.
Variables size dBatches dItems : Z.
Variable f : T -> R.
Hypothesis operation_returns :
  forall item w, exists w', operation item w = (Return (f item), w').

Lemma batch_items_all (batch : list T) :
  forall results w,
    exists w',
      batch_items operation dItems batch results w
      = (Return (results ++ (f <$> batch))%list, w').
Proof using operation_returns.
  induction batch as [|item rest IH]; intros results w; cbn [batch_items].
  - exists w. cbn. now rewrite app_nil_r.
  - destruct (operation_returns item w) as (w1 & E).
    unfold bind at 1, try_catch, bind at 1. rewrite E.
    destruct (0 <? dItems); cbn [sleep emit ret bind];
      match goal with
      | |- context [batch_items _ _ rest ?r ?w0] =>
          destruct (IH r w0) as (w2 & E2)
      end;
      exists w2; unfold bind; cbn; rewrite E2, <- app_assoc; reflexivity.
Qed.

Lemma batch_loop_all (items : list T) :
  0 < size ->
  forall (fuel : nat) (i : Z) w,
    0 <= i ->
    (length items <= fuel + Z.to_nat i)%nat ->
    exists w',
      batch_loop operation size dBatches dItems items fuel i
        (f <$> take (Z.to_nat i) items) w
      = (Return (Some (f <$> items)), w').
Proof using operation_returns.
  intros Hsize. induction fuel as [|fuel IH]; intros i w Hi Hfuel;
    cbn [batch_loop]; destruct (Z.ltb_spec i (Z.of_nat (length items))).
  - lia.
  - exists w. rewrite take_ge by lia. reflexivity.
  - rewrite js_slice_window by lia.
    destruct (batch_items_all
                (take (Z.to_nat (Z.min (i + size) (Z.of_nat (length items))
                                 - Z.min i (Z.of_nat (length items))))
                   (drop (Z.to_nat (Z.min i (Z.of_nat (length items)))) items))
                (f <$> take (Z.to_nat i) items) w) as (w1 & E).
    unfold bind at 1. rewrite E.
    assert (Hres :
      ((f <$> take (Z.to_nat i) items)
       ++ (f <$> take (Z.to_nat (Z.min (i + size) (Z.of_nat (length items))
                                 - Z.min i (Z.of_nat (length items))))
                   (drop (Z.to_nat (Z.min i (Z.of_nat (length items)))) items)))%list
      = f <$> take (Z.to_nat (i + size)) items).
    { rewrite <- fmap_app. f_equal.
      replace (Z.min i (Z.of_nat (length items))) with i by lia.
      rewrite <- (take_drop (Z.to_nat i) (take (Z.to_nat (i + size)) items)).
      rewrite take_take, skipn_firstn_comm.
      replace (Z.to_nat i `min` Z.to_nat (i + size))%nat with (Z.to_nat i)
        by lia.
      f_equal.
      destruct (Z.le_gt_cases (i + size) (Z.of_nat (length items))).
      - replace (Z.min (i + size) (Z.of_nat (length items))) with (i + size)
          by lia.
        f_equal. lia.
      - replace (Z.min (i + size) (Z.of_nat (length items)))
          with (Z.of_nat (length items)) by lia.
        rewrite !take_ge; [reflexivity | rewrite length_drop; lia
                          | rewrite length_drop; lia]. }
    rewrite Hres.
    assert (Hpause : exists w2,
      (if (i + size <? Z.of_nat (length items)) && (0 <? dBatches)
       then sleep dBatches else ret tt) w1 = (Return tt, w2)).
    { destruct ((i + size <? Z.of_nat (length items)) && (0 <? dBatches));
        eexists; reflexivity. }
    destruct Hpause as (w2 & E2).
    unfold bind at 1. rewrite E2.
    apply IH; lia.
  - exists w. rewrite take_ge by lia. reflexivity.
Qed.
End BatchFacts.

Section BatchScript.
Context {T R : Type}.
Variables size dBatches dItems : Z.
Variable e : JsError.

Lemma batch_items_script (batch : list T) :
  forall (results vs : list R) (tail : list (Res R))
         (w : World (list (Res R))),
    node w = ((Return <$> vs) ++ tail)%list ->
    ((length batch <= length vs)%nat ->
     exists l,
       batch_items (fun _ : T => scripted) dItems batch results w
       = (Return (results ++ take (length batch) vs)%list,
          mkWorld ((Return <$> drop (length batch) vs) ++ tail)%list (cache w)
            (log w ++ l)))
    /\ ((length vs < length batch)%nat ->
        forall rest, tail = Throw e :: rest ->
        exists l,
          batch_items (fun _ : T => scripted) dItems batch results w
          = (Throw e, mkWorld rest (cache w) (log w ++ l))).
Proof.
  induction batch as [|item batch IH]; intros results vs tail w Hnode.
  - split.
    + intros _. exists []. cbn. rewrite !app_nil_r, drop_0, <- Hnode.
      now destruct w.
    + cbn. lia.
  - destruct vs as [|v vs].
    + split; [cbn; lia|]. intros _ rest ->. cbn in Hnode.
      exists []. cbn [batch_items]. unfold bind at 1, try_catch, bind at 1.
      rewrite (scripted_cons w _ _ Hnode). cbn. now rewrite app_nil_r.
    + cbn in Hnode.
      assert (Hstep : exists l1,
        try_catch
          (result <- scripted ;;
           (if 0 <? dItems then sleep dItems else ret tt) ;;; ret result)
          (fun error => throw error) w
        = (Return v, mkWorld ((Return <$> vs) ++ tail)%list (cache w)
                       (log w ++ l1))).
      { unfold try_catch, bind at 1. rewrite (scripted_cons w _ _ Hnode).
        destruct (0 <? dItems).
        - exists [EvSleep dItems]. reflexivity.
        - exists []. cbn. now rewrite app_nil_r. }
      destruct Hstep as (l1 & E).
      destruct (IH (results ++ [v])%list vs tail
                  (mkWorld ((Return <$> vs) ++ tail)%list (cache w)
                     (log w ++ l1)) eq_refl) as [IHok IHbad].
      split.
      * intros Hlen. cbn [length] in Hlen.
        destruct (IHok ltac:(lia)) as (l2 & E2).
        exists (l1 ++ l2)%list. cbn [batch_items]. unfold bind at 1.
        rewrite E, E2. cbn [cache log length take drop].
        now rewrite <- !app_assoc.
      * intros Hlen rest Htail. cbn [length] in Hlen.
        destruct (IHbad ltac:(lia) rest Htail) as (l2 & E2).
        exists (l1 ++ l2)%list. cbn [batch_items]. unfold bind at 1.
        rewrite E, E2. cbn [cache log]. now rewrite <- !app_assoc.
Qed.

Lemma batch_loop_script (items : list T) (rest : list (Res R)) :
  0 < size ->
  forall (fuel : nat) (i : Z) (results vs : list R)
         (w : World (list (Res R))),
    0 <= i ->
    (length items <= fuel + Z.to_nat i)%nat ->
    node w = ((Return <$> vs) ++ Throw e :: rest)%list ->
    (Z.to_nat i + length vs < length items)%nat ->
    exists l,
      batch_loop (fun _ : T => scripted) size dBatches dItems items fuel i
        results w
      = (Throw e, mkWorld rest (cache w) (log w ++ l)).
Proof.
  intros Hsize. induction fuel as [|fuel IH];
    intros i results vs w Hi Hfuel Hnode Hvs;
    cbn [batch_loop]; destruct (Z.ltb_spec i (Z.of_nat (length items)));
    try lia.
  rewrite js_slice_window by lia.
  replace (Z.min i (Z.of_nat (length items))) with i by lia.
  set (batch := take _ (drop (Z.to_nat i) items)).
  assert (Hbatch : length batch
                   = Z.to_nat (Z.min (i + size) (Z.of_nat (length items)) - i)).
  { unfold batch. rewrite length_take, length_drop. lia. }
  destruct (batch_items_script batch results vs (Throw e :: rest) w Hnode)
    as [Hok Hbad].
  destruct (Nat.le_gt_cases (length batch) (length vs)) as [Hle|Hgt].
  - destruct (Hok Hle) as (l1 & E). unfold bind at 1. rewrite E.
    assert (Hpause : exists l2,
      (if (i + size <? Z.of_nat (length items)) && (0 <? dBatches)
       then sleep dBatches else ret tt)
        (mkWorld ((Return <$> drop (length batch) vs) ++ Throw e :: rest)%list
           (cache w) (log w ++ l1))
      = (Return tt,
         mkWorld ((Return <$> drop (length batch) vs) ++ Throw e :: rest)%list
           (cache w) (log w ++ l1 ++ l2))).
    { destruct ((i + size <? Z.of_nat (length items)) && (0 <? dBatches)).
      - exists [EvSleep dBatches]. unfold sleep, emit. cbn [node cache log].
        now rewrite <- app_assoc.
      - exists []. unfold ret. now rewrite !app_nil_r. }
    destruct Hpause as (l2 & E2). unfold bind at 1. rewrite E2.
    destruct (IH (i + size) (results ++ take (length batch) vs)%list
                (drop (length batch) vs)
                (mkWorld
                   ((Return <$> drop (length batch) vs) ++ Throw e :: rest)%list
                   (cache w) (log w ++ l1 ++ l2)))
      as (l3 & E3); [lia | lia | reflexivity | rewrite length_drop; lia |].
    exists (l1 ++ l2 ++ l3)%list. rewrite E3. cbn [cache log].
    now rewrite <- !app_assoc.
  - destruct (Hbad Hgt rest eq_refl) as (l1 & E).
    exists l1. unfold bind at 1. now rewrite E.
Qed.
End BatchScript.

(** X5: with a positive batch size and an operation that returns on
    every item, [batchWithRateLimit] finishes within one iteration per
    item and returns the results of all the items in the order of the
    input. *)
Theorem batch_returns_results_in_order :
  forall (N T R : Type) (operation : T -> M N R) (f : T -> R)
         (items : list T) (options : BatchOptions) (w : World N),
    0 < default 5 (batchSize options) ->
    (forall item w0, exists w1, operation item w0 = (Return (f item), w1)) ->
    exists w',
      batchWithRateLimit (length items) items operation options w
      = (Return (Some (f <$> items)), w').
Proof.
  intros N T R operation f items options w Hsize Hop.
  unfold batchWithRateLimit.
  apply (batch_loop_all operation (default 5 (batchSize options))
           (default 1000 (delayBetweenBatches options))
           (default 100 (delayBetweenItems options)) f Hop items Hsize
           (length items) 0 w); lia.
Qed.

Lemma batch_returns_results_in_order_witness :
  exists w',
    batchWithRateLimit 7 [1; 2; 3; 4; 5; 6; 7] MoreSamples.doubling
      MoreSamples.default_batches MoreSamples.blank
    = (Return (Some ((fun x => 2 * x) <$> [1; 2; 3; 4; 5; 6; 7])), w').
Proof.
  apply (batch_returns_results_in_order unit Z Z MoreSamples.doubling
           (fun x => 2 * x) [1; 2; 3; 4; 5; 6; 7]
           MoreSamples.default_batches MoreSamples.blank).
  - reflexivity.
  - intros item w0. exists w0. reflexivity.
Defined.

(** X6: with a positive batch size, when the first failure of the
    operation comes while items remain, [batchWithRateLimit] rethrows
    that error and the operation is not invoked for the items after it:
    invoked [k + 1] times when the first [k] invocations succeeded. *)
Theorem batch_stops_at_first_failure :
  forall (T R : Type) (items : list T) (options : BatchOptions)
         (vs : list R) (e : JsError) (rest : list (Res R))
         (w : World (list (Res R))),
    0 < default 5 (batchSize options) ->
    node w = ((Return <$> vs) ++ Throw e :: rest)%list ->
    (length vs < length items)%nat ->
    exists l,
      batchWithRateLimit (length items) items (fun _ : T => scripted) options w
      = (Throw e, mkWorld rest (cache w) (log w ++ l))
      /\ invocations w (mkWorld rest (cache w) (log w ++ l)) = S (length vs).
Proof.
  intros T R items options vs e rest w Hsize Hnode Hlen.
  unfold batchWithRateLimit.
  destruct (batch_loop_script (default 5 (batchSize options))
              (default 1000 (delayBetweenBatches options))
              (default 100 (delayBetweenItems options))
              e items rest Hsize (length items) 0 []
              vs w ltac:(lia) ltac:(lia) Hnode ltac:(cbn; lia)) as (l & E).
  exists l. split; [exact E|].
  unfold invocations. cbn [node]. rewrite Hnode, length_app, length_fmap.
  cbn [length]. lia.
Qed.

Lemma batch_stops_at_first_failure_witness :
  exists l,
    batchWithRateLimit 4 [1; 2; 3; 4] (fun _ : Z => scripted)
      MoreSamples.default_batches MoreSamples.fails_third
    = (Throw Samples.boom,
       mkWorld [Return 40] (cache MoreSamples.fails_third)
         (log MoreSamples.fails_third ++ l))
    /\ invocations MoreSamples.fails_third
         (mkWorld [Return 40] (cache MoreSamples.fails_third)
            (log MoreSamples.fails_third ++ l))
       = 3%nat.
Proof.
  apply (batch_stops_at_first_failure Z Z [1; 2; 3; 4]
           MoreSamples.default_batches [10; 20] Samples.boom [Return 40]
           MoreSamples.fails_third).
  - reflexivity.
  - reflexivity.
  - cbn. lia.
Defined.

(** X7: with batch size 0 and at least one item the loop never
    advances: however many iterations it is given it has not finished
    and the operation is never invoked.  Its only effect is the pause
    between batches: exactly one per iteration when
    [delayBetweenBatches] is positive (1000 ms by default), none at all
    when it is zero or negative. *)
Theorem batch_size_zero_never_finishes :
  forall (N T R : Type) (operation : T -> M N R) (items : list T)
         (options : BatchOptions) (w : World N) (fuel : nat),
    default 5 (batchSize options) = 0 ->
    items <> [] ->
    let d := default 1000 (delayBetweenBatches options) in
    batchWithRateLimit fuel items operation options w
    = (Return None,
       mkWorld (node w) (cache w)
         (log w ++ (if 0 <? d then replicate fuel (EvSleep d) else [])))
    /\ batch_items operation (default 100 (delayBetweenItems options))
         (js_slice 0 (0 + default 5 (batchSize options)) items) [] w
       = (Return [], w).
Proof.
  intros N T R operation items options w fuel Hsize Hitems d.
  split; [|now rewrite Hsize, js_slice_empty].
  unfold batchWithRateLimit. rewrite Hsize. fold d.
  assert (Hlen : 0 < Z.of_nat (length items)).
  { destruct items; [congruence | cbn; lia]. }
  revert w. induction fuel as [|fuel IH]; intros w; cbn [batch_loop];
    destruct (Z.ltb_spec 0 (Z.of_nat (length items))); try lia.
  - cbn [replicate]. destruct (0 <? d); rewrite app_nil_r; now destruct w.
  - rewrite Z.add_0_r, js_slice_empty. cbn [batch_items].
    unfold bind at 1. cbn [ret].
    destruct (Z.ltb_spec 0 (Z.of_nat (length items))); try lia.
    cbn [andb].
    destruct (0 <? d) eqn:Hd.
    + unfold bind at 1. cbn [sleep emit]. rewrite IH.
      cbn [node cache log replicate]. now rewrite <- app_assoc.
    + unfold bind at 1. cbn [ret]. now rewrite IH.
Qed.

Lemma batch_size_zero_never_finishes_witness :
  let d := default 1000 (delayBetweenBatches MoreSamples.stuck_batches) in
  batchWithRateLimit 1000 [1; 2; 3] MoreSamples.doubling
    MoreSamples.stuck_batches MoreSamples.blank
  = (Return None,
     mkWorld (node MoreSamples.blank) (cache MoreSamples.blank)
       (log MoreSamples.blank
        ++ (if 0 <? d then replicate 1000 (EvSleep d) else [])))
  /\ batch_items MoreSamples.doubling
       (default 100 (delayBetweenItems MoreSamples.stuck_batches))
       (js_slice 0 (0 + default 5 (batchSize MoreSamples.stuck_batches))
          [1; 2; 3]) [] MoreSamples.blank
     = (Return [], MoreSamples.blank).
Proof.
  apply (batch_size_zero_never_finishes unit Z Z MoreSamples.doubling
           [1; 2; 3] MoreSamples.stuck_batches MoreSamples.blank 1000).
  - reflexivity.
  - discriminate.
Defined.

(** * Substrings *)

Lemma prefix_stop (c : ascii) (p a b : string) :
  occurs c p = false ->
  String.prefix p (a ++ String c b) = String.prefix p a.
Proof.
  revert a. induction p as [|p0 p IH]; intros a Hc.
  - now destruct a.
  - cbn [occurs] in Hc. apply orb_false_iff in Hc. destruct Hc as [Hc0 Hc].
    destruct a as [|x a]; simpl.
    + destruct (ascii_dec p0 c) as [->|]; [|reflexivity].
      now rewrite Ascii.eqb_refl in Hc0.
    + destruct (ascii_dec p0 x); [now apply IH | reflexivity].
Qed.

Lemma includes_empty (p0 : ascii) (p : string) :
  includes (String p0 p) "" = false.
Proof. reflexivity. Qed.

Lemma includes_cons (p : string) (x : ascii) (s : string) :
  includes p (String x s) = String.prefix p (String x s) || includes p s.
Proof. reflexivity. Qed.

Lemma includes_split (c : ascii) (p0 : ascii) (p a b : string) :
  occurs c (String p0 p) = false ->
  includes (String p0 p) (a ++ String c b)
  = includes (String p0 p) a || includes (String p0 p) b.
Proof.
  intros Hc. induction a as [|x a IH].
  - change ("" ++ String c b) with (String c b).
    rewrite includes_cons, includes_empty.
    change (String c b) with ("" ++ String c b).
    rewrite (prefix_stop c _ "" b Hc). reflexivity.
  - change (String x a ++ String c b) with (String x (a ++ String c b)).
    rewrite !includes_cons, IH.
    change (String x (a ++ String c b)) with (String x a ++ String c b).
    rewrite (prefix_stop c _ (String x a) b Hc).
    now rewrite orb_assoc.
Qed.

Lemma includes_gap (p0 : ascii) (p d a b : string) :
  (forall c, occurs c d = true -> occurs c (String p0 p) = false) ->
  d <> "" ->
  includes (String p0 p) (a ++ d ++ b)
  = includes (String p0 p) a || includes (String p0 p) b.
Proof.
  intros Hd Hne.
  assert (Htail : forall d', (forall c, occurs c d' = true ->
                                 occurs c (String p0 p) = false) ->
                  includes (String p0 p) (d' ++ b) = includes (String p0 p) b).
  { induction d' as [|c d' IH]; intros Hd'; [reflexivity|].
    change (String c d' ++ b) with ("" ++ String c (d' ++ b)).
    rewrite includes_split, includes_empty.
    - apply IH. intros c' Hc'. apply Hd'. cbn [occurs]. rewrite Hc'.
      apply orb_true_r.
    - apply Hd'. cbn [occurs]. now rewrite Ascii.eqb_refl. }
  destruct d as [|c d]; [congruence|].
  change (a ++ String c d ++ b) with (a ++ String c (d ++ b)).
  rewrite includes_split.
  - f_equal. apply Htail. intros c' Hc'. apply Hd. cbn [occurs]. rewrite Hc'.
    apply orb_true_r.
  - apply Hd. cbn [occurs]. now rewrite Ascii.eqb_refl.
Qed.

Lemma toLowerCase_app (a b : string) :
  toLowerCase (a ++ b) = toLowerCase a ++ toLowerCase b.
Proof.
  induction a as [|x a IH]; [reflexivity|].
  change (String (lower_ascii x) (toLowerCase (a ++ b))
          = String (lower_ascii x) (toLowerCase a ++ toLowerCase b)).
  now rewrite IH.
Qed.

Lemma numeric_char (c : ascii) :
  occurs c "0123456789-" = true ->
  lower_ascii c = c
  /\ Forall (fun pat => occurs c pat = false) recognized_patterns.
Proof.
  destruct c as [[|] [|] [|] [|] [|] [|] [|] [|]]; cbn; try discriminate;
    intros _; (split; [reflexivity | repeat constructor]).
Qed.

Lemma toLowerCase_numeric (d : string) :
  numeric d = true -> toLowerCase d = d.
Proof.
  induction d as [|c d IH]; [reflexivity|]. cbn [numeric toLowerCase].
  intros H. apply andb_true_iff in H. destruct H as [Hc Hd].
  destruct (numeric_char c Hc) as [-> _]. now rewrite IH.
Qed.

Lemma numeric_free (d pat : string) :
  numeric d = true -> In pat recognized_patterns ->
  forall c, occurs c d = true -> occurs c pat = false.
Proof.
  intros Hd Hpat. induction d as [|x d IH]; intros c Hc; [discriminate Hc|].
  cbn [numeric] in Hd. apply andb_true_iff in Hd. destruct Hd as [Hx Hd].
  cbn [occurs] in Hc. apply orb_true_iff in Hc. destruct Hc as [Hc|Hc].
  - apply Ascii.eqb_eq in Hc. subst c.
    destruct (numeric_char x Hx) as [_ Hall].
    rewrite Forall_forall in Hall. apply Hall.
    now apply list_elem_of_In.
  - now apply IH.
Qed.

Lemma string_of_uint_numeric (d : Decimal.uint) :
  numeric (NilEmpty.string_of_uint d) = true.
Proof. induction d; cbn; auto. Qed.

Lemma show_numeric (z : Z) : numeric (show z) = true /\ show z <> "".
Proof.
  unfold show, NilZero.string_of_int, NilZero.string_of_uint.
  destruct (Z.to_int z) as [d|d].
  - destruct d; (split; [|discriminate]);
      first [ reflexivity | apply (string_of_uint_numeric (_ d)) ].
  - split; [|discriminate]. cbn [numeric]. cbn [occurs].
    destruct d; first [ reflexivity | apply (string_of_uint_numeric (_ d)) ].
Qed.

(** * The retry loop counts its requests *)

Lemma requests_cons (ev : Event) (l : list Event) :
  requests (ev :: l)
  = match request_of ev with
    | Some r => r :: requests l
    | None => requests l
    end.
Proof. reflexivity. Qed.

Section AttemptsCount.
Context {N T : Type}.
Variable fn : M N T.
Variables max maxd mult : Z.
Variable sr : JsError -> bool.
Variable cb : option (Z -> JsError -> M N unit).
Variable p : Rpc -> bool.
Hypothesis cb_logs_nothing :
  forall f a e w, cb = Some f -> log (snd (f a e w)) = log w.
Hypothesis fn_once :
  forall w, exists l,
    log (snd (fn w)) = (log w ++ l)%list
    /\ (length (List.filter p (requests l)) <= 1)%nat.

Lemma attempts_sends (fuel : nat) :
  forall a d le w, exists l,
    log (snd (attempts fn max maxd mult sr cb fuel a d le w))
    = (log w ++ l)%list
    /\ (length (List.filter p (requests l)) <= fuel)%nat.
Proof using cb_logs_nothing fn_once.
  induction fuel as [|fuel IH]; intros a d le w; cbn [attempts];
    destruct (a <=? max);
    try (exists []; cbn; rewrite app_nil_r; split; [reflexivity | lia]).
  unfold try_catch. destruct (fn_once w) as (l1 & E1 & C1).
  destruct (fn w) as [[v|e] w1]; cbn [snd] in *.
  - exists l1. split; [exact E1 | lia].
  - destruct ((a =? max) || negb (sr e)).
    + exists l1. split; [exact E1 | lia].
    + unfold bind at 1.
      assert (Hcb : log (snd (match cb with
                               | Some f => f a e
                               | None => ret tt
                               end w1)) = log w1).
      { destruct cb as [f|] eqn:E; [now apply cb_logs_nothing | reflexivity]. }
      destruct (match cb with
                | Some f => f a e
                | None => ret tt
                end w1) as [[[]|e'] w1']; cbn [snd] in Hcb.
      2:{ exists l1. split; [cbn [snd]; now rewrite Hcb | lia]. }
      unfold bind at 1, sleep, emit.
      match goal with
      | |- context [attempts _ _ _ _ _ _ fuel ?a' ?d' ?le' ?w'] =>
          destruct (IH a' d' le' w') as (l2 & E2 & C2)
      end.
      cbn [log] in E2.
      exists (l1 ++ EvSleep d :: l2)%list. split.
      * rewrite E2, Hcb, E1. rewrite <- !app_assoc. reflexivity.
      * rewrite requests_app, List.filter_app, length_app.
        rewrite requests_cons. cbn [request_of]. lia.
Qed.
End AttemptsCount.

Lemma read_message_log {N} (e : JsError) (w : World N) :
  log (snd ((read_message e ;;; ret tt) w)) = log w.
Proof. unfold bind, read_message. now destruct (nullish e). Qed.

(** One more attempt, for a callback that returns on this error. *)
Lemma attempts_again_at {N T} (fn : M N T) max maxd mult sr cb fuel a d le
    (w w1 : World N) e :
  a < max -> fn w = (Throw e, w1) -> sr e = true ->
  match cb with
  | Some f => f a e
  | None => ret tt
  end w1 = (Return tt, w1) ->
  attempts fn max maxd mult sr cb (S fuel) a d le w
  = attempts fn max maxd mult sr cb fuel (a + 1) (Z.min (d * mult) maxd) e
      (after_sleep d w1).
Proof.
  intros Ha Hfn Hsr Hcb. cbn [attempts].
  destruct (Z.leb_spec a max); [|lia].
  unfold try_catch. rewrite Hfn, Hsr.
  destruct (Z.eqb_spec a max); [lia|]. cbn [orb negb].
  unfold bind at 1. rewrite Hcb. reflexivity.
Qed.

Lemma raced_then_log {N A} (c : Client N) (r : Rpc) (deadline : Z)
    (msg : string) (k : Reply -> M N A) (w : World N) :
  (forall rep w0, log (snd (k rep w0)) = log w0) ->
  exists ev,
    log (snd ((rep <- raced c r deadline msg ;; k rep) w))
    = (log w ++ [ev])%list
    /\ request_of ev = Some r.
Proof.
  intros Hk. unfold bind, raced, request.
  destruct (in_time c r (node w) deadline);
    destruct (handle c r (node w)) as [rep n1].
  - exists (EvRpc r rep). split; [|reflexivity].
    specialize (Hk rep (mkWorld n1 (cache w) (log w ++ [EvRpc r rep]))).
    destruct (k rep _) as [[a|e] w2]; exact Hk.
  - exists (EvLate r deadline). split; reflexivity.
Qed.

Lemma unrecognized_refused (e : JsError) :
  (forall pat, In pat recognized_patterns ->
      includes pat (toLowerCase (or_else (message e) "")) = false
      /\ includes pat (toLowerCase (or_else (details e) "")) = false) ->
  defaultShouldRetry e = false.
Proof.
  intros Hnone. unfold defaultShouldRetry.
  destruct (Hnone "timeout") as [-> ->]; [cbn; tauto|].
  destruct (Hnone "econnrefused") as [-> _]; [cbn; tauto|].
  destruct (Hnone "econnreset") as [-> _]; [cbn; tauto|].
  destruct (Hnone "rate limit") as [-> _]; [cbn; tauto|].
  destruct (Hnone "too many requests") as [-> _]; [cbn; tauto|].
  destruct (Hnone "network") as [-> _]; [cbn; tauto|].
  destruct (Hnone "fetch failed") as [-> _]; [cbn; tauto|].
  destruct (Hnone "block requested not found") as [-> ->]; [cbn; tauto|].
  cbn [orb]. now destruct (_ && _).
Qed.

(** A message built around a number holds a recognized pattern only
    where the text before or after the number does. *)
Lemma includes_around_number (pat pre post : string) (z : Z) :
  In pat recognized_patterns ->
  includes pat (toLowerCase (pre ++ show z ++ post))
  = includes pat (toLowerCase pre) || includes pat (toLowerCase post).
Proof.
  intros Hpat. destruct (show_numeric z) as [Hnum Hne].
  rewrite !toLowerCase_app, (toLowerCase_numeric _ Hnum).
  assert (Hcons : exists p0 p, pat = String p0 p).
  { cbn in Hpat.
    repeat (destruct Hpat as [<- | Hpat]; [eauto|]). destruct Hpat. }
  destruct Hcons as (p0 & p & ->).
  apply includes_gap; [|exact Hne].
  now apply numeric_free.
Qed.

Lemma timed_out_refused (what : string) (t : Z) :
  (forall pat, In pat recognized_patterns ->
      includes pat (toLowerCase (String "T" what)) = false) ->
  defaultShouldRetry (Error (String "T" what ++ show t ++ "ms")) = false.
Proof.
  intros Hwhat. apply unrecognized_refused. intros pat Hpat.
  cbn [message details Error].
  change (or_else (Some (String "T" what ++ show t ++ "ms")) "")
    with (String "T" what ++ show t ++ "ms").
  rewrite (includes_around_number _ _ _ _ Hpat), (Hwhat pat Hpat).
  split.
  - cbn in Hpat.
    repeat (destruct Hpat as [<- | Hpat]; [reflexivity|]). destruct Hpat.
  - cbn in Hpat.
    repeat (destruct Hpat as [<- | Hpat]; [reflexivity|]). destruct Hpat.
Qed.

Section ClientFacts.
Context {N : Type} (env : Env N).

Lemma as_word_log rep (w0 : World N) : log (snd (as_word rep w0)) = log w0.
Proof. now destruct rep. Qed.

Lemma as_unit_log rep (w0 : World N) : log (snd (as_unit rep w0)) = log w0.
Proof. now destruct rep. Qed.

Lemma as_receipt_log rep (w0 : World N) :
  log (snd (as_receipt rep w0)) = log w0.
Proof. now destruct rep. Qed.

Lemma submission_once account target data value gas timeout msg1 msg2
    (w : World N) :
  exists l,
    log (snd ((hash <- (rep <- raced (client env)
                                 (SendTransaction account target data value gas)
                                 timeout msg1 ;;
                        as_word rep) ;;
               rep <- raced (client env) (WaitForTransactionReceipt hash)
                        timeout msg2 ;;
               as_receipt rep) w))
    = (log w ++ l)%list
    /\ (length (List.filter is_submission (requests l)) <= 1)%nat.
Proof.
  destruct (raced_then_log (client env)
              (SendTransaction account target data value gas) timeout msg1
              as_word w as_word_log) as (ev1 & E1 & R1).
  unfold bind at 1.
  destruct ((rep <- raced (client env)
                      (SendTransaction account target data value gas)
                      timeout msg1 ;; as_word rep) w) as [[hash|e] w1];
    cbn [snd] in E1.
  - destruct (raced_then_log (client env) (WaitForTransactionReceipt hash)
                timeout msg2 as_receipt w1 as_receipt_log) as (ev2 & E2 & R2).
    exists [ev1; ev2]. split.
    + rewrite E2, E1, <- app_assoc. reflexivity.
    + rewrite !requests_cons, R1, R2. cbn. lia.
  - exists [ev1]. split; [exact E1|].
    rewrite requests_cons, R1. cbn. lia.
Qed.

Lemma reset_once blockNumber (w : World N) :
  exists l,
    log (snd ((rep <- raced (client env) (Reset blockNumber) LONG_TIMEOUT
                        "Fork reset timed out after 5 minutes" ;;
               as_unit rep) w))
    = (log w ++ l)%list
    /\ (length (List.filter is_reset (requests l)) <= 1)%nat.
Proof.
  destruct (raced_then_log (client env) (Reset blockNumber) LONG_TIMEOUT
              "Fork reset timed out after 5 minutes" as_unit w as_unit_log)
    as (ev & E & R).
  exists [ev]. split; [exact E|].
  rewrite requests_cons, R. cbn. lia.
Qed.

Lemma late_reset blockNumber (w : World N) :
  in_time (client env) (Reset blockNumber) (node w) LONG_TIMEOUT = false ->
  exists n1,
    (rep <- raced (client env) (Reset blockNumber) LONG_TIMEOUT
              "Fork reset timed out after 5 minutes" ;;
     as_unit rep) w
    = (Throw (Error "Fork reset timed out after 5 minutes"),
       mkWorld n1 (cache w)
         (log w ++ [EvLate (Reset blockNumber) LONG_TIMEOUT])).
Proof.
  intros Hlate. unfold bind, raced. rewrite Hlate.
  destruct (handle (client env) (Reset blockNumber) (node w)) as [rep n1].
  now exists n1.
Qed.
End ClientFacts.

(** X8: whatever the node answers, [executeTransactionWithRetry] sends
    the transaction at most [maxAttempts] times (3 when none is given),
    and everything it does is sending it, waiting for its receipt and
    pausing. *)
Theorem transaction_sent_at_most_maxAttempts :
  forall (N : Type) (env : Env N) (account target : Z) (data : string)
         (value gas : Z) (maxAttempts timeout : option Z) (w : World N),
    exists l,
      log (snd (executeTransactionWithRetry env account target data value gas
                  maxAttempts timeout w))
      = (log w ++ l)%list
      /\ Forall submission_event l
      /\ (length (submissions_sent l)
          <= Z.to_nat (or_attempts maxAttempts 3))%nat.
Proof.
  intros N env account target data value gas maxAttempts timeout w.
  destruct (executeTransactionWithRetry_emits env account target data value
              gas maxAttempts timeout w) as (l & E & F).
  exists l. split; [exact E|]. split; [exact F|].
  unfold executeTransactionWithRetry, retryWithBackoff in E |- *.
  cbv zeta in E.
  cbn [Retry.maxAttempts initialDelay maxDelay backoffMultiplier shouldRetry
       onRetry] in E.
  match type of E with
  | context [attempts ?fn ?mx ?md ?mu ?s ?c ?fuel ?a ?d ?le w] =>
      destruct (attempts_sends fn mx md mu s c is_submission
                  ltac:(intros f ? ? ? [= <-]; apply read_message_log)
                  ltac:(intros w0; apply submission_once)
                  fuel a d le w) as (l' & E' & C')
  end.
  rewrite E in E'. apply app_inv_head in E'. subst l'.
  exact C'.
Qed.

(** X9: a submission that outlives its race deadline is not retried,
    whatever the deadline and the number of attempts allowed: the
    message of the race, "Transaction timed out after <n>ms", holds no
    pattern of the default classifier, so the transaction is sent once
    and the error rethrown with no pause. *)
Theorem late_submission_is_not_retried :
  forall (N : Type) (env : Env N) (account target : Z) (data : string)
         (value gas : Z) (maxAttempts timeout : option Z) (w : World N),
    1 <= or_attempts maxAttempts 3 ->
    in_time (client env) (SendTransaction account target data value gas)
      (node w) (or_attempts timeout DEFAULT_TIMEOUT) = false ->
    let deadline := or_attempts timeout DEFAULT_TIMEOUT in
    let late := Error ("Transaction timed out after " ++ show deadline
                         ++ "ms") in
    let run := executeTransactionWithRetry env account target data value gas
                 maxAttempts timeout w in
    defaultShouldRetry late = false
    /\ fst run = Throw late
    /\ log (snd run)
       = (log w
          ++ [EvLate (SendTransaction account target data value gas)
                deadline])%list.
Proof.
  intros N env account target data value gas maxAttempts timeout w Hmax Hlate
    deadline late run.
  assert (Hrefused : defaultShouldRetry late = false).
  { apply (timed_out_refused "ransaction timed out after " deadline).
    intros pat Hpat. cbn in Hpat.
    repeat (destruct Hpat as [<- | Hpat]; [reflexivity|]). destruct Hpat. }
  split; [exact Hrefused|].
  unfold run, executeTransactionWithRetry, retryWithBackoff. cbv zeta.
  cbn [Retry.maxAttempts initialDelay maxDelay backoffMultiplier shouldRetry
       onRetry].
  change (default DEFAULT_maxAttempts (Some (or_attempts maxAttempts 3)))
    with (or_attempts maxAttempts 3).
  change (default defaultShouldRetry None) with defaultShouldRetry.
  destruct (Z.to_nat (or_attempts maxAttempts 3)) as [|fuel] eqn:Hfuel;
    [lia|].
  destruct (handle (client env)
              (SendTransaction account target data value gas) (node w))
    as [rep n1] eqn:Hrep.
  erewrite attempts_give_up with (e := late)
    (w1 := mkWorld n1 (cache w)
             (log w ++ [EvLate (SendTransaction account target data value gas)
                          deadline])).
  - split; reflexivity.
  - lia.
  - unfold bind, raced. fold deadline. unfold deadline at 1.
    rewrite Hlate, Hrep. reflexivity.
  - rewrite Hrefused. apply orb_true_r.
Qed.

Lemma late_submission_is_not_retried_witness :
  let submit := SendTransaction Samples.account Samples.router "0x38ed1739"
                  0 30000000 in
  let run := executeTransactionWithRetry
               (MoreSamples.env_of MoreSamples.congested) Samples.account
               Samples.router "0x38ed1739" 0 30000000 (Some 3) (Some 600000)
               MoreSamples.idle in
  defaultShouldRetry (Error "Transaction timed out after 600000ms") = false
  /\ fst run = Throw (Error "Transaction timed out after 600000ms")
  /\ log (snd run) = [EvLate submit 600000].
Proof.
  apply (late_submission_is_not_retried nat
           (MoreSamples.env_of MoreSamples.congested) Samples.account
           Samples.router "0x38ed1739" 0 30000000 (Some 3) (Some 600000)
           MoreSamples.idle).
  - vm_compute. discriminate.
  - reflexivity.
Defined.

(** * What the fork reset classifier refuses *)

Lemma prefix_includes (p s : string) :
  String.prefix p s = true -> includes p s = true.
Proof. intros H. destruct s; cbn [includes]; now rewrite H. Qed.

Lemma includes_later (p : string) (c : ascii) (s : string) :
  includes p s = true -> includes p (String c s) = true.
Proof. intros H. rewrite includes_cons, H. apply orb_true_r. Qed.

Lemma prefix_tail_included (a b s : string) :
  String.prefix (a ++ b) s = true -> includes b s = true.
Proof.
  revert s. induction a as [|c a IH]; intros s H.
  - now apply prefix_includes.
  - destruct s as [|x s]; [discriminate H|].
    change (String c a ++ b) with (String c (a ++ b)) in H.
    cbn [String.prefix] in H.
    destruct (ascii_dec c x); [|discriminate H].
    apply includes_later, IH, H.
Qed.

Lemma includes_tail (a b s : string) :
  includes (a ++ b) s = true -> includes b s = true.
Proof.
  induction s as [|x s IH]; intros H.
  - cbn [includes] in H. rewrite orb_false_r in H.
    now apply (prefix_tail_included a).
  - rewrite includes_cons in H. apply orb_true_iff in H.
    destruct H as [H|H].
    + now apply (prefix_tail_included a).
    + apply includes_later, IH, H.
Qed.

(** X10: an error whose message says "block requested not found", in
    any letter case, is one the default classifier of [retryWithBackoff]
    retries and the classifier of the fork reset refuses: a reset
    answered with it is sent once and the error is rethrown with no
    pause, by [resetForkWithRetry] and so by [forkToBlock]. *)
Theorem reset_gives_up_on_block_not_found :
  forall (N : Type) (env : Env N) (blockNumber : Z) (w : World N)
         (e : JsError) (n1 : N),
    includes "block requested not found"
      (toLowerCase (or_else (message e) "")) = true ->
    in_time (client env) (Reset blockNumber) (node w) LONG_TIMEOUT = true ->
    handle (client env) (Reset blockNumber) (node w) = (RFail e, n1) ->
    let w' := mkWorld n1 (cache w)
                (log w ++ [EvRpc (Reset blockNumber) (RFail e)]) in
    defaultShouldRetry e = true
    /\ resetShouldRetry e = false
    /\ (forall maxAttempts,
           1 <= or_attempts maxAttempts 5 ->
           resetForkWithRetry env blockNumber maxAttempts w = (Throw e, w'))
    /\ forkToBlock env blockNumber w = (Throw e, w').
Proof.
  intros N env blockNumber w e n1 Hmsg Hin Hrep w'.
  assert (Hdefault : defaultShouldRetry e = true).
  { unfold defaultShouldRetry. rewrite Hmsg. cbn [orb].
    repeat match goal with
           | |- (if ?b then true else _) = true => destruct b; [reflexivity|]
           end.
    reflexivity. }
  assert (Hreset : resetShouldRetry e = false).
  { unfold resetShouldRetry.
    rewrite (includes_tail "block requested " "not found" _ Hmsg).
    apply andb_false_r. }
  assert (Hrun : forall maxAttempts,
             1 <= or_attempts maxAttempts 5 ->
             resetForkWithRetry env blockNumber maxAttempts w = (Throw e, w')).
  { intros maxAttempts Hmax.
    unfold resetForkWithRetry, retryWithBackoff. cbv zeta.
    cbn [Retry.maxAttempts initialDelay maxDelay backoffMultiplier
         shouldRetry onRetry].
    change (default DEFAULT_maxAttempts (Some (or_attempts maxAttempts 5)))
      with (or_attempts maxAttempts 5).
    change (default defaultShouldRetry (Some resetShouldRetry))
      with resetShouldRetry.
    destruct (Z.to_nat (or_attempts maxAttempts 5)) as [|fuel] eqn:Hfuel;
      [lia|].
    apply attempts_give_up.
    - lia.
    - unfold bind, raced, request. rewrite Hin, Hrep. reflexivity.
    - rewrite Hreset. apply orb_true_r. }
  split; [exact Hdefault|]. split; [exact Hreset|]. split; [exact Hrun|].
  assert (Hobject : nullish e = false).
  { destruct e as [[m|] d c]; [reflexivity | discriminate Hmsg]. }
  unfold forkToBlock, try_catch. unfold bind at 1.
  rewrite (Hrun (Some 5)) by (cbn; lia).
  unfold bind. now rewrite (read_message_object e w' Hobject).
Qed.

Lemma reset_gives_up_on_block_not_found_witness :
  let e := Error "Block requested not found" in
  let w' := mkWorld 1%nat ∅ [EvRpc (Reset 100) (RFail e)] in
  defaultShouldRetry e = true
  /\ resetShouldRetry e = false
  /\ (forall maxAttempts,
         1 <= or_attempts maxAttempts 5 ->
         resetForkWithRetry (MoreSamples.env_of MoreSamples.desynced) 100
           maxAttempts MoreSamples.idle
         = (Throw e, w'))
  /\ forkToBlock (MoreSamples.env_of MoreSamples.desynced) 100
       MoreSamples.idle
     = (Throw e, w').
Proof.
  apply (reset_gives_up_on_block_not_found nat
           (MoreSamples.env_of MoreSamples.desynced) 100 MoreSamples.idle
           (Error "Block requested not found") 1%nat).
  - reflexivity.
  - reflexivity.
  - reflexivity.
Defined.

(** X11: when every fork reset outlives its five minutes,
    [forkToBlock] sends the reset five times, pausing 2, 4, 8 and 16
    seconds in between, never asks for the block number, and rethrows
    the race's error; [simulateQuote], which forks before anything
    else and outside any handler, then throws too and yields no
    result for the sample. *)
Theorem stalled_reset_fails_the_sample :
  forall (N : Type) (env : Env N) (quoteResult : Quote)
         (tokenIn tokenOut blockNumber : Z) (w : World N),
    (forall n, in_time (client env) (Reset blockNumber) n LONG_TIMEOUT
               = false) ->
    q_blockNumber quoteResult = Some blockNumber ->
    let late := EvLate (Reset blockNumber) LONG_TIMEOUT in
    let timed_out := Error "Fork reset timed out after 5 minutes" in
    exists w',
      forkToBlock env blockNumber w = (Throw timed_out, w')
      /\ log w'
         = (log w
            ++ [late; EvSleep 2000; late; EvSleep 4000; late; EvSleep 8000;
                late; EvSleep 16000; late])%list
      /\ simulateQuote env quoteResult tokenIn tokenOut w
         = (Throw timed_out, w').
Proof.
  intros N env quoteResult tokenIn tokenOut blockNumber w Hlate Hblock
    late timed_out.
  set (fn := (rep <- raced (client env) (Reset blockNumber) LONG_TIMEOUT
                       "Fork reset timed out after 5 minutes" ;;
              as_unit rep)).
  assert (Hstep : forall w0, exists n1,
             fn w0 = (Throw timed_out,
                      mkWorld n1 (cache w0) (log w0 ++ [late]))).
  { intros w0. apply late_reset, Hlate. }
  assert (Hrun : exists w',
             resetForkWithRetry env blockNumber (Some 5) w
             = (Throw timed_out, w')
             /\ log w'
                = (log w
                   ++ [late; EvSleep 2000; late; EvSleep 4000; late;
                       EvSleep 8000; late; EvSleep 16000; late])%list).
  { unfold resetForkWithRetry, retryWithBackoff. cbv zeta.
    cbn [Retry.maxAttempts initialDelay maxDelay backoffMultiplier
         shouldRetry onRetry].
    change (default DEFAULT_maxAttempts (Some (or_attempts (Some 5) 5)))
      with 5.
    change (default defaultShouldRetry (Some resetShouldRetry))
      with resetShouldRetry.
    change (default DEFAULT_initialDelay (Some 2000)) with 2000.
    change (default DEFAULT_maxDelay (Some 60000)) with 60000.
    change (default DEFAULT_backoffMultiplier None) with 2.
    change (Z.to_nat 5) with 5%nat.
    fold fn.
    destruct (Hstep w) as (n1 & E1).
    erewrite (attempts_again_at fn 5 60000 2 resetShouldRetry)
      by first [lia | exact E1 | reflexivity].
    destruct (Hstep (after_sleep 2000
                       (mkWorld n1 (cache w) (log w ++ [late]))))
      as (n2 & E2).
    erewrite (attempts_again_at fn 5 60000 2 resetShouldRetry)
      by first [lia | exact E2 | reflexivity].
    match type of E2 with
    | _ = (_, ?w2) =>
        destruct (Hstep (after_sleep (Z.min (2000 * 2) 60000) w2))
          as (n3 & E3)
    end.
    erewrite (attempts_again_at fn 5 60000 2 resetShouldRetry)
      by first [lia | exact E3 | reflexivity].
    match type of E3 with
    | _ = (_, ?w3) =>
        destruct (Hstep (after_sleep
                           (Z.min (Z.min (2000 * 2) 60000 * 2) 60000) w3))
          as (n4 & E4)
    end.
    erewrite (attempts_again_at fn 5 60000 2 resetShouldRetry)
      by first [lia | exact E4 | reflexivity].
    match type of E4 with
    | _ = (_, ?w4) =>
        destruct (Hstep
                    (after_sleep
                       (Z.min (Z.min (Z.min (2000 * 2) 60000 * 2) 60000 * 2)
                          60000) w4))
          as (n5 & E5)
    end.
    erewrite (attempts_give_up fn 5 60000 2 resetShouldRetry)
      by first [lia | exact E5 | reflexivity].
    eexists. split; [reflexivity|].
    cbn [after_sleep log cache node]. rewrite <- !app_assoc. reflexivity. }
  destruct Hrun as (w' & Erun & Elog).
  assert (Hfork : forkToBlock env blockNumber w = (Throw timed_out, w')).
  { unfold forkToBlock, try_catch, bind. now rewrite Erun. }
  exists w'. split; [exact Hfork|]. split; [exact Elog|].
  unfold simulateQuote, refork. rewrite Hblock.
  unfold bind at 1. now rewrite Hfork.
Qed.

Lemma stalled_reset_fails_the_sample_witness :
  let late := EvLate (Reset 100) LONG_TIMEOUT in
  let timed_out := Error "Fork reset timed out after 5 minutes" in
  exists w',
    forkToBlock (MoreSamples.env_of MoreSamples.stalled) 100 MoreSamples.idle
    = (Throw timed_out, w')
    /\ log w'
       = (log MoreSamples.idle
          ++ [late; EvSleep 2000; late; EvSleep 4000; late; EvSleep 8000;
              late; EvSleep 16000; late])%list
    /\ simulateQuote (MoreSamples.env_of MoreSamples.stalled) Samples.quote
         Samples.tokenA Samples.usdc MoreSamples.idle
       = (Throw timed_out, w').
Proof.
  apply (stalled_reset_fails_the_sample nat
           (MoreSamples.env_of MoreSamples.stalled) Samples.quote
           Samples.tokenA Samples.usdc 100 MoreSamples.idle).
  - intros n. reflexivity.
  - reflexivity.
Defined.

(** X12: [forkToBlock] does not compare the block number the node
    reports with the block it asked for: once the reset is accepted it
    pauses a second, reads the block number and returns, whatever the
    number is. *)
Theorem forkToBlock_ignores_reported_block :
  forall (N : Type) (env : Env N) (blockNumber reported : Z)
         (w : World N) (n1 n2 : N),
    in_time (client env) (Reset blockNumber) (node w) LONG_TIMEOUT = true ->
    handle (client env) (Reset blockNumber) (node w) = (RUnit, n1) ->
    handle (client env) GetBlockNumber n1 = (RWord reported, n2) ->
    forkToBlock env blockNumber w
    = (Return tt,
       mkWorld n2 (cache w)
         (log w ++ [EvRpc (Reset blockNumber) RUnit; EvSleep 1000;
                    EvRpc GetBlockNumber (RWord reported)])).
Proof.
  intros N env blockNumber reported w n1 n2 Hin Hreset Hblock.
  assert (Hrun : resetForkWithRetry env blockNumber (Some 5) w
                 = (Return tt,
                    mkWorld n1 (cache w)
                      (log w ++ [EvRpc (Reset blockNumber) RUnit]))).
  { unfold resetForkWithRetry, retryWithBackoff. cbv zeta.
    cbn [Retry.maxAttempts initialDelay maxDelay backoffMultiplier
         shouldRetry onRetry].
    change (default DEFAULT_maxAttempts (Some (or_attempts (Some 5) 5)))
      with 5.
    change (Z.to_nat 5) with 5%nat.
    apply attempts_return; [lia|].
    unfold bind, raced, request. rewrite Hin, Hreset. reflexivity. }
  unfold forkToBlock, try_catch. unfold bind at 1. rewrite Hrun.
  unfold bind, sleep, emit, send, request. cbn [node cache log].
  rewrite Hblock. cbn [as_word ret]. rewrite <- !app_assoc. reflexivity.
Qed.

Lemma forkToBlock_ignores_reported_block_witness :
  forkToBlock (MoreSamples.env_of MoreSamples.lagging) 100 MoreSamples.idle
  = (Return tt,
     mkWorld 1%nat ∅
       [EvRpc (Reset 100) RUnit; EvSleep 1000; EvRpc GetBlockNumber (RWord 7)]).
Proof.
  apply (forkToBlock_ignores_reported_block nat
           (MoreSamples.env_of MoreSamples.lagging) 100 7 MoreSamples.idle
           1%nat 1%nat); reflexivity.
Defined.

(** * The slot search and the proxy check *)

Section SlotSearch.
Context {N : Type} (env : Env N).
Variables token holder : Z.

Lemma findBalanceSlot_probe_found slot (w w' : World N) r :
  findBalanceSlot_probe env token holder slot w = (r, w') ->
  exists found,
    r = Return found
    /\ (forall s, found = Some s -> s = slot /\ cache w' !! token = Some s).
Proof.
  intros H.
  cbv beta iota zeta delta
    [findBalanceSlot_probe try_catch bind setStorageAt readBalanceOf send
     request sleep emit set_cache] in H.
  repeat match type of H with
         | context [handle ?c ?q ?n] =>
             let rep := fresh "rep" in
             let n1 := fresh "n" in
             destruct (handle c q n) as [rep n1]; destruct rep;
             cbn [as_unit as_word ret throw node cache log] in H
         | context [if ?b then _ else _] =>
             destruct b; cbn [as_unit as_word ret throw node cache log] in H
         end;
    injection H as <- <-; eexists; (split; [reflexivity|]);
    intros s [= <-] || (intros s Hs; discriminate Hs);
    (split; [reflexivity|]); cbn [cache]; apply lookup_insert_eq.
Qed.

Lemma findBalanceSlot_search_found slots :
  forall (w w' : World N) r,
    findBalanceSlot_search env token holder slots w = (r, w') ->
    exists found,
      r = Return found
      /\ (forall s, found = Some s ->
            In s slots /\ cache w' !! token = Some s).
Proof.
  induction slots as [|slot rest IH]; intros w w' r H;
    cbn [findBalanceSlot_search] in H.
  - injection H as <- <-. exists None. split; [reflexivity|].
    intros s Hs. discriminate Hs.
  - unfold bind at 1 in H.
    destruct (findBalanceSlot_probe env token holder slot w) as [r1 w1] eqn:E.
    destruct (findBalanceSlot_probe_found _ _ _ _ E) as (found & -> & Hfound).
    destruct found as [s|].
    + injection H as <- <-. exists (Some s). split; [reflexivity|].
      intros s' [= <-]. destruct (Hfound s eq_refl) as [-> Hc].
      split; [now left | exact Hc].
    + destruct (IH _ _ _ H) as (found & -> & Hrest).
      exists found. split; [reflexivity|].
      intros s Hs. destruct (Hrest s Hs). split; [now right | assumption].
Qed.
End SlotSearch.

(** X13: [findBalanceSlot] never throws.  With a slot cached for the
    token it returns that slot without sending anything; otherwise a
    slot it returns is one of the candidates, and it is cached when the
    call returns, so that the next call for the token answers from the
    cache. *)
Theorem findBalanceSlot_caches_what_it_finds :
  forall (N : Type) (env : Env N) (token holder : Z) (w : World N),
    exists found w',
      findBalanceSlot env token holder w = (Return found, w')
      /\ (forall slot, cache w !! token = Some slot ->
            found = Some slot /\ w' = w)
      /\ (forall slot, found = Some slot ->
            cache w' !! token = Some slot
            /\ (cache w !! token = None ->
                In slot COMMON_SLOTS_FOR_BALANCE_SET)
            /\ findBalanceSlot env token holder w' = (Return (Some slot), w')).
Proof.
  intros N env token holder w.
  unfold findBalanceSlot at 1. unfold bind, get_cache.
  destruct (cache w !! token) as [cached|] eqn:Hc.
  - exists (Some cached), w. split; [reflexivity|]. split.
    + intros slot [= <-]. split; reflexivity.
    + intros slot [= <-]. split; [exact Hc|]. split; [discriminate|].
      unfold findBalanceSlot, bind, get_cache. now rewrite Hc.
  - destruct (findBalanceSlot_search env token holder
                COMMON_SLOTS_FOR_BALANCE_SET w) as [r w'] eqn:E.
    destruct (findBalanceSlot_search_found env token holder _ _ _ _ E)
      as (found & -> & Hfound).
    exists found, w'. split; [reflexivity|]. split.
    + intros slot Hs. discriminate Hs.
    + intros slot Hs. destruct (Hfound slot Hs) as [Hin Hc'].
      split; [exact Hc'|]. split; [auto|].
      unfold findBalanceSlot, bind, get_cache. now rewrite Hc'.
Qed.

Section ProxyCheck.
Context {N : Type} (env : Env N).
Variable address : Z.

Lemma detectProxy_search_reads slots :
  forall w : World N,
    exists found w' l,
      detectProxy_search env address slots w = (Return found, w')
      /\ cache w' = cache w
      /\ log w' = (log w ++ l)%list
      /\ match found with
         | Some impl =>
             exists pre slot post l0 word,
               slots = (pre ++ slot :: post)%list
               /\ Forall2 (blank_read address) pre l0
               /\ l = (l0 ++ [EvRpc (GetStorageAt address slot) (RWord word)])%list
               /\ word <> 0 /\ impl = word mod 2 ^ 160
         | None => Forall2 (blank_read address) slots l
         end.
Proof.
  induction slots as [|slot rest IH]; intros w; cbn [detectProxy_search].
  - exists None, w, []. rewrite app_nil_r. repeat split; constructor.
  - cbv beta iota zeta delta [bind try_catch getStorageAt send request].
    destruct (handle (client env) (GetStorageAt address slot) (node w))
      as [rep n1].
    set (w1 := mkWorld n1 (cache w)
                 (log w ++ [EvRpc (GetStorageAt address slot) rep])).
    assert (Hnext : forall (Hblank : forall word, rep = RWord word -> word = 0),
      exists found w' l,
        detectProxy_search env address rest w1 = (Return found, w')
        /\ cache w' = cache w
        /\ log w' = (log w ++ l)%list
        /\ match found with
           | Some impl =>
               exists pre slot' post l0 word,
                 (slot :: rest = pre ++ slot' :: post)%list
                 /\ Forall2 (blank_read address) pre l0
                 /\ l = (l0 ++ [EvRpc (GetStorageAt address slot')
                                  (RWord word)])%list
                 /\ word <> 0 /\ impl = word mod 2 ^ 160
           | None => Forall2 (blank_read address) (slot :: rest) l
           end).
    { intros Hblank.
      assert (Hhere : blank_read address slot
                        (EvRpc (GetStorageAt address slot) rep)).
      { exists rep. split; [reflexivity | exact Hblank]. }
      destruct (IH w1) as (found & w' & l & E & Hc & Hl & Hfound).
      exists found, w', (EvRpc (GetStorageAt address slot) rep :: l).
      split; [exact E|]. split; [exact Hc|]. split.
      - rewrite Hl. unfold w1. cbn [log]. now rewrite <- app_assoc.
      - destruct found as [impl|].
        + destruct Hfound as (pre & s & post & l0 & word & -> & Hl0 & -> & Hw
                              & Hi).
          exists (slot :: pre), s, post,
            (EvRpc (GetStorageAt address slot) rep :: l0), word.
          split; [reflexivity|]. split; [constructor; auto|].
          split; [reflexivity|]. split; [exact Hw | exact Hi].
        + constructor; auto. }
    destruct rep as [| word | | |e]; cbn [as_word ret throw];
      try (apply Hnext; intros word' Hw; discriminate Hw).
    fold w1. destruct (Z.eqb_spec word 0) as [Hzero|Hword].
    + apply Hnext. intros word' [= <-]. exact Hzero.
    + exists (Some (word mod 2 ^ 160)), w1,
        [EvRpc (GetStorageAt address slot) (RWord word)].
      split; [reflexivity|]. split; [reflexivity|]. split; [reflexivity|].
      exists [], slot, rest, [], word. split; [reflexivity|].
      split; [constructor|]. split; [reflexivity|].
      split; [exact Hword | reflexivity].
Qed.
End ProxyCheck.

(** X14: [detectProxyImplementation] never throws and leaves the slot
    cache alone.  It reads the three implementation-pointer slots of the
    address in the order of the list, each at most once: the log of a
    run is one read per slot of a prefix of the list, every read but the
    last one blank (it answered zero or was rejected).  It stops at the
    first read that answers a non-zero word and returns the low 160 bits
    of that word; it returns nothing when the reads of all three slots
    are blank. *)
Theorem detectProxyImplementation_reads_pointer_slots :
  forall (N : Type) (env : Env N) (address : Z) (w : World N),
    exists found w' l,
      detectProxyImplementation env address w = (Return found, w')
      /\ cache w' = cache w
      /\ log w' = (log w ++ l)%list
      /\ match found with
         | Some impl =>
             exists pre slot post l0 word,
               PROXY_SLOTS = (pre ++ slot :: post)%list
               /\ Forall2 (blank_read address) pre l0
               /\ l = (l0 ++ [EvRpc (GetStorageAt address slot) (RWord word)])%list
               /\ word <> 0 /\ impl = word mod 2 ^ 160
         | None => Forall2 (blank_read address) PROXY_SLOTS l
         end.
Proof.
  intros N env address w. unfold detectProxyImplementation.
  apply (detectProxy_search_reads env address PROXY_SLOTS w).
Qed.

(** * Counting the requests of a sample *)

Lemma avoids_filter (p : Rpc -> bool) (l : list Event) :
  Forall (avoids p) l -> List.filter p (requests l) = [].
Proof.
  induction 1 as [|ev l Hev _ IH]; [reflexivity|].
  rewrite requests_cons. unfold avoids in Hev.
  destruct (request_of ev) as [r|]; [|exact IH].
  cbn [List.filter]. now rewrite Hev.
Qed.

Lemma emits_weaken {N A} (P Q : Event -> Prop) (m : M N A) :
  (forall ev, P ev -> Q ev) -> emits P m -> emits Q m.
Proof.
  intros HPQ Hm w. destruct (Hm w) as (l & E & F).
  exists l. split; [exact E|]. revert F. apply List.Forall_impl, HPQ.
Qed.

Section Sends.
Context {N : Type} (p : Rpc -> bool).

Lemma emits_sends {A} (m : M N A) (n : nat) :
  emits (avoids p) m -> sends_at_most p n m.
Proof.
  intros Hm w. destruct (Hm w) as (l & E & F).
  exists l. split; [exact E|]. rewrite (avoids_filter p l F). cbn. lia.
Qed.

Lemma sends_bind {A B} (n1 n2 n : nat) (m : M N A) (k : A -> M N B) :
  sends_at_most p n1 m -> (forall a, sends_at_most p n2 (k a)) ->
  (n1 + n2 <= n)%nat ->
  sends_at_most p n (bind m k).
Proof.
  intros Hm Hk Hn w. destruct (Hm w) as (l1 & E1 & C1).
  unfold bind. destruct (m w) as [[a|e] w1]; cbn [snd] in *.
  - destruct (Hk a w1) as (l2 & E2 & C2).
    exists (l1 ++ l2)%list. rewrite E2, E1, app_assoc.
    split; [reflexivity|].
    rewrite requests_app, List.filter_app, length_app. lia.
  - exists l1. split; [exact E1 | lia].
Qed.

Lemma sends_try_catch {A} (n1 n2 n : nat) (m : M N A)
    (h : JsError -> M N A) :
  sends_at_most p n1 m -> (forall e, sends_at_most p n2 (h e)) ->
  (n1 + n2 <= n)%nat ->
  sends_at_most p n (try_catch m h).
Proof.
  intros Hm Hh Hn w. destruct (Hm w) as (l1 & E1 & C1).
  unfold try_catch. destruct (m w) as [[a|e] w1]; cbn [snd] in *.
  - exists l1. split; [exact E1 | lia].
  - destruct (Hh e w1) as (l2 & E2 & C2).
    exists (l1 ++ l2)%list. rewrite E2, E1, app_assoc.
    split; [reflexivity|].
    rewrite requests_app, List.filter_app, length_app. lia.
Qed.
End Sends.

Ltac event_step :=
  lazymatch goal with
  | |- avoids _ _ => cbn; auto
  | |- execution_event _ => exact I
  | |- fork_event _ => exact I
  | |- no_transaction_event _ => cbn; auto
  | |- submission_event _ => exact I
  end.

Ltac events := repeat first [emits_step | event_step].

Section SampleFacts.
Context {N : Type} (env : Env N).

Lemma getTokenBalance_emits token holder isNative :
  emits execution_event (getTokenBalance env token holder isNative).
Proof. unfold getTokenBalance, readBalanceOf. events. Qed.

Lemma submitSwap_execution swapData :
  emits execution_event (submitSwap env swapData).
Proof.
  apply (emits_weaken submission_event); [|apply submitSwap_emits].
  intros [ms|r rep|r d]; cbn; try tauto; destruct r; tauto.
Qed.

Lemma forkToBlock_emits blockNumber :
  emits fork_event (forkToBlock env blockNumber).
Proof.
  unfold forkToBlock, resetForkWithRetry. cbv zeta.
  apply emits_try_catch; [|intros e; events].
  apply emits_bind.
  - apply emits_retryWithBackoff.
    + events.
    + intros f a e [= <-]. events.
    + intros ms. exact I.
  - events.
Qed.

Lemma refork_emits quoteResult : emits fork_event (refork env quoteResult).
Proof.
  unfold refork. destruct (q_blockNumber quoteResult);
    [apply forkToBlock_emits | apply emits_ret].
Qed.

(** What [simulateTransaction] adds to the balance set-up are
    execution events only. *)
Lemma simulateTransaction_emits (P : Event -> Prop) tokenIn tokenOut amountIn
    swapData :
  emits P (setupBalances env tokenIn amountIn swapData) ->
  (forall ev, execution_event ev -> P ev) ->
  emits P (simulateTransaction env tokenIn tokenOut amountIn swapData).
Proof.
  intros Hsetup Hexec. unfold simulateTransaction.
  apply emits_try_catch; [|intros e; repeat emits_step].
  apply emits_bind; [exact Hsetup|].
  intros [result|]; [apply emits_ret|].
  apply (emits_weaken execution_event); [exact Hexec|].
  cbv zeta.
  apply emits_bind; [events|]. intros _.
  apply emits_bind; [apply getTokenBalance_emits|]. intros initialBalance.
  apply emits_bind; [events|]. intros _.
  apply emits_bind; [events|]. intros targetCode.
  destruct (negb targetCode); [apply emits_throw|].
  apply emits_bind; [apply submitSwap_execution|].
  intros [receipt|result]; [|apply emits_ret].
  destruct (rc_status receipt).
  - apply emits_bind; [events|]. intros _.
    apply emits_bind; [apply getTokenBalance_emits|]. intros finalBalance.
    apply emits_ret.
  - events.
Qed.

Lemma setupBalances_no_submission tokenIn amountIn swapData :
  emits (avoids is_submission) (setupBalances env tokenIn amountIn swapData).
Proof.
  unfold setupBalances. cbv zeta. destruct (isNativeToken tokenIn).
  - unfold setNativeBalance. events.
  - apply emits_bind.
    + apply (emits_weaken no_transaction_event);
        [|apply setERC20Balance_quiet].
      intros ev. unfold no_transaction_event, avoids.
      destruct (request_of ev); tauto.
    + unfold readBalanceOf, approveERC20. events.
Qed.

Lemma setupBalances_native tokenIn amountIn swapData :
  isNativeToken tokenIn = true ->
  emits (fun ev => avoids is_approval ev /\ avoids is_storage_write ev)
    (setupBalances env tokenIn amountIn swapData).
Proof.
  intros Hnative. unfold setupBalances. rewrite Hnative. cbv zeta.
  unfold setNativeBalance.
  repeat first [emits_step | (split; cbn; auto)].
Qed.

Lemma approveERC20_once token spender amount :
  sends_at_most is_approval 1 (approveERC20 env token spender amount).
Proof.
  intros w.
  pose proof (approveERC20_approvals env token spender amount w) as Ha.
  assert (He : emits (fun _ => True) (approveERC20 env token spender amount)).
  { unfold approveERC20. repeat first [emits_step | exact I]. }
  destruct (He w) as (l & E & _). exists l. split; [exact E|].
  rewrite E, approvals_app in Ha. apply app_inv_head in Ha.
  unfold approvals in Ha. rewrite Ha. cbn. lia.
Qed.

Lemma setupBalances_one_approval tokenIn amountIn swapData :
  sends_at_most is_approval 1 (setupBalances env tokenIn amountIn swapData).
Proof.
  unfold setupBalances. cbv zeta. destruct (isNativeToken tokenIn).
  - apply emits_sends. unfold setNativeBalance. events.
  - apply (sends_bind _ 0 1); [| |lia].
    + apply emits_sends.
      apply (emits_weaken no_transaction_event);
        [|apply setERC20Balance_quiet].
      intros ev. unfold no_transaction_event, avoids.
      destruct (request_of ev); tauto.
    + intros ok. apply (sends_bind _ 0 1); [| |lia].
      * apply emits_sends. unfold readBalanceOf. events.
      * intros actual. destruct (negb ok || (actual <? amountIn)).
        -- apply emits_sends, emits_ret.
        -- apply (sends_bind _ 1 0); [apply approveERC20_once| |lia].
           intros _. apply emits_sends. events.
Qed.

Lemma executeTransactionWithRetry_sends account target data value gas
    maxAttempts timeout :
  sends_at_most is_submission (Z.to_nat (or_attempts maxAttempts 3))
    (executeTransactionWithRetry env account target data value gas
       maxAttempts timeout).
Proof.
  intros w. unfold executeTransactionWithRetry, retryWithBackoff.
  cbv zeta.
  cbn [Retry.maxAttempts initialDelay maxDelay backoffMultiplier shouldRetry
       onRetry].
  apply attempts_sends.
  - intros f ? ? ? [= <-]. apply read_message_log.
  - intros w0. apply submission_once.
Qed.

Lemma submitSwap_sends swapData :
  sends_at_most is_submission 3 (submitSwap env swapData).
Proof.
  unfold submitSwap.
  apply (sends_try_catch _ 3 0); [| |lia].
  - apply (sends_bind _ 3 0); [| |lia].
    + apply (executeTransactionWithRetry_sends _ _ _ _ _ (Some 3)).
    + intros receipt. apply emits_sends, emits_ret.
  - intros e. apply emits_sends. repeat emits_step.
Qed.

Lemma simulateTransaction_submissions tokenIn tokenOut amountIn swapData :
  sends_at_most is_submission 3
    (simulateTransaction env tokenIn tokenOut amountIn swapData).
Proof.
  unfold simulateTransaction.
  apply (sends_try_catch _ 3 0); [| |lia];
    [|intros e; apply emits_sends; repeat emits_step].
  apply (sends_bind _ 0 3); [| |lia].
  { apply emits_sends, setupBalances_no_submission. }
  intros [result|]; [apply emits_sends, emits_ret|]. cbv zeta.
  apply (sends_bind _ 0 3); [apply emits_sends; events| |lia]. intros _.
  apply (sends_bind _ 0 3); [| |lia].
  { apply emits_sends. unfold getTokenBalance, readBalanceOf. events. }
  intros initialBalance.
  apply (sends_bind _ 0 3); [apply emits_sends; events| |lia]. intros _.
  apply (sends_bind _ 0 3); [apply emits_sends; events| |lia].
  intros targetCode.
  destruct (negb targetCode); [apply emits_sends, emits_throw|].
  apply (sends_bind _ 3 0); [apply submitSwap_sends| |lia].
  intros [receipt|result]; [|apply emits_sends, emits_ret].
  apply emits_sends. unfold getTokenBalance, readBalanceOf.
  destruct (rc_status receipt); events.
Qed.

Lemma simulateTransaction_approvals tokenIn tokenOut amountIn swapData :
  sends_at_most is_approval 1
    (simulateTransaction env tokenIn tokenOut amountIn swapData).
Proof.
  unfold simulateTransaction.
  apply (sends_try_catch _ 1 0); [| |lia];
    [|intros e; apply emits_sends; repeat emits_step].
  apply (sends_bind _ 1 0); [apply setupBalances_one_approval| |lia].
  intros [result|]; [apply emits_sends, emits_ret|].
  apply emits_sends. cbv zeta.
  apply (emits_weaken execution_event).
  { intros [ms|r rep|r d]; cbn; try tauto; destruct r; cbn; tauto. }
  apply emits_bind; [events|]. intros _.
  apply emits_bind; [apply getTokenBalance_emits|]. intros initialBalance.
  apply emits_bind; [events|]. intros _.
  apply emits_bind; [events|]. intros targetCode.
  destruct (negb targetCode); [apply emits_throw|].
  apply emits_bind; [apply submitSwap_execution|].
  intros [receipt|result]; [|apply emits_ret].
  destruct (rc_status receipt).
  - apply emits_bind; [events|]. intros _.
    apply emits_bind; [apply getTokenBalance_emits|]. intros finalBalance.
    apply emits_ret.
  - events.
Qed.

(** The simulation part of [simulateQuote]. *)
Lemma simulation_sends (p : Rpc -> bool) (n : nat) quoteResult tokenIn
    tokenOut :
  (forall amountIn swapData,
      sends_at_most p n
        (simulateTransaction env tokenIn tokenOut amountIn swapData)) ->
  (forall ev, fork_event ev -> avoids p ev) ->
  sends_at_most p n (simulateQuote env quoteResult tokenIn tokenOut).
Proof.
  intros Hsim Hfork. unfold simulateQuote.
  apply (sends_bind _ 0 n); [| |lia].
  { apply emits_sends, (emits_weaken fork_event); [exact Hfork|].
    apply refork_emits. }
  intros _. apply (sends_bind _ 0 n); [| |lia].
  { apply emits_sends, emits_sleep. exact I. }
  intros _. apply (sends_bind _ n 0); [| |lia].
  - destruct (q_txData quoteResult) as [swapData|];
      [|apply emits_sends, emits_ret].
    destruct (q_status quoteResult =? 200); [|apply emits_sends, emits_ret].
    intros w. unfold try_catch.
    rewrite simulationAttempt_is_simulateTransaction.
    destruct (Hsim (default 0 (q_amountIn quoteResult)) swapData w)
      as (l & E & C).
    destruct (simulateTransaction_outcome env tokenIn tokenOut
                (default 0 (q_amountIn quoteResult)) swapData w)
      as (w1 & [(r & Er)|Er]);
      rewrite Er in E |- *; now exists l.
  - intros r. apply emits_sends.
    destruct (gasUsed r); apply emits_ret.
Qed.
End SampleFacts.

(** X15: whatever the node answers and whatever the quote, one sample
    sends the swap transaction at most three times and at most one
    approval. *)
Theorem sample_sends_bounded :
  forall (N : Type) (env : Env N) (quoteResult : Quote)
         (tokenIn tokenOut : Z) (w : World N),
    exists l,
      log (snd (simulateQuote env quoteResult tokenIn tokenOut w))
      = (log w ++ l)%list
      /\ (length (submissions_sent l) <= 3)%nat
      /\ (length (approvals l) <= 1)%nat.
Proof.
  intros N env quoteResult tokenIn tokenOut w.
  assert (Hfork : forall p, (forall b, p (Reset b) = false) ->
                            p GetBlockNumber = false ->
                            forall ev, fork_event ev -> avoids p ev).
  { intros p Hr Hb [ms|r rep|r d]; cbn; try tauto; destruct r; cbn;
      auto; tauto. }
  destruct (simulation_sends env is_submission 3 quoteResult tokenIn tokenOut
              (simulateTransaction_submissions env tokenIn tokenOut)
              (Hfork is_submission (fun _ => eq_refl) eq_refl) w)
    as (l & E & Cs).
  destruct (simulation_sends env is_approval 1 quoteResult tokenIn tokenOut
              (simulateTransaction_approvals env tokenIn tokenOut)
              (Hfork is_approval (fun _ => eq_refl) eq_refl) w)
    as (l' & E' & Ca).
  rewrite E in E'. apply app_inv_head in E'. subst l'.
  exists l. split; [exact E|]. split; [exact Cs | exact Ca].
Qed.

(** X16: with the native token as input, [simulateTransaction] sends
    no approval and writes no storage: the set-up is one
    [setBalance] of the test account to the larger of 1000 x 10^18 and
    1000000 x amountIn, followed by a read of that balance. *)
Theorem native_input_needs_no_approval :
  forall (N : Type) (env : Env N) (tokenIn tokenOut amountIn : Z)
         (swapData : SwapTransaction) (w : World N),
    isNativeToken tokenIn = true ->
    exists rep l,
      log (snd (simulateTransaction env tokenIn tokenOut amountIn swapData w))
      = (log w
         ++ EvRpc (SetBalance (TEST_ACCOUNT env)
                     (Z.max (1000 * 10 ^ 18) (amountIn * 1000000))) rep
            :: l)%list
      /\ approvals l = [] /\ storage_writes l = [].
Proof.
  intros N env tokenIn tokenOut amountIn swapData w Hnative.
  set (P := fun ev => avoids is_approval ev /\ avoids is_storage_write ev).
  assert (Hall : emits P
            (simulateTransaction env tokenIn tokenOut amountIn swapData)).
  { apply simulateTransaction_emits.
    - now apply setupBalances_native.
    - intros [ms|r rep|r d]; unfold P; cbn; try tauto;
        destruct r; cbn; tauto. }
  destruct (Hall w) as (l & E & F).
  assert (Hfirst : exists rep l0,
    log (snd (simulateTransaction env tokenIn tokenOut amountIn swapData w))
    = (log w
       ++ EvRpc (SetBalance (TEST_ACCOUNT env)
                   (Z.max (1000 * 10 ^ 18) (amountIn * 1000000))) rep
          :: l0)%list).
  { assert (Hrest : emits (fun _ => True)
              (simulateTransaction env tokenIn tokenOut amountIn swapData))
      by (revert Hall; apply emits_weaken; auto).
    unfold simulateTransaction, setupBalances. rewrite Hnative. cbv zeta.
    replace (if 1000 * 10 ^ 18 <? amountIn * 1000000
             then amountIn * 1000000 else 1000 * 10 ^ 18)
      with (Z.max (1000 * 10 ^ 18) (amountIn * 1000000))
      by (destruct (Z.ltb_spec (1000 * 10 ^ 18) (amountIn * 1000000)); lia).
    set (balance := Z.max (1000 * 10 ^ 18) (amountIn * 1000000)).
    match goal with
    | |- context [try_catch (bind (bind (setNativeBalance env ?a ?b) ?k1) ?k2)
                    ?h] =>
        set (K1 := k1); set (K2 := k2); set (H := h)
    end.
    assert (HK : emits (fun _ => True)
                   (try_catch
                      (bind (bind (ret tt) K1) K2) H)).
    { unfold K1, K2, H. apply emits_try_catch; [|intros; repeat emits_step].
      apply emits_bind.
      - repeat first [emits_step | exact I].
      - intros [result|]; [apply emits_ret|].
        apply (emits_weaken execution_event); [auto|].
        cbv zeta.
        apply emits_bind; [events|]. intros _.
        apply emits_bind; [apply getTokenBalance_emits|]. intros ?.
        apply emits_bind; [events|]. intros _.
        apply emits_bind; [events|]. intros targetCode.
        destruct (negb targetCode); [apply emits_throw|].
        apply emits_bind; [apply submitSwap_execution|].
        intros [receipt|result]; [|apply emits_ret].
        destruct (rc_status receipt).
        + apply emits_bind; [events|]. intros _.
          apply emits_bind; [apply getTokenBalance_emits|]. intros ?.
          apply emits_ret.
        + events. }
    unfold try_catch at 1, bind at 1, bind at 1, setNativeBalance,
      try_catch at 1, bind at 1, send, request.
    destruct (handle (client env) (SetBalance (TEST_ACCOUNT env) balance)
                (node w)) as [rep n1].
    exists rep.
    set (w1 := mkWorld n1 (cache w)
                 (log w ++ [EvRpc (SetBalance (TEST_ACCOUNT env) balance)
                              rep])).
    destruct rep as [| | | |e]; cbn [as_unit ret throw];
      try (destruct (HK w1) as (l0 & E0 & _);
           unfold try_catch at 1, bind at 1, bind at 1, ret at 1 in E0;
           exists l0; rewrite E0; unfold w1; cbn [log];
           now rewrite <- app_assoc).
    unfold H, bind, read_message. exists [].
    now destruct (nullish e). }
  destruct Hfirst as (rep & l0 & E0).
  exists rep, l0. split; [exact E0|].
  rewrite E in E0. apply app_inv_head in E0. subst l.
  apply Forall_cons_iff in F. destruct F as [_ F].
  split.
  - apply (avoids_filter is_approval). revert F.
    apply List.Forall_impl. unfold P. tauto.
  - apply (avoids_filter is_storage_write). revert F.
    apply List.Forall_impl. unfold P. tauto.
Qed.

Lemma native_input_needs_no_approval_witness :
  exists rep l,
    log (snd (simulateTransaction (Samples.market [Samples.accepted]) 0
                Samples.usdc 1000 Samples.swap Samples.fresh))
    = (log Samples.fresh
       ++ EvRpc (SetBalance
                   (TEST_ACCOUNT (Samples.market [Samples.accepted]))
                   (Z.max (1000 * 10 ^ 18) (1000 * 1000000))) rep
          :: l)%list
    /\ approvals l = [] /\ storage_writes l = [].
Proof.
  apply (native_input_needs_no_approval _
           (Samples.market [Samples.accepted]) 0 Samples.usdc 1000
           Samples.swap Samples.fresh).
  reflexivity.
Defined.

(** * The shape of a simulation result *)

Section Results.
Context {N : Type} (env : Env N).

Lemma setupBalances_early_result tokenIn amountIn swapData (w w' : World N)
    r :
  setupBalances env tokenIn amountIn swapData w = (Return (Some r), w') ->
  r = mkSimulationResult error 0
        (Some "Failed to set token balance for simulation") None.
Proof.
  unfold setupBalances. cbv zeta. destruct (isNativeToken tokenIn).
  - unfold bind.
    destruct (setNativeBalance env _ _ w) as [[[]|e] w1]; [|discriminate].
    destruct (send env _ w1) as [[rep|e] w2]; [|discriminate].
    destruct (as_word rep w2) as [[z|e] w3]; cbn; discriminate.
  - unfold bind.
    destruct (setERC20Balance env _ _ _ w) as [[ok|e] w1]; [|discriminate].
    destruct (readBalanceOf env _ _ w1) as [[actual|e] w2]; [|discriminate].
    destruct (negb ok || (actual <? amountIn)); cbn.
    + intros [= <- _]. reflexivity.
    + destruct (approveERC20 env _ _ _ w2) as [[[]|e] w3]; [|discriminate].
      destruct (send env _ w3) as [[rep|e] w4]; [|discriminate].
      destruct (as_word rep w4) as [[z|e] w5]; cbn; discriminate.
Qed.

(** What [submitSwap] hands on: a receipt, an error result, a timeout
    error to rethrow, or the [TypeError] of reading the message of a
    thrown [undefined]. *)
Lemma submitSwap_outcome swapData (w w' : World N) res :
  submitSwap env swapData w = (res, w') ->
  match res with
  | Return (inl receipt) => True
  | Return (inr r) => exists msg, r = mkSimulationResult error 0 (Some msg) None
  | Throw e => nullish e = false
  end.
Proof.
  unfold submitSwap, try_catch, bind.
  destruct (executeTransactionWithRetry env _ _ _ _ _ _ _ w)
    as [[receipt|e] w1]; [intros [= <- _]; exact I|].
  unfold read_message. destruct (nullish e) eqn:He; cbn.
  - intros [= <- _]. reflexivity.
  - destruct (is_timeout e); cbn; intros [= <- _];
      [exact He | eexists; reflexivity].
Qed.

Ltac settled H :=
  cbn in H;
  repeat match type of H with
         | context [nullish ?e] => destruct (nullish e)
         end;
  cbn in H; injection H as <- <-; cbn; eauto.

Lemma simulateTransaction_shape tokenIn tokenOut amountIn swapData
    (w w' : World N) res :
  simulateTransaction env tokenIn tokenOut amountIn swapData w = (res, w') ->
  match res with
  | Return r => result_shape r
  | Throw e => e = TypeError_message
  end.
Proof.
  intros H. unfold result_shape.
  cbv beta iota zeta delta
    [simulateTransaction try_catch bind sleep emit send request
     read_message] in H.
  destruct (setupBalances env tokenIn amountIn swapData w)
    as [[[early|]|e] w1] eqn:Hsetup.
  - cbn in H. injection H as <- <-.
    rewrite (setupBalances_early_result _ _ _ _ _ _ Hsetup). cbn. eauto.
  - cbn [node cache log] in H.
    match type of H with
    | context [getTokenBalance env tokenOut ?a ?b ?w0] =>
        destruct (getTokenBalance env tokenOut a b w0) as [[pre|e] w2]
    end.
    2:{ settled H. }
    cbn [node cache log] in H.
    destruct (handle (client env) (GetBytecode (to swapData)) (node w2))
      as [rep n3].
    destruct rep as [| | |[|]|]; cbn [as_code ret throw negb] in H;
      try (settled H).
    match type of H with
    | context [submitSwap env swapData ?w0] =>
        destruct (submitSwap env swapData w0)
          as [[[receipt|result]|e] w4] eqn:Hsubmit
    end.
    + destruct (rc_status receipt).
      * cbn [node cache log] in H.
        match type of H with
        | context [getTokenBalance env tokenOut ?a ?b ?w0] =>
            destruct (getTokenBalance env tokenOut a b w0) as [[post|e] w5]
        end; settled H.
      * match type of H with
        | context [handle ?c ?q ?n] => destruct (handle c q n) as [rep n5]
        end.
        settled H.
    + cbn in H. injection H as <- <-.
      destruct (submitSwap_outcome _ _ _ _ Hsubmit) as (msg & ->).
      cbn. eauto.
    + pose proof (submitSwap_outcome _ _ _ _ Hsubmit) as He. cbn in He.
      cbn in H. rewrite He in H. settled H.
  - settled H.
Qed.
End Results.

(** * Computations that throw error objects only *)

Section Objects.
Context {N : Type}.

Lemma objects_ret {A} (a : A) : throws_objects (@ret N A a).
Proof. intros w e w' H. discriminate H. Qed.

Lemma objects_throw {A} e : nullish e = false -> throws_objects (@throw N A e).
Proof. intros He w e' w' [= <- _]. exact He. Qed.

Lemma objects_returns {A} (m : M N A) : returns m -> throws_objects m.
Proof.
  intros Hm w e w' H. destruct (Hm w) as (a & w1 & E). congruence.
Qed.

Lemma objects_bind {A B} (m : M N A) (k : A -> M N B) :
  throws_objects m -> (forall a, throws_objects (k a)) ->
  throws_objects (bind m k).
Proof.
  intros Hm Hk w e w'. unfold bind.
  destruct (m w) as [[a|e0] w1] eqn:E.
  - apply Hk.
  - intros [= <- <-]. eapply Hm, E.
Qed.

Lemma objects_try_catch {A} (m : M N A) (h : JsError -> M N A) :
  throws_objects m -> (forall e, nullish e = false -> throws_objects (h e)) ->
  throws_objects (try_catch m h).
Proof.
  intros Hm Hh w e w'. unfold try_catch.
  destruct (m w) as [[a|e0] w1] eqn:E; [discriminate|].
  apply Hh. eapply Hm, E.
Qed.

Lemma objects_sleep ms : throws_objects (@sleep N ms).
Proof. intros w e w' H. discriminate H. Qed.

Lemma objects_read_message e : throws_objects (@read_message N e).
Proof.
  intros w e' w'. unfold read_message.
  destruct (nullish e); [|discriminate]. now intros [= <- _].
Qed.

Lemma objects_after_read {A} e (k : M N A) :
  (nullish e = false -> throws_objects k) ->
  throws_objects (read_message e ;;; k).
Proof.
  intros Hk w e' w'. unfold bind, read_message.
  destruct (nullish e); [now intros [= <- _]|]. now apply Hk.
Qed.

Lemma objects_request {A} (c : Client N) r (k : Reply -> M N A) :
  rejects_with_objects c ->
  (forall rep, (forall e, rep = RFail e -> nullish e = false) ->
               throws_objects (k rep)) ->
  throws_objects (bind (request c r) k).
Proof.
  intros Hc Hk w e w'. unfold bind, request.
  destruct (handle c r (node w)) as [rep n1] eqn:E.
  apply Hk. intros e0 ->. eapply Hc, E.
Qed.

Lemma objects_as_unit rep :
  (forall e, rep = RFail e -> nullish e = false) ->
  throws_objects (@as_unit N rep).
Proof. intros H w e w'. destruct rep; intros [= <- _]; auto. Qed.

Lemma objects_as_word rep :
  (forall e, rep = RFail e -> nullish e = false) ->
  throws_objects (@as_word N rep).
Proof. intros H w e w'. destruct rep; intros [= <- _]; auto. Qed.

Lemma objects_as_receipt rep :
  (forall e, rep = RFail e -> nullish e = false) ->
  throws_objects (@as_receipt N rep).
Proof. intros H w e w'. destruct rep; intros [= <- _]; auto. Qed.

Lemma objects_as_code rep :
  (forall e, rep = RFail e -> nullish e = false) ->
  throws_objects (@as_code N rep).
Proof. intros H w e w'. destruct rep; intros [= <- _]; auto. Qed.
End Objects.

Ltac objects_step :=
  lazymatch goal with
  | |- throws_objects (bind (send _ _) _) =>
      apply objects_request; [assumption|]
  | |- throws_objects (bind (request _ _) _) =>
      apply objects_request; [assumption|]
  | |- throws_objects (bind (read_message _) _) => apply objects_after_read
  | |- throws_objects (bind _ _) => apply objects_bind
  | |- throws_objects (try_catch _ _) => apply objects_try_catch
  | |- throws_objects (ret _) => apply objects_ret
  | |- throws_objects (throw _) => apply objects_throw; try assumption
  | |- throws_objects (sleep _) => apply objects_sleep
  | |- throws_objects (as_unit _) => apply objects_as_unit; assumption
  | |- throws_objects (as_word _) => apply objects_as_word; assumption
  | |- throws_objects (as_receipt _) => apply objects_as_receipt; assumption
  | |- throws_objects (as_code _) => apply objects_as_code; assumption
  | |- throws_objects (if ?b then _ else _) => destruct b
  | |- throws_objects (match ?x with _ => _ end) => destruct x
  | |- forall _, _ => intro
  end.

Section ObjectsOnly.
Context {N : Type} (env : Env N).
Hypothesis Hobjects : rejects_with_objects (client env).

Lemma submitSwap_objects swapData : throws_objects (submitSwap env swapData).
Proof.
  intros w e w' H. apply (submitSwap_outcome env _ _ _ _ H).
Qed.

Lemma simulateTransaction_returns tokenIn tokenOut amountIn swapData :
  returns (simulateTransaction env tokenIn tokenOut amountIn swapData).
Proof using Hobjects.
  intros w. unfold simulateTransaction.
  match goal with
  | |- context [try_catch ?body ?h w] =>
      assert (Hbody : throws_objects body)
  end.
  { apply objects_bind.
    - unfold setupBalances. cbv zeta. destruct (isNativeToken tokenIn).
      + unfold setNativeBalance. repeat objects_step.
      + apply objects_bind;
          [apply objects_returns, setERC20Balance_returns|].
        unfold readBalanceOf, approveERC20. repeat objects_step.
    - intros [result|]; [apply objects_ret|]. cbv zeta.
      apply objects_bind; [apply objects_sleep|]. intros _.
      apply objects_bind.
      { unfold getTokenBalance, readBalanceOf. repeat objects_step. }
      intros initialBalance.
      apply objects_bind; [apply objects_sleep|]. intros _.
      apply objects_bind; [repeat objects_step|]. intros targetCode.
      destruct (negb targetCode); [now apply objects_throw|].
      apply objects_bind; [apply submitSwap_objects|].
      intros [receipt|result]; [|apply objects_ret].
      unfold getTokenBalance, readBalanceOf.
      destruct (rc_status receipt); repeat objects_step. }
  unfold try_catch.
  match goal with
  | |- context [match ?body w with _ => _ end] =>
      destruct (body w) as [[r|e] w1] eqn:E
  end.
  - now exists r, w1.
  - unfold bind. rewrite (read_message_object e w1 (Hbody _ _ _ E)).
    eexists _, _. reflexivity.
Qed.
End ObjectsOnly.

(** X17: a run of [simulateTransaction] ends in one of two ways.  It
    returns a result whose status is never "skipped": a success carries
    the gas used and no error; a reverted result has amount 0, the
    error "Transaction reverted" and the gas used; an error result has
    amount 0, an error message and no gas used.  Or it throws the
    [TypeError] its catch-all meets when it reads the message of a
    thrown [undefined], as for a token whose [balanceOf] is rejected
    with [undefined]. *)
Theorem simulation_result_shape :
  forall (N : Type) (env : Env N) (tokenIn tokenOut amountIn : Z)
         (swapData : SwapTransaction) (w : World N),
    match fst (simulateTransaction env tokenIn tokenOut amountIn swapData w)
    with
    | Return r => result_shape r
    | Throw e => e = TypeError_message
    end
    /\ fst (simulateTransaction MoreSamples.void_env Samples.tokenA
              Samples.usdc 1000 Samples.swap Samples.fresh)
       = Throw TypeError_message.
Proof.
  intros N env tokenIn tokenOut amountIn swapData w. split.
  - destruct (simulateTransaction env tokenIn tokenOut amountIn swapData w)
      as [res w'] eqn:H.
    apply (simulateTransaction_shape env _ _ _ _ _ _ _ H).
  - vm_compute. reflexivity.
Qed.

(** X28: on a node whose rejections are error objects, never
    [undefined], [simulateTransaction] never throws: every failure
    inside it is reported as a result, of the shape its status asks
    for. *)
Theorem simulation_returns_for_error_objects :
  forall (N : Type) (env : Env N) (tokenIn tokenOut amountIn : Z)
         (swapData : SwapTransaction) (w : World N),
    rejects_with_objects (client env) ->
    exists r w',
      simulateTransaction env tokenIn tokenOut amountIn swapData w
      = (Return r, w')
      /\ result_shape r.
Proof.
  intros N env tokenIn tokenOut amountIn swapData w Hobjects.
  destruct (simulateTransaction_returns env Hobjects tokenIn tokenOut
              amountIn swapData w) as (r & w' & H).
  exists r, w'. split; [exact H|].
  apply (simulateTransaction_shape env _ _ _ _ _ _ _ H).
Qed.

Lemma simulation_returns_for_error_objects_witness :
  exists r w',
    simulateTransaction Samples.broken_env Samples.tokenA Samples.usdc 1000
      Samples.swap Samples.fresh
    = (Return r, w')
    /\ result_shape r.
Proof.
  apply (simulation_returns_for_error_objects Anvil.Fork Samples.broken_env
           Samples.tokenA Samples.usdc 1000 Samples.swap Samples.fresh).
  intros r n e n' H.
  destruct r; cbn in H; try discriminate H;
    try (injection H as <- _; reflexivity).
  destruct (Anvil.submitted n); cbn in H; injection H as <- _; reflexivity.
Defined.

(** X18: whatever the node answers, a sample result that is not a
    success reports output 0; a result without gas used has gas cost 0
    and net amount 0; and the net amount is never negative, even when
    the output (a balance difference) is. *)
Theorem sample_result_invariants :
  forall (N : Type) (env : Env N) (quoteResult : Quote)
         (tokenIn tokenOut : Z) (w w' : World N) (s : SampleResult),
    simulateQuote env quoteResult tokenIn tokenOut w = (Return s, w') ->
    0 <= netAmount s
    /\ (simulationStatus s <> success -> simulationOutput s = 0)
    /\ (sample_gasUsed s = None ->
        gasCostInTokenOut s = 0 /\ netAmount s = 0
        /\ (simulationStatus s = error \/ simulationStatus s = skipped))
    /\ (simulationStatus s = skipped ->
        simulationError s = Some "Simulation skipped"
        /\ q_status quoteResult <> 200).
Proof.
  intros N env quoteResult tokenIn tokenOut w w' s H.
  unfold simulateQuote in H.
  unfold bind at 1 in H.
  destruct (refork env quoteResult w) as [[[]|e] w1]; [|discriminate H].
  unfold bind at 1 in H. cbn [sleep emit] in H.
  unfold bind at 1 in H.
  destruct (q_txData quoteResult) as [swapData|] eqn:Htx.
  2:{ cbn in H. injection H as <- <-. cbn.
      repeat split; try lia; try discriminate; auto. }
  destruct (Z.eqb_spec (q_status quoteResult) 200) as [Hok|Hnot].
  2:{ cbn in H. injection H as <- <-. cbn.
      repeat split; try lia; try discriminate; auto. }
  unfold try_catch at 1 in H.
  rewrite simulationAttempt_is_simulateTransaction in H.
  match type of H with
  | context [simulateTransaction env tokenIn tokenOut ?a swapData ?w0] =>
      destruct (simulateTransaction env tokenIn tokenOut a swapData w0)
        as [[r|e] w2] eqn:Hsim;
      pose proof (simulateTransaction_shape env _ _ _ _ _ _ _ Hsim) as Hshape;
      cbn in Hshape
  end.
  2:{ subst e. cbn in H. injection H as <- <-. cbn.
      repeat split; try lia; try discriminate; auto. }
  unfold result_shape in Hshape.
  destruct r as [st out err used]. cbn [status amountOut sim_error gasUsed] in *.
  destruct used as [used|]; cbn [ret] in H; injection H as <- <-;
    cbn [simulationStatus simulationOutput netAmount gasCostInTokenOut
         sample_gasUsed simulationError].
  - split.
    { unfold calculateNetAmount. cbv zeta.
      destruct (Z.ltb_spec (out - calculateGasCostInTokenOut used
                                    (TOKEN_PRICES_IN_NATIVE_TOKEN env tokenOut)
                                    (getTokenDecimals env tokenOut)) 0); lia. }
    split.
    { destruct st; try tauto; intros _; tauto. }
    split; [discriminate|].
    intros ->. destruct Hshape.
  - destruct st; try (destruct Hshape as (_ & [u Hu]); discriminate Hu);
      try (destruct Hshape as (_ & _ & [u Hu]); discriminate Hu);
      try (exfalso; exact Hshape).
    destruct Hshape as (-> & _ & _).
    repeat split; try lia; try discriminate; auto.
Qed.

Lemma sample_result_invariants_witness :
  let s := mkSampleResult success 99500000 None (Some 150000) 374999
             99125001 in
  0 <= netAmount s
  /\ (simulationStatus s <> success -> simulationOutput s = 0)
  /\ (sample_gasUsed s = None ->
      gasCostInTokenOut s = 0 /\ netAmount s = 0
      /\ (simulationStatus s = error \/ simulationStatus s = skipped))
  /\ (simulationStatus s = skipped ->
      simulationError s = Some "Simulation skipped"
      /\ q_status Samples.quote <> 200).
Proof.
  apply (sample_result_invariants _ (Samples.market [Samples.accepted])
           Samples.quote Samples.tokenA Samples.usdc Samples.fresh
           (snd (simulateQuote (Samples.market [Samples.accepted])
                   Samples.quote Samples.tokenA Samples.usdc Samples.fresh))).
  vm_compute. reflexivity.
Defined.

(** * The code check comes before the submission *)

Lemma gated_quiet (gate : Event) (l : list Event) :
  Forall (avoids is_submission) l -> gated gate l.
Proof. intros F. left. apply (avoids_filter is_submission l F). Qed.

Lemma gated_after (gate : Event) (l1 l2 : list Event) :
  Forall (avoids is_submission) l1 -> gated gate l2 ->
  gated gate (l1 ++ l2).
Proof.
  intros F1 [H2|(la & lb & -> & Ha & Hb)].
  - left. rewrite submissions_sent_app, H2, app_nil_r.
    apply (avoids_filter is_submission l1 F1).
  - right. exists (l1 ++ la)%list, lb. split; [now rewrite <- app_assoc|].
    split; [|exact Hb].
    rewrite submissions_sent_app, Ha, app_nil_r.
    apply (avoids_filter is_submission l1 F1).
Qed.

Lemma gated_open (gate : Event) (l : list Event) :
  approvals l = [] -> gated gate (gate :: l).
Proof. intros H. right. exists [], l. repeat split. exact H. Qed.

Lemma run_bind {N A B} (m : M N A) (k : A -> M N B) (w : World N) :
  bind m k w
  = match m w with
    | (Return a, w') => k a w'
    | (Throw e, w') => (Throw e, w')
    end.
Proof. reflexivity. Qed.

Lemma run_try_catch {N A} (m : M N A) (h : JsError -> M N A) (w : World N) :
  try_catch m h w
  = match m w with
    | (Return a, w') => (Return a, w')
    | (Throw e, w') => h e w'
    end.
Proof. reflexivity. Qed.

(** A handler that sends nothing leaves the log of what it guards. *)
Lemma caught_log {N A} (m : M N A) (h : JsError -> M N A) (w : World N) :
  (forall e w0, log (snd (h e w0)) = log w0) ->
  log (snd (try_catch m h w)) = log (snd (m w)).
Proof.
  intros Hh. unfold try_catch. destruct (m w) as [[a|e] w1];
    [reflexivity | apply Hh].
Qed.

(** X19: in every run of [simulateTransaction], the swap transaction
    is not submitted unless the code check of the swap target has
    answered that there is code, and not before that answer; no
    approval is sent after the code check.  The approval of an ERC20
    input, itself a transaction, belongs to the set-up and is sent
    before the code check, also when the target has no code: on the
    sample market without code the run is an error with one approval
    sent and no swap submitted. *)
Theorem swap_sent_only_after_code_check :
  forall (N : Type) (env : Env N) (tokenIn tokenOut amountIn : Z)
         (swapData : SwapTransaction) (w : World N),
    (exists l,
        log (snd (simulateTransaction env tokenIn tokenOut amountIn swapData
                    w))
        = (log w ++ l)%list
        /\ gated (EvRpc (GetBytecode (to swapData)) (RCode true)) l)
    /\ (let run := simulateTransaction MoreSamples.codeless_market
                     Samples.tokenA Samples.usdc 1000 Samples.swap
                     Samples.fresh in
        match fst run with
        | Return r => status r = error
        | Throw _ => False
        end
        /\ drop 11 (requests (log (snd run)))
           = [Approve Samples.tokenA Samples.router MAX_UINT256
                Samples.account;
              WaitForTransactionReceipt 0;
              Allowance Samples.tokenA Samples.account Samples.router;
              BalanceOf Samples.usdc Samples.account;
              GetBytecode Samples.router]
        /\ approvals (log (snd run))
           = [Approve Samples.tokenA Samples.router MAX_UINT256
                Samples.account]
        /\ submissions_sent (log (snd run)) = []).
Proof.
  intros N env tokenIn tokenOut amountIn swapData w.
  split; [|vm_compute; repeat split; reflexivity].
  set (gate := EvRpc (GetBytecode (to swapData)) (RCode true)).
  unfold simulateTransaction.
  rewrite caught_log
    by (intros e w0; unfold bind, read_message; now destruct (nullish e)).
  rewrite run_bind.
  destruct (setupBalances_no_submission env tokenIn amountIn swapData w)
    as (l1 & E1 & F1).
  destruct (setupBalances env tokenIn amountIn swapData w)
    as [[[early|]|e] w1]; cbn [snd] in E1;
    try (exists l1; split; [exact E1 | now apply gated_quiet]).
  cbv zeta. rewrite run_bind. cbn [sleep emit]. rewrite run_bind.
  set (w1' := mkWorld (node w1) (cache w1) (log w1 ++ [EvSleep 1000])).
  assert (Hbal : emits (avoids is_submission)
                   (getTokenBalance env tokenOut (TEST_ACCOUNT env)
                      (isNativeToken tokenOut))).
  { unfold getTokenBalance, readBalanceOf. events. }
  destruct (Hbal w1') as (l2 & E2 & F2).
  destruct (getTokenBalance env tokenOut (TEST_ACCOUNT env)
              (isNativeToken tokenOut) w1') as [[pre|e] w2];
    cbn [snd] in E2; unfold w1' in E2; cbn [log] in E2.
  2:{ exists (l1 ++ [EvSleep 1000] ++ l2)%list. split.
      - cbn [snd]. rewrite E2, E1, <- !app_assoc. reflexivity.
      - apply gated_quiet. apply Forall_app. split; [exact F1|].
        constructor; [exact I | exact F2]. }
  rewrite run_bind. cbn [sleep emit]. rewrite run_bind, run_bind.
  unfold send at 1, request at 1. cbn [node cache log].
  destruct (handle (client env) (GetBytecode (to swapData)) (node w2))
    as [rep n3].
  set (before := (l1 ++ [EvSleep 1000] ++ l2 ++ [EvSleep 1000])%list).
  assert (Fbefore : Forall (avoids is_submission) before).
  { unfold before. apply Forall_app. split; [exact F1|].
    constructor; [exact I|]. apply Forall_app. split; [exact F2|].
    constructor; [exact I | constructor]. }
  assert (Elog : ((log w2 ++ [EvSleep 1000])
                  ++ [EvRpc (GetBytecode (to swapData)) rep])%list
                 = (log w ++ before
                    ++ [EvRpc (GetBytecode (to swapData)) rep])%list).
  { unfold before. rewrite E2, E1, <- !app_assoc. reflexivity. }
  rewrite Elog.
  assert (Hstop : exists l,
    (log w ++ before ++ [EvRpc (GetBytecode (to swapData)) rep])%list
    = (log w ++ l)%list
    /\ (rep <> RCode true -> gated gate l)).
  { exists (before ++ [EvRpc (GetBytecode (to swapData)) rep])%list.
    split; [reflexivity|]. intros Hrep. apply gated_quiet.
    apply Forall_app. split; [exact Fbefore|].
    constructor; [reflexivity | constructor]. }
  destruct rep as [| | |[|]|e]; cbn [as_code ret throw negb];
    try (destruct Hstop as (l & E & G);
         exists l; split; [exact E | apply G; discriminate]).
  match goal with
  | |- context [bind (submitSwap env swapData) ?k ?w3] =>
      assert (Hrest : emits execution_event
                        (bind (submitSwap env swapData) k));
      [|destruct (Hrest w3) as (l3 & E3 & F3)]
  end.
  { apply emits_bind; [apply submitSwap_execution|].
    intros [receipt|result]; [|apply emits_ret].
    destruct (rc_status receipt).
    - apply emits_bind; [events|]. intros _.
      apply emits_bind; [apply getTokenBalance_emits|]. intros ?.
      apply emits_ret.
    - events. }
  cbn [log] in E3.
  assert (Ha3 : approvals l3 = []).
  { apply (avoids_filter is_approval). revert F3. apply List.Forall_impl.
    intros [ms|r rep|r d]; cbn; try tauto; destruct r; cbn; tauto. }
  match goal with
  | |- context [bind (submitSwap env swapData) ?k ?w3] =>
      destruct (bind (submitSwap env swapData) k w3) as [[r|e] w4];
      cbn [snd] in E3; cbn [snd];
      exists (before ++ gate :: l3)%list;
      (split; [rewrite E3, <- !app_assoc; reflexivity|]);
      (apply gated_after; [exact Fbefore | now apply gated_open])
  end.
Qed.

(** X20: a quote without transaction data, or one whose status is
    not 200, is not simulated: apart from the fork reset before it,
    nothing is sent to the node, and the sample is recorded with output
    0, no gas and net amount 0, as an error "No transaction data" when
    the data is missing and as "skipped" otherwise. *)
Theorem unsimulated_quote_touches_only_the_fork :
  forall (N : Type) (env : Env N) (quoteResult : Quote)
         (tokenIn tokenOut : Z) (w : World N),
    q_txData quoteResult = None \/ q_status quoteResult <> 200 ->
    let run := simulateQuote env quoteResult tokenIn tokenOut w in
    exists l,
      log (snd run) = (log w ++ l)%list
      /\ Forall fork_event l
      /\ forall s, fst run = Return s ->
           s = match q_txData quoteResult with
               | None =>
                   mkSampleResult error 0 (Some "No transaction data") None
                     0 0
               | Some _ =>
                   mkSampleResult skipped 0 (Some "Simulation skipped") None
                     0 0
               end.
Proof.
  intros N env quoteResult tokenIn tokenOut w Hnot run.
  unfold run, simulateQuote. rewrite run_bind.
  destruct (refork_emits env quoteResult w) as (l & E & F).
  destruct (refork env quoteResult w) as [[[]|e] w1]; cbn [snd] in E.
  2:{ exists l. split; [exact E|]. split; [exact F|].
      intros s Hs. discriminate Hs. }
  rewrite run_bind. cbn [sleep emit]. rewrite run_bind.
  assert (Fl : Forall fork_event (l ++ [EvSleep 1000])).
  { apply Forall_app. split; [exact F|]. constructor; [exact I|constructor]. }
  destruct (q_txData quoteResult) as [swapData|] eqn:Htx.
  - destruct Hnot as [Hnone|Hstatus]; [discriminate Hnone|].
    destruct (Z.eqb_spec (q_status quoteResult) 200) as [Hok|_];
      [contradiction|].
    cbn. exists (l ++ [EvSleep 1000])%list.
    split; [now rewrite E, <- app_assoc|]. split; [exact Fl|].
    now intros s [= <-].
  - cbn. exists (l ++ [EvSleep 1000])%list.
    split; [now rewrite E, <- app_assoc|]. split; [exact Fl|].
    now intros s [= <-].
Qed.

Lemma unsimulated_quote_touches_only_the_fork_witness :
  let run := simulateQuote (Samples.market [Samples.accepted])
               MoreSamples.failed_quote Samples.tokenA Samples.usdc
               Samples.fresh in
  exists l,
    log (snd run) = (log Samples.fresh ++ l)%list
    /\ Forall fork_event l
    /\ forall s, fst run = Return s ->
         s = match q_txData MoreSamples.failed_quote with
             | None =>
                 mkSampleResult error 0 (Some "No transaction data") None
                   0 0
             | Some _ =>
                 mkSampleResult skipped 0 (Some "Simulation skipped") None
                   0 0
             end.
Proof.
  apply (unsimulated_quote_touches_only_the_fork _
           (Samples.market [Samples.accepted]) MoreSamples.failed_quote
           Samples.tokenA Samples.usdc Samples.fresh).
  right. discriminate.
Defined.

(** * Amounts in token units *)

Lemma pow10_is_exact (n : nat) :
  (n <= 22)%nat ->
  BigInt_of_number (pow10 (Z.of_nat n)) = Some (10 ^ Z.of_nat n).
Proof.
  intros Hn.
  do 23 (destruct n as [|n]; [vm_compute; reflexivity|]).
  lia.
Qed.

(** X21: for 0 to 22 decimals, where 10^decimals is a binary64 value,
    [getAmountInTokenDecimals] is the amount divided by 10^decimals and
    rounded toward zero: the floor for an amount that is not negative,
    and the negation of the result for the negated amount. *)
Theorem getAmountInTokenDecimals_truncates :
  forall amountIn decimals : Z,
    0 <= decimals <= 22 ->
    getAmountInTokenDecimals amountIn decimals
    = Some (Z.quot amountIn (10 ^ decimals))
    /\ (0 <= amountIn ->
        getAmountInTokenDecimals amountIn decimals
        = Some (amountIn / 10 ^ decimals))
    /\ getAmountInTokenDecimals (- amountIn) decimals
       = option_map Z.opp (getAmountInTokenDecimals amountIn decimals).
Proof.
  intros amountIn decimals Hd.
  assert (Hexact : forall a,
             getAmountInTokenDecimals a decimals
             = Some (Z.quot a (10 ^ decimals))).
  { intros a. unfold getAmountInTokenDecimals.
    replace decimals with (Z.of_nat (Z.to_nat decimals)) by lia.
    rewrite pow10_is_exact by lia.
    destruct (Z.eqb_spec (10 ^ Z.of_nat (Z.to_nat decimals)) 0) as [H0|_];
      [|reflexivity].
    assert (0 < 10 ^ Z.of_nat (Z.to_nat decimals))
      by (apply Z.pow_pos_nonneg; lia).
    lia. }
  split; [apply Hexact|]. split.
  - intros Ha. rewrite Hexact. f_equal. apply Z.quot_div_nonneg; [lia|].
    apply Z.pow_pos_nonneg; lia.
  - rewrite !Hexact. cbn [option_map]. f_equal. apply Z.quot_opp_l.
    assert (0 < 10 ^ decimals) by (apply Z.pow_pos_nonneg; lia). lia.
Qed.

Lemma getAmountInTokenDecimals_truncates_witness :
  getAmountInTokenDecimals (-1999999) 6 = Some (Z.quot (-1999999) (10 ^ 6))
  /\ (0 <= -1999999 ->
      getAmountInTokenDecimals (-1999999) 6 = Some (-1999999 / 10 ^ 6))
  /\ getAmountInTokenDecimals (- -1999999) 6
     = option_map Z.opp (getAmountInTokenDecimals (-1999999) 6).
Proof.
  apply (getAmountInTokenDecimals_truncates (-1999999) 6). lia.
Defined.

(** * Pair weights *)

Lemma getTokenTier_range (s : string) :
  getTokenTier s = 1 \/ getTokenTier s = 2 \/ getTokenTier s = 3.
Proof.
  unfold getTokenTier.
  destruct (has TIER_1_TOKENS s); [tauto|].
  destruct (has TIER_2_TOKENS s); tauto.
Qed.

(** X22: the weight of a pair does not depend on the order of its two
    tokens, is one of 1, 2, 3, 5 and 10, is 10 exactly when both tokens
    are of tier 1, and does not grow when a token is replaced by one of
    a less important tier. *)
Theorem pair_weight_is_symmetric_and_antitone :
  forall a b c : string,
    getPairWeight a b = getPairWeight b a
    /\ In (getPairWeight a b) [1; 2; 3; 5; 10]
    /\ (getPairWeight a b = 10 <-> getTokenTier a = 1 /\ getTokenTier b = 1)
    /\ (getTokenTier a <= getTokenTier c ->
        getPairWeight c b <= getPairWeight a b).
Proof.
  intros a b c. unfold getPairWeight. cbv zeta.
  destruct (getTokenTier_range a) as [Ha|[Ha|Ha]];
    destruct (getTokenTier_range b) as [Hb|[Hb|Hb]];
    rewrite Ha, Hb; cbn;
    (split; [reflexivity|]); (split; [tauto|]);
    (split; [split; [intros H; try discriminate H; auto | intros [H1 H2];
                      try discriminate H1; try discriminate H2; reflexivity]|]);
    destruct (getTokenTier_range c) as [Hc|[Hc|Hc]]; rewrite Hc; cbn;
      intros H; lia.
Qed.

(** * Error recovery *)

(** X23: [isRecoverableError] depends on the unrecoverable patterns
    only: an error is recoverable exactly when its lower-cased message
    holds none of them, so the list of recoverable patterns changes
    nothing, an error without a message is recoverable, and a message
    with a pattern of each list is unrecoverable. *)
Theorem isRecoverableError_is_a_deny_list :
  forall e : JsError,
    isRecoverableError e
    = negb (existsb
              (fun pattern =>
                 includes pattern (toLowerCase (or_else (message e) "")))
              unrecoverablePatterns)
    /\ isRecoverableError undefined = true
    /\ isRecoverableError (Error "Gateway Timeout: 403 Forbidden") = false.
Proof.
  intros e. split.
  - unfold isRecoverableError. cbv zeta.
    destruct (existsb _ unrecoverablePatterns); [reflexivity|].
    now destruct (existsb _ recoverablePatterns).
  - split; vm_compute; reflexivity.
Qed.

Section RecoveryFacts.
Context {N T : Type}.
Variable fn : M N T.
Variable context : string.
Variable max : Z.
Variable on_error : JsError -> string -> M N unit.
Variable on_recovery : string -> M N unit.
Variable continue : bool.
Hypothesis on_recovery_quiet : forall c w, on_recovery c w = (Return tt, w).

Lemma recovery_value fuel a le (w w1 : World N) v :
  a <= max -> fn w = (Return v, w1) ->
  recovery_attempts fn context max on_error on_recovery continue (S fuel) a
    le w
  = (Return (Some v), w1).
Proof.
  intros Ha Hfn. cbn [recovery_attempts].
  destruct (Z.leb_spec a max); [|lia].
  unfold try_catch, bind. now rewrite Hfn.
Qed.

Lemma recovery_stop fuel a le (w w1 : World N) e :
  a <= max -> fn w = (Throw e, w1) ->
  on_error e context w1 = (Return tt, w1) ->
  isRecoverableError e = false ->
  recovery_attempts fn context max on_error on_recovery continue (S fuel) a
    le w
  = if continue then (Return None, w1) else (Throw e, w1).
Proof.
  intros Ha Hfn Hquiet Hrec. cbn [recovery_attempts].
  destruct (Z.leb_spec a max); [|lia].
  unfold try_catch, bind at 1. rewrite Hfn.
  unfold bind at 1. rewrite Hquiet, Hrec. cbn [negb].
  now destruct continue.
Qed.

Lemma recovery_again fuel a le (w w1 : World N) e :
  a < max -> fn w = (Throw e, w1) ->
  on_error e context w1 = (Return tt, w1) ->
  isRecoverableError e = true ->
  recovery_attempts fn context max on_error on_recovery continue (S fuel) a
    le w
  = recovery_attempts fn context max on_error on_recovery continue fuel
      (a + 1) e (after_sleep (Z.min (1000 * 2 ^ a) 30000) w1).
Proof using on_recovery_quiet.
  intros Ha Hfn Hquiet Hrec. cbn [recovery_attempts].
  destruct (Z.leb_spec a max); [|lia].
  unfold try_catch, bind at 1. rewrite Hfn.
  unfold bind at 1. rewrite Hquiet, Hrec. cbn [negb].
  destruct (Z.ltb_spec a max); [|lia].
  unfold bind at 1, bind at 1. rewrite on_recovery_quiet. reflexivity.
Qed.

Lemma recovery_last fuel le (w w1 : World N) e :
  fn w = (Throw e, w1) ->
  on_error e context w1 = (Return tt, w1) ->
  isRecoverableError e = true ->
  recovery_attempts fn context max on_error on_recovery continue (S fuel) max
    le w
  = if continue then (Return None, w1) else (Throw e, w1).
Proof.
  intros Hfn Hquiet Hrec. cbn [recovery_attempts].
  destruct (Z.leb_spec max max); [|lia].
  unfold try_catch, bind at 1. rewrite Hfn.
  unfold bind at 1. rewrite Hquiet, Hrec. cbn [negb].
  destruct (Z.ltb_spec max max); [lia|].
  unfold bind at 1. cbn [ret].
  destruct fuel; cbn [recovery_attempts];
    destruct (Z.leb_spec (max + 1) max); try lia; now destruct continue.
Qed.

(** The callback throws: so does the run, at once. *)
Lemma recovery_callback_throws fuel a le (w w1 w2 : World N) e e' :
  a <= max -> fn w = (Throw e, w1) ->
  on_error e context w1 = (Throw e', w2) ->
  recovery_attempts fn context max on_error on_recovery continue (S fuel) a
    le w
  = (Throw e', w2).
Proof.
  intros Ha Hfn Hthrows. cbn [recovery_attempts].
  destruct (Z.leb_spec a max); [|lia].
  unfold try_catch, bind at 1. rewrite Hfn.
  unfold bind at 1. now rewrite Hthrows.
Qed.

Lemma recovery_returns :
  continue = true ->
  (forall w e w1, fn w = (Throw e, w1) ->
                  on_error e context w1 = (Return tt, w1)) ->
  forall fuel a le,
    returns (recovery_attempts fn context max on_error on_recovery continue
               fuel a le).
Proof using on_recovery_quiet.
  intros -> Hquiet. induction fuel as [|fuel IH]; intros a le w;
    cbn [recovery_attempts].
  - destruct (a <=? max); eexists _, _; reflexivity.
  - destruct (a <=? max); [|eexists _, _; reflexivity].
    unfold try_catch, bind at 1.
    destruct (fn w) as [[v|e] w1] eqn:Hfn; [eexists _, _; reflexivity|].
    unfold bind at 1. rewrite (Hquiet _ _ _ Hfn).
    destruct (isRecoverableError e); cbn [negb];
      [|eexists _, _; reflexivity].
    unfold bind at 1.
    destruct (a <? max).
    + unfold bind at 1. rewrite on_recovery_quiet. apply IH.
    + apply IH.
Qed.
End RecoveryFacts.

Section RecoveryOptions.
Context {N : Type} (options : ErrorRecoveryOptions N).
Hypothesis Hquiet : quiet_recovery options.

Lemma effective_onError_quiet e c (w : World N) :
  printable options e ->
  default (fun error _ => read_message error ;;; ret tt) (onError options)
    e c w
  = (Return tt, w).
Proof using Hquiet.
  intros Hp. destruct Hquiet as [Herr _]. unfold printable in Hp.
  destruct (onError options) as [cb|] eqn:E; [now apply Herr|].
  cbn [default]. unfold bind.
  now rewrite (read_message_object e w (Hp eq_refl)).
Qed.

Lemma effective_onRecovery_quiet c (w : World N) :
  default (fun _ => ret tt) (onRecovery options) c w = (Return tt, w).
Proof using Hquiet.
  destruct Hquiet as [_ Hrec].
  destruct (onRecovery options) as [cb|] eqn:E; [now apply Hrec|].
  reflexivity.
Qed.
End RecoveryOptions.

Section RecoveryScript.
Context {T : Type}.
Variable context : string.
Variable max : Z.
Variable on_error : JsError -> string -> M (list (Res T)) unit.
Variable on_recovery : string -> M (list (Res T)) unit.
Variable continue : bool.
Variable reported : JsError -> Prop.
Hypothesis on_error_quiet :
  forall e c w, reported e -> on_error e c w = (Return tt, w).
Hypothesis on_recovery_quiet : forall c w, on_recovery c w = (Return tt, w).

Lemma recovery_script (es : list JsError) (outcome : Res T)
    (rest : list (Res T)) :
  forall (fuel : nat) (a : Z) (le : JsError) (w : World (list (Res T))),
    node w = ((Throw <$> es) ++ outcome :: rest)%list ->
    a + Z.of_nat (length es) <= max ->
    (length es < fuel)%nat ->
    Forall (fun e => isRecoverableError e = true /\ reported e) es ->
    let w' := mkWorld rest (cache w)
                (log w ++ (EvSleep <$> recovery_delays a (length es))) in
    match outcome with
    | Return v =>
        recovery_attempts scripted context max on_error on_recovery continue
          fuel a le w
        = (Return (Some v), w')
    | Throw e =>
        reported e ->
        isRecoverableError e = false
        \/ a + Z.of_nat (length es) = max ->
        recovery_attempts scripted context max on_error on_recovery continue
          fuel a le w
        = if continue then (Return None, w') else (Throw e, w')
    end.
Proof using on_error_quiet on_recovery_quiet.
  induction es as [|e es IH]; intros fuel a le w Hnode Ha Hfuel Hrec w'.
  - destruct fuel as [|fuel]; [cbn in Hfuel; lia|].
    cbn in Ha. unfold w'. cbn [length recovery_delays fmap list_fmap].
    rewrite app_nil_r.
    destruct outcome as [v|e].
    + apply (recovery_value scripted); [lia | apply scripted_cons, Hnode].
    + intros Hrep Hstop.
      destruct (isRecoverableError e) eqn:He.
      * destruct Hstop as [Hstop|Hstop]; [discriminate Hstop|].
        cbn in Hstop. replace a with max by lia.
        apply (recovery_last scripted); auto.
        apply scripted_cons, Hnode.
      * apply (recovery_stop scripted); auto; [lia|].
        apply scripted_cons, Hnode.
  - destruct fuel as [|fuel]; [cbn in Hfuel; lia|].
    cbn [length] in *. inversion Hrec as [|? ? [He Hrep] Hes]; subst.
    rewrite (recovery_again scripted context max on_error on_recovery
               continue on_recovery_quiet fuel a le w
               (mkWorld ((Throw <$> es) ++ outcome :: rest)%list (cache w)
                  (log w)) e);
      [ | lia | apply scripted_cons; exact Hnode | now apply on_error_quiet
        | exact He ].
    specialize (IH fuel (a + 1) e
                  (after_sleep (Z.min (1000 * 2 ^ a) 30000)
                     (mkWorld ((Throw <$> es) ++ outcome :: rest)%list
                        (cache w) (log w)))
                  eq_refl ltac:(lia) ltac:(lia) Hes).
    cbn [after_sleep node cache log] in IH.
    unfold w'. cbn [recovery_delays fmap list_fmap].
    rewrite <- app_assoc in IH. cbn [app] in IH.
    destruct outcome as [v|e'].
    + exact IH.
    + intros Hrep' Hstop. apply IH; [exact Hrep'|].
      destruct Hstop as [Hstop|Hstop]; [now left|].
      right. lia.
Qed.
End RecoveryScript.

(** X24: with callbacks that only print what they are given and
    [continueOnError] left at its default or set to true,
    [withErrorRecovery] never throws, provided that the operation never
    rejects with [undefined] when the default [onError], which reads
    [error.message], is in force: it returns the operation's value or
    null. *)
Theorem recovery_returns_for_error_objects :
  forall (N T : Type) (operation : M N T) (context : string)
         (options : ErrorRecoveryOptions N),
    quiet_recovery options ->
    continueOnError options <> Some false ->
    (onError options = None -> throws_objects operation) ->
    returns (withErrorRecovery operation context options).
Proof.
  intros N T operation context options Hquiet Hcontinue Hobjects.
  unfold withErrorRecovery. cbv zeta.
  apply recovery_returns.
  - intros c w. now apply effective_onRecovery_quiet.
  - destruct (continueOnError options) as [[|]|]; try reflexivity.
    congruence.
  - intros w e w1 Hfn. apply effective_onError_quiet; [exact Hquiet|].
    intros Hnone. eapply Hobjects; eauto.
Qed.

Lemma recovery_returns_for_error_objects_witness :
  returns (withErrorRecovery (throw (Error "HTTP 503") : M unit Z) "quote"
             (mkErrorRecoveryOptions None None None None)).
Proof.
  apply (recovery_returns_for_error_objects unit Z (throw (Error "HTTP 503"))
           "quote" (mkErrorRecoveryOptions None None None None)).
  - split; intros cb H; discriminate H.
  - discriminate.
  - intros _ w e w' [= <- _]. reflexivity.
Defined.

(** X25: under [withErrorRecovery], an operation that fails [k] times
    with recoverable errors the [onError] in force can report and then
    succeeds, with [k] below [maxGlobalRetries], is invoked [k + 1]
    times and its value is returned after [k] pauses of
    min(1000 x 2^attempt, 30000) ms: 2 s, 4 s, 8 s, 16 s, then 30 s. *)
Theorem recovery_succeeds_after_failures :
  forall (T : Type) (context : string)
         (options : ErrorRecoveryOptions (list (Res T)))
         (w : World (list (Res T))) (es : list JsError) (v : T)
         (rest : list (Res T)),
    quiet_recovery options ->
    node w = ((Throw <$> es) ++ Return v :: rest)%list ->
    Z.of_nat (length es) < default 3 (maxGlobalRetries options) ->
    Forall (fun e => isRecoverableError e = true /\ printable options e) es ->
    let w' := mkWorld rest (cache w)
                (log w ++ (EvSleep <$> recovery_delays 1 (length es))) in
    withErrorRecovery scripted context options w = (Return (Some v), w')
    /\ invocations w w' = S (length es)
    /\ recovery_delays 1 5 = [2000; 4000; 8000; 16000; 30000].
Proof.
  intros T context options w es v rest Hquiet Hnode Hlen Hes w'.
  split; [|split; [|reflexivity]].
  - unfold withErrorRecovery. cbv zeta.
    apply (recovery_script context (default 3 (maxGlobalRetries options))
             _ _ _ (printable options)
             (fun e c w0 => effective_onError_quiet options Hquiet e c w0)
             (effective_onRecovery_quiet options Hquiet)
             es (Return v) rest);
      [exact Hnode | lia | lia | exact Hes].
  - unfold invocations, w'. cbn [node]. rewrite Hnode, length_app, length_fmap.
    cbn [length]. lia.
Qed.

Lemma recovery_succeeds_after_failures_witness :
  let options : ErrorRecoveryOptions (list (Res Z)) :=
    mkErrorRecoveryOptions None None None None in
  let w' := mkWorld [] (cache Samples.flaky_twice)
              (log Samples.flaky_twice
               ++ (EvSleep <$> recovery_delays 1 2)) in
  withErrorRecovery scripted "quote" options Samples.flaky_twice
  = (Return (Some 42), w')
  /\ invocations Samples.flaky_twice w' = 3%nat
  /\ recovery_delays 1 5 = [2000; 4000; 8000; 16000; 30000].
Proof.
  apply (recovery_succeeds_after_failures Z "quote"
           (mkErrorRecoveryOptions None None None None) Samples.flaky_twice
           [Error "socket timeout"; Error "network down"] 42 []).
  - split; intros cb H; discriminate H.
  - reflexivity.
  - reflexivity.
  - repeat constructor.
Defined.

(** X26: [withErrorRecovery], on errors the [onError] in force can
    report, gives up at the first unrecoverable error and after
    [maxGlobalRetries] failures: the operation is not invoked again,
    there is no pause after the failure that ends the run, and the
    error is replaced by null unless [continueOnError] is false, in
    which case that error is rethrown. *)
Theorem recovery_gives_up :
  forall (T : Type) (context : string)
         (options : ErrorRecoveryOptions (list (Res T)))
         (w : World (list (Res T))) (es : list JsError) (e : JsError)
         (rest : list (Res T)),
    quiet_recovery options ->
    node w = ((Throw <$> es) ++ Throw e :: rest)%list ->
    Z.of_nat (length es) < default 3 (maxGlobalRetries options) ->
    Forall (fun e => isRecoverableError e = true /\ printable options e) es ->
    printable options e ->
    isRecoverableError e = false
    \/ Z.of_nat (length es) + 1 = default 3 (maxGlobalRetries options) ->
    let w' := mkWorld rest (cache w)
                (log w ++ (EvSleep <$> recovery_delays 1 (length es))) in
    withErrorRecovery scripted context options w
    = (if default true (continueOnError options) then Return None
       else Throw e, w')
    /\ invocations w w' = S (length es).
Proof.
  intros T context options w es e rest Hquiet Hnode Hlen Hes Hrep Hstop w'.
  split.
  - unfold withErrorRecovery. cbv zeta.
    pose proof (recovery_script context
                  (default 3 (maxGlobalRetries options))
                  _ _ (default true (continueOnError options))
                  (printable options)
                  (fun e c w0 => effective_onError_quiet options Hquiet e c w0)
                  (effective_onRecovery_quiet options Hquiet)
                  es (Throw e) rest
                  (Z.to_nat (default 3 (maxGlobalRetries options))) 1
                  undefined w Hnode ltac:(lia) ltac:(lia) Hes) as H.
    cbv zeta in H. rewrite H.
    + now destruct (default true (continueOnError options)).
    + exact Hrep.
    + destruct Hstop as [Hstop|Hstop]; [now left | right; lia].
  - unfold invocations, w'. cbn [node]. rewrite Hnode, length_app, length_fmap.
    cbn [length]. lia.
Qed.

Lemma recovery_gives_up_witness :
  let options : ErrorRecoveryOptions (list (Res Z)) :=
    mkErrorRecoveryOptions None None None None in
  let w' := mkWorld [Return 42] (cache MoreSamples.always_failing)
              (log MoreSamples.always_failing
               ++ (EvSleep <$> recovery_delays 1 2)) in
  withErrorRecovery scripted "quote" options MoreSamples.always_failing
  = (if default true (continueOnError options) then Return None
     else Throw (Error "Boom: invalid opcode"), w')
  /\ invocations MoreSamples.always_failing w' = 3%nat.
Proof.
  apply (recovery_gives_up Z "quote"
           (mkErrorRecoveryOptions None None None None)
           MoreSamples.always_failing
           [Error "socket timeout"; Error "network down"]
           (Error "Boom: invalid opcode") [Return 42]).
  - split; intros cb H; discriminate H.
  - reflexivity.
  - reflexivity.
  - repeat constructor.
  - intros _. reflexivity.
  - right. reflexivity.
Defined.

(** X27: with the default [onError], an operation that rejects with
    [undefined] makes [withErrorRecovery] itself throw: the callback
    reads [error.message], and the [TypeError] of that read leaves the
    catch block, whatever [continueOnError] says and although
    [undefined] counts as recoverable; the operation is not invoked
    again and there is no pause. *)
Theorem recovery_throws_on_undefined :
  forall (T : Type) (context : string)
         (options : ErrorRecoveryOptions (list (Res T)))
         (w : World (list (Res T))) (e : JsError) (rest : list (Res T)),
    onError options = None ->
    1 <= default 3 (maxGlobalRetries options) ->
    node w = Throw e :: rest ->
    nullish e = true ->
    let w' := mkWorld rest (cache w) (log w) in
    isRecoverableError e = true
    /\ withErrorRecovery scripted context options w
       = (Throw TypeError_message, w')
    /\ invocations w w' = 1%nat.
Proof.
  intros T context options w e rest Hnone Hmax Hnode He w'.
  split; [|split].
  - destruct e as [[m|] [d|] [c|]]; try discriminate He. reflexivity.
  - unfold withErrorRecovery. cbv zeta. rewrite Hnone.
    destruct (Z.to_nat (default 3 (maxGlobalRetries options)))
      as [|fuel] eqn:Hfuel; [lia|].
    apply (recovery_callback_throws scripted) with (e := e) (w1 := w').
    + lia.
    + apply scripted_cons, Hnode.
    + cbn [default]. unfold bind.
      now rewrite (read_message_nullish e w' He).
  - apply (invocations_prefix w [Throw e]), Hnode.
Qed.

Lemma recovery_throws_on_undefined_witness :
  let w := mkWorld [Throw undefined; Return 42] ∅ [] in
  let w' := mkWorld [Return 42] ∅ [] in
  isRecoverableError undefined = true
  /\ withErrorRecovery (@scripted Z) "quote"
       (mkErrorRecoveryOptions None None None None) w
     = (Throw TypeError_message, w')
  /\ invocations w w' = 1%nat.
Proof.
  apply (recovery_throws_on_undefined Z "quote"
           (mkErrorRecoveryOptions None None None None)
           (mkWorld [Throw undefined; Return 42] ∅ []) undefined
           [Return 42]).
  - reflexivity.
  - cbn. lia.
  - reflexivity.
  - reflexivity.
Defined.
